(** * A shallow embedding of the vendored tracing machinery and of the
      document reader/writer plugins

    The development follows the Python sources module by module:

    - [Core]        : [jax/core.py] (abstract values, [lattice_join],
                      [TraceStack]);
    - [PartialEval] : [jax/interpreters/partial_eval.py] ([PartialVal]);
    - [ControlFlow] : [jax/_src/lax/control_flow.py] ([fori_loop], [scan],
                      [while_loop]);
    - [Batching]    : [jax/interpreters/batching.py] ([matchaxis]);
    - [Plaintext]   : [pyth/plugins/plaintext/writer.py];
    - [PythonMarkup]: [pyth/plugins/python/reader.py].

    Each module holds the definitions translated from its source file; the
    modules [CoreFacts], [PartialEvalFacts], [PythonMarkupFacts],
    [PlaintextFacts], [BatchingFacts] and [ControlFlowFacts] that follow hold
    the lemmas and theorems about them, and the modules after these
    ([AvalFacts], [TraceStateFacts], [VarFacts], [PartialEvalListFacts],
    [ControlFlowMoreFacts], [BatchingMoreFacts], [PlaintextListFacts],
    [PythonMarkupMoreFacts], [CoreMoreFacts]) hold further properties of the
    same files.

    Python exceptions are values of [exn]; a call that may raise returns a
    [result]. Dictionaries with string keys are finite maps of stdpp. *)

From Stdlib Require Import ZArith List String Ascii Bool Lia.
From Stdlib Require Import Floats.SpecFloat.
From stdpp Require Import gmap strings list fin_maps.

Local Open Scope Z_scope.

(** ** Exceptions and results *)

Inductive exn : Set :=
| TypeError
| ValueError
| IndexError
| KeyError
| AttributeError
| AssertionError
| OverflowError
| NotImplementedError.

Global Instance exn_eq_dec : EqDecision exn.
Proof. solve_decision. Defined.

Inductive result (A : Type) : Type :=
| Ok (a : A)
| Raise (e : exn).

Arguments Ok {A} a.
Arguments Raise {A} e.

Definition rbind {A B : Type} (m : result A) (k : A -> result B) : result B :=
  match m with
  | Ok a => k a
  | Raise e => Raise e
  end.

Notation "'let*' x ':=' m 'in' k" := (rbind m (fun x => k))
  (at level 10, x name, m at level 100, k at level 200).

(** [assert cond] of Python. *)
Definition py_assert (cond : bool) : result unit :=
  if cond then Ok tt else Raise AssertionError.

(** The configuration flags the modelled functions read from [jax.config]. *)
Record Config : Set := {
  jax_enable_checks : bool;
  jax_disable_jit : bool
}.

(** ** NumPy data: dtypes, scalars and arrays *)

Inductive dtype : Set :=
| bool_ | int8 | int16 | int32 | int64
| uint8 | uint16 | uint32 | uint64
| bfloat16 | float16 | float32 | float64
| complex64 | complex128 | float0.

Global Instance dtype_eq_dec : EqDecision dtype.
Proof. solve_decision. Defined.

(** One array element. Floating-point elements are IEEE values, so that a NaN
    is an element like any other. *)
Inductive scalar : Set :=
| SBool (b : bool)
| SInt (z : Z)
| SFloat (f : spec_float).

(** Element comparison of NumPy's [==]: the IEEE comparison on floats. Arrays
    compared by the modelled code have equal dtypes, hence elements of one
    kind. *)
Definition scalar_eq (a b : scalar) : bool :=
  match a, b with
  | SBool x, SBool y => Bool.eqb x y
  | SInt x, SInt y => Z.eqb x y
  | SFloat x, SFloat y => SFeqb x y
  | _, _ => false
  end.

(** An n-dimensional array: its shape and its element at each index. *)
Record ndarray : Type := {
  nd_shape : list nat;
  nd_item : list nat -> scalar
}.

(** All the indices of an array of the given shape, in row-major order. *)
Fixpoint indices (shape : list nat) : list (list nat) :=
  match shape with
  | [] => [[]]
  | n :: rest =>
      flat_map (fun i => List.map (cons i) (indices rest)) (seq 0 n)
  end.

(** [np.shape(val)] as a tuple of Python ints. *)
Definition np_shape (val : ndarray) : list Z :=
  List.map Z.of_nat (nd_shape val).

(** [(a == b).all()] for two arrays of one shape. *)
Definition all_equal (a b : ndarray) : bool :=
  forallb (fun i => scalar_eq (nd_item a i) (nd_item b i))
          (indices (nd_shape a)).

(** Monadic fold: the body of a [for] loop that may raise. *)
Fixpoint fold_result {A B : Type} (f : A -> B -> result A) (l : list B) (a : A)
  : result A :=
  match l with
  | [] => Ok a
  | b :: rest => let* a' := f a b in fold_result f rest a'
  end.

(** * jax/core.py *)

Module Core.

(** ** Abstract values *)

(** A dimension of a [DShapedArray]: an int, or a symbolic size (an abstract
    value, a tracer or a variable), identified by its name. *)
Inductive AxisSize : Set :=
| DimInt (n : Z)
| DimSym (v : string).

Global Instance AxisSize_eq_dec : EqDecision AxisSize.
Proof. solve_decision. Defined.

(** The instances of the subclasses of [AbstractValue] that core.py defines.
    [Bot], [AbstractUnit] and [AbstractToken] have no fields and stand for the
    singletons [bot], [abstract_unit] and [abstract_token]. A [ShapedArray]
    holds a canonical shape (Python ints: no special dimension handler is
    registered). A [ConcreteArray] is built from its value: its shape is
    [np.shape(val)] and its named shape is empty. *)
Inductive AbstractValue : Type :=
| Bot
| AbstractUnit
| AbstractToken
| UnshapedArray (dt : dtype) (weak_type : bool)
| DShapedArray (shape : list AxisSize) (dt : dtype) (weak_type : bool)
| ShapedArray (shape : list Z) (dt : dtype) (weak_type : bool)
              (named_shape : gmap string Z)
| ConcreteArray (dt : dtype) (val : ndarray) (weak_type : bool).

Inductive pyclass : Set :=
| ClsAbstractValue
| ClsBot
| ClsAbstractUnit
| ClsAbstractToken
| ClsUnshapedArray
| ClsDShapedArray
| ClsShapedArray
| ClsConcreteArray.

Global Instance pyclass_eq_dec : EqDecision pyclass.
Proof. solve_decision. Defined.

(** [type(x)]. *)
Definition type_of (x : AbstractValue) : pyclass :=
  match x with
  | Bot => ClsBot
  | AbstractUnit => ClsAbstractUnit
  | AbstractToken => ClsAbstractToken
  | UnshapedArray _ _ => ClsUnshapedArray
  | DShapedArray _ _ _ => ClsDShapedArray
  | ShapedArray _ _ _ _ => ClsShapedArray
  | ConcreteArray _ _ _ => ClsConcreteArray
  end.

(** [cls.__mro__], from the [class] statements. *)
Definition mro (c : pyclass) : list pyclass :=
  match c with
  | ClsAbstractValue => [ClsAbstractValue]
  | ClsBot => [ClsBot; ClsAbstractValue]
  | ClsAbstractUnit => [ClsAbstractUnit; ClsAbstractValue]
  | ClsAbstractToken => [ClsAbstractToken; ClsAbstractValue]
  | ClsUnshapedArray => [ClsUnshapedArray; ClsAbstractValue]
  | ClsDShapedArray => [ClsDShapedArray; ClsUnshapedArray; ClsAbstractValue]
  | ClsShapedArray => [ClsShapedArray; ClsUnshapedArray; ClsAbstractValue]
  | ClsConcreteArray =>
      [ClsConcreteArray; ClsShapedArray; ClsUnshapedArray; ClsAbstractValue]
  end.

Definition issubclass (c d : pyclass) : bool := bool_decide (d ∈ mro c).

Definition isinstance (x : AbstractValue) (c : pyclass) : bool :=
  issubclass (type_of x) c.

(** ** Attributes *)

Definition get_dtype (x : AbstractValue) : result dtype :=
  match x with
  | UnshapedArray dt _ | DShapedArray _ dt _
  | ShapedArray _ dt _ _ | ConcreteArray dt _ _ => Ok dt
  | _ => Raise AttributeError
  end.

Definition get_weak_type (x : AbstractValue) : result bool :=
  match x with
  | UnshapedArray _ w | DShapedArray _ _ w
  | ShapedArray _ _ w _ | ConcreteArray _ _ w => Ok w
  | _ => Raise AttributeError
  end.

(** [x.shape]; the property of [UnshapedArray] raises [TypeError]. *)
Definition get_shape (x : AbstractValue) : result (list AxisSize) :=
  match x with
  | UnshapedArray _ _ => Raise TypeError
  | DShapedArray s _ _ => Ok s
  | ShapedArray s _ _ _ => Ok (List.map DimInt s)
  | ConcreteArray _ val _ => Ok (List.map DimInt (np_shape val))
  | _ => Raise AttributeError
  end.

Definition get_named_shape (x : AbstractValue) : result (gmap string Z) :=
  match x with
  | ShapedArray _ _ _ ns => Ok ns
  | ConcreteArray _ _ _ => Ok ∅
  | _ => Raise AttributeError
  end.

(** ** Equality of abstract values: the [__eq__] methods

    Every [__eq__] of the array classes starts with
    [type(self) is type(other)], so two values of different classes compare
    unequal whichever operand's method Python tries first; the classes without
    an [__eq__] compare by identity, and are singletons. *)
Definition py_eq (self other : AbstractValue) : bool :=
  match self, other with
  | UnshapedArray d1 w1, UnshapedArray d2 w2 =>
      bool_decide (d1 = d2) && Bool.eqb w1 w2
  | DShapedArray s1 d1 w1, DShapedArray s2 d2 w2 =>
      bool_decide (d1 = d2) && bool_decide (s1 = s2) && Bool.eqb w1 w2
  | ShapedArray s1 d1 w1 n1, ShapedArray s2 d2 w2 n2 =>
      bool_decide (d1 = d2) && bool_decide (s1 = s2) && Bool.eqb w1 w2
      && bool_decide (n1 = n2)
  | ConcreteArray d1 v1 w1, ConcreteArray d2 v2 w2 =>
      if bool_decide (d1 = d2) && bool_decide (np_shape v1 = np_shape v2)
         && Bool.eqb w1 w2
      then all_equal v1 v2
      else false
  | Bot, Bot | AbstractUnit, AbstractUnit | AbstractToken, AbstractToken => true
  | _, _ => false
  end.

(** ** Shapes and named shapes *)

(** [symbolic_equal_dim], with the integer [DimensionHandler]: a dimension
    that is not an int has no [__index__] and makes
    [_dim_handler_and_canonical] raise [TypeError]. *)
Definition symbolic_equal_dim (d1 d2 : AxisSize) : result bool :=
  if decide (d1 = d2) then Ok true
  else match d1, d2 with
       | DimInt a, DimInt b => Ok (a =? b)
       | _, _ => Raise TypeError
       end.

(** [all(unsafe_map(symbolic_equal_dim, s1, s2))]: lazily, up to the first
    [False]. *)
Fixpoint all_symbolic_equal_dim (s1 s2 : list AxisSize) : result bool :=
  match s1, s2 with
  | d1 :: r1, d2 :: r2 =>
      let* b := symbolic_equal_dim d1 d2 in
      if b then all_symbolic_equal_dim r1 r2 else Ok false
  | _, _ => Ok true
  end.

Definition symbolic_equal_shape (s1 s2 : list AxisSize) : result bool :=
  if (length s1 =? length s2)%nat then all_symbolic_equal_dim s1 s2
  else Ok false.

(** One step of the inner loop of [join_named_shapes]:
    [if result.setdefault(name, size) != size: raise TypeError]. *)
Definition setdefault_check (res : gmap string Z) (item : string * Z)
  : result (gmap string Z) :=
  match res !! item.1 with
  | Some s => if s =? item.2 then Ok res else Raise TypeError
  | None => Ok (<[item.1 := item.2]> res)
  end.

Definition join_named_shapes (named_shapes : list (gmap string Z))
  : result (gmap string Z) :=
  fold_result
    (fun res named_shape =>
       fold_result setdefault_check (map_to_list named_shape) res)
    named_shapes ∅.

(** ** The [join] methods *)

(** [ShapedArray.update], on an instance given by its fields; an argument that
    is [None] keeps the field. *)
Definition ShapedArray_update (shape : list Z) (dt : dtype) (weak_type : bool)
    (named_shape : gmap string Z)
    (new_weak_type : option bool) (new_named_shape : option (gmap string Z))
  : AbstractValue :=
  ShapedArray shape dt (default weak_type new_weak_type)
              (default named_shape new_named_shape).

Definition AbstractUnit_join (cfg : Config) (other : AbstractValue)
  : result AbstractValue :=
  let* _ := (if jax_enable_checks cfg
             then py_assert (bool_decide (type_of other = ClsAbstractUnit))
             else Ok tt) in
  Ok AbstractUnit.

Definition AbstractToken_join (other : AbstractValue) : result AbstractValue :=
  if isinstance other ClsAbstractToken then Ok AbstractToken
  else Raise AssertionError.

(** [UnshapedArray.join], inherited by [DShapedArray]. *)
Definition UnshapedArray_join (self other : AbstractValue)
  : result AbstractValue :=
  let* sd := get_dtype self in
  let* od := get_dtype other in
  if bool_decide (sd = od) then
    let* sw := get_weak_type self in
    let* ow := get_weak_type other in
    if Bool.eqb sw ow then Ok self else Ok (UnshapedArray sd false)
  else Raise TypeError.

Definition ShapedArray_join (shape : list Z) (dt : dtype) (weak_type : bool)
    (named_shape : gmap string Z) (other : AbstractValue)
  : result AbstractValue :=
  let* os := get_shape other in
  let* same_shape := symbolic_equal_shape (List.map DimInt shape) os in
  let* od := get_dtype other in
  if same_shape && bool_decide (dt = od) then
    let* ow := get_weak_type other in
    let* ons := get_named_shape other in
    let* ns := join_named_shapes [named_shape; ons] in
    Ok (ShapedArray_update shape dt weak_type named_shape
                           (Some (weak_type && ow)) (Some ns))
  else if bool_decide (dt = od) then Ok (UnshapedArray dt false)
  else Raise TypeError.

Definition ConcreteArray_join (dt : dtype) (val : ndarray) (weak_type : bool)
    (other : AbstractValue) : result AbstractValue :=
  if py_eq (ConcreteArray dt val weak_type) other
  then Ok (ConcreteArray dt val weak_type)
  else
    let* os := get_shape other in
    let* od := get_dtype other in
    if bool_decide (List.map DimInt (np_shape val) = os)
       && bool_decide (dt = od) then
      let* ow := get_weak_type other in
      let* ons := get_named_shape other in
      let* ns := join_named_shapes [∅; ons] in
      Ok (ShapedArray (np_shape val) dt (weak_type && ow) ns)
    else if bool_decide (dt = od) then
      let* ow := get_weak_type other in
      Ok (UnshapedArray dt (weak_type && ow))
    else Raise TypeError.

(** [self.join(other)]: method resolution on the class of [self]. *)
Definition join (cfg : Config) (self other : AbstractValue)
  : result AbstractValue :=
  match self with
  | Bot => Raise NotImplementedError
  | AbstractUnit => AbstractUnit_join cfg other
  | AbstractToken => AbstractToken_join other
  | UnshapedArray _ _ | DShapedArray _ _ _ => UnshapedArray_join self other
  | ShapedArray shape dt weak_type named_shape =>
      ShapedArray_join shape dt weak_type named_shape other
  | ConcreteArray dt val weak_type => ConcreteArray_join dt val weak_type other
  end.

Definition lattice_join (cfg : Config) (x y : option AbstractValue)
  : result (option AbstractValue) :=
  match x, y with
  | None, _ => Ok y
  | Some _, None => Ok x
  | Some x', Some y' =>
      if isinstance x' (type_of y') then
        let* r := join cfg y' x' in Ok (Some r)
      else if isinstance y' (type_of x') then
        let* r := join cfg x' y' in Ok (Some r)
      else Raise TypeError
  end.

(** ** The interpreter stack *)

(** The subclasses of [Trace] that a [MainTrace] can name: [EvalTrace], of
    core.py, and the traces the interpreters define, by name. *)
Inductive TraceType : Set :=
| EvalTrace
| OtherTrace (name : string).

Global Instance TraceType_eq_dec : EqDecision TraceType.
Proof. solve_decision. Defined.

Section TraceStack.

(** The values of a payload, arbitrary Python objects. *)
Context {Any : Type}.

Record MainTrace : Type := mkMainTrace {
  level : Z;
  trace_type : TraceType;
  payload : gmap string Any
}.

(** [stack] is a Python list: its top is its last element. *)
Record TraceStack : Type := mkTraceStack {
  stack : list MainTrace;
  dynamic : MainTrace
}.

(** [TraceStack.__init__]. *)
Definition TraceStack_init : TraceStack :=
  let eval_trace := mkMainTrace 0 EvalTrace ∅ in
  {| stack := [eval_trace]; dynamic := eval_trace |}.

Definition next_level (self : TraceStack) : Z :=
  Z.of_nat (length (stack self)).

Definition push (self : TraceStack) (main_trace : MainTrace) : TraceStack :=
  {| stack := stack self ++ [main_trace]; dynamic := dynamic self |}.

(** [list.pop()] raises [IndexError] on an empty list. *)
Definition pop (self : TraceStack) : result TraceStack :=
  match stack self with
  | [] => Raise IndexError
  | _ :: _ =>
      Ok {| stack := removelast (stack self); dynamic := dynamic self |}
  end.

Definition copy (self : TraceStack) : TraceStack :=
  {| stack := stack self; dynamic := dynamic self |}.

End TraceStack.

Arguments MainTrace : clear implicits.
Arguments TraceStack : clear implicits.

(** ** More on abstract values *)

(** [cls.array_abstraction_level], of the array classes. *)
Definition array_abstraction_level (c : pyclass) : option Z :=
  match c with
  | ClsUnshapedArray => Some 3
  | ClsDShapedArray => Some 2
  | ClsShapedArray => Some 1
  | ClsConcreteArray => Some 0
  | _ => None
  end.

(** [self.strip_named_shape()]: [AbstractValue.strip_named_shape] returns
    [self]; [ShapedArray.strip_named_shape] is
    [self.update(named_shape={})], and [ConcreteArray.update] has no
    [named_shape] parameter, so that the call raises [TypeError]. *)
Definition strip_named_shape (self : AbstractValue) : result AbstractValue :=
  match self with
  | ShapedArray shape dt w ns =>
      Ok (ShapedArray_update shape dt w ns None (Some ∅))
  | ConcreteArray _ _ _ => Raise TypeError
  | _ => Ok self
  end.

Section Shaped.

(** [dtypes.canonicalize_dtype], of a module that is not among the sources. *)
Variable canonicalize_dtype : dtype -> dtype.

(** The handlers of [raise_to_shaped_mappings], by class. *)
Definition raise_to_shaped_mappings (c : pyclass)
  : option (AbstractValue -> bool -> result AbstractValue) :=
  match c with
  | ClsAbstractUnit | ClsAbstractToken | ClsBot | ClsUnshapedArray =>
      Some (fun aval _ => Ok aval)
  | ClsShapedArray =>
      Some (fun aval weak_type =>
              match aval with
              | ShapedArray shape dt _ ns =>
                  Ok (ShapedArray shape (canonicalize_dtype dt) weak_type ns)
              | ConcreteArray dt val _ =>
                  Ok (ShapedArray (np_shape val) (canonicalize_dtype dt)
                                  weak_type ∅)
              | _ => Raise AttributeError
              end)
  | _ => None
  end.

(** The first class of an [__mro__] that has a handler. *)
Fixpoint first_handler (classes : list pyclass)
  : option (AbstractValue -> bool -> result AbstractValue) :=
  match classes with
  | [] => None
  | c :: rest =>
      match raise_to_shaped_mappings c with
      | Some handler => Some handler
      | None => first_handler rest
      end
  end.

(** [raise_to_shaped(aval, weak_type)]; [weak_type=None] stands for
    [getattr(aval, 'weak_type', False)]. *)
Definition raise_to_shaped (aval : AbstractValue) (weak_type : option bool)
  : result AbstractValue :=
  let weak_type :=
    match weak_type with
    | Some w => w
    | None => match get_weak_type aval with Ok w => w | Raise _ => false end
    end in
  match first_handler (mro (type_of aval)) with
  | Some handler => handler aval weak_type
  | None => Raise TypeError
  end.

(** [typematch(aval1, aval2)]. *)
Definition typematch (aval1 aval2 : AbstractValue) : result bool :=
  if py_eq aval1 aval2 then Ok true
  else
    let* _ :=
      (if isinstance aval1 ClsShapedArray && isinstance aval2 ClsShapedArray
       then
         let* n1 := get_named_shape aval1 in
         let* n2 := get_named_shape aval2 in
         let* _ := join_named_shapes [n1; n2] in
         Ok tt
       else Ok tt) in
    let* r1 := raise_to_shaped aval1 (Some false) in
    let* s1 := strip_named_shape r1 in
    let* r2 := raise_to_shaped aval2 (Some false) in
    let* s2 := strip_named_shape r2 in
    Ok (py_eq s1 s2).

(** [typecompat(aval_ref, aval)]: a [TypeError] gives [False], and any other
    exception passes. *)
Definition typecompat (cfg : Config) (aval_ref aval : AbstractValue)
  : result bool :=
  let attempt :=
    let* joined := lattice_join cfg (Some aval_ref) (Some aval) in
    match joined with
    | Some j => typematch aval_ref j
    | None => Ok false
    end in
  match attempt with
  | Raise TypeError => Ok false
  | other => other
  end.

End Shaped.

(** ** The thread-local trace state *)

(** An axis name is any hashable object: a user's name, or a
    [_TempAxisName], which holds the [id] of a function object. *)
Inductive AxisName : Set :=
| Name (name : string)
| TempAxisName (id : Z).

Global Instance AxisName_eq_dec : EqDecision AxisName.
Proof. solve_decision. Defined.

(** [isinstance(name, _TempAxisName)]. *)
Definition is_temp (name : AxisName) : bool :=
  match name with TempAxisName _ => true | Name _ => false end.

(** What [axis_frame] gives: the frame found, or a [NameError], whose message
    lists the names that are bound. *)
Inductive lookup (A : Type) : Type :=
| Found (frame : A)
| NameError (named_axes : list AxisName).

Arguments Found {A} frame.
Arguments NameError {A} named_axes.

Section TraceState.

Context {Any : Type}.

(** The named tuple [AxisEnvFrame(name, size, main_trace)]. *)
Record AxisEnvFrame : Type := mkAxisEnvFrame {
  frame_name : AxisName;
  frame_size : Z;
  frame_main_trace : option (MainTrace Any)
}.

(** A [Sublevel] is given by its level. *)
Record TraceState : Type := mkTraceState {
  trace_stack : TraceStack Any;
  substack : list Z;
  axis_env : list AxisEnvFrame
}.

(** [TraceState.__init__]. *)
Definition TraceState_init : TraceState :=
  {| trace_stack := TraceStack_init; substack := [0]; axis_env := [] |}.

(** [thread_local_state], with the one thing the code of this file tells the
    configuration module: [dynamic_trace_state] is the argument of the latest
    call of [jax_config.update_thread_local_jit_state]. *)
Record ThreadLocalState : Type := mkThreadLocalState {
  trace_state : TraceState;
  dynamic_trace_state : MainTrace Any
}.

(** A computation on the thread-local state that may raise; the state an
    exception leaves behind is kept. *)
Definition M (A : Type) : Type := ThreadLocalState -> result A * ThreadLocalState.

Definition set_trace_stack (s : TraceStack Any) (tls : ThreadLocalState)
  : ThreadLocalState :=
  {| trace_state := {| trace_stack := s;
                       substack := substack (trace_state tls);
                       axis_env := axis_env (trace_state tls) |};
     dynamic_trace_state := dynamic_trace_state tls |}.

Definition set_substack (s : list Z) (tls : ThreadLocalState)
  : ThreadLocalState :=
  {| trace_state := {| trace_stack := trace_stack (trace_state tls);
                       substack := s;
                       axis_env := axis_env (trace_state tls) |};
     dynamic_trace_state := dynamic_trace_state tls |}.

Definition set_axis_env (env : list AxisEnvFrame) (tls : ThreadLocalState)
  : ThreadLocalState :=
  {| trace_state := {| trace_stack := trace_stack (trace_state tls);
                       substack := substack (trace_state tls);
                       axis_env := env |};
     dynamic_trace_state := dynamic_trace_state tls |}.

(** [stack.dynamic = main]. *)
Definition set_dynamic (main : MainTrace Any) (s : TraceStack Any)
  : TraceStack Any :=
  {| stack := stack s; dynamic := main |}.

Definition _update_thread_local_jit_state (dyn : MainTrace Any)
    (tls : ThreadLocalState) : ThreadLocalState :=
  let copy := mkMainTrace (level dyn) (trace_type dyn) (payload dyn) in
  {| trace_state := trace_state tls; dynamic_trace_state := copy |}.

(** [ThreadLocalState.__init__]. *)
Definition ThreadLocalState_init : ThreadLocalState :=
  _update_thread_local_jit_state
    (dynamic (trace_stack TraceState_init))
    {| trace_state := TraceState_init;
       dynamic_trace_state := dynamic (trace_stack TraceState_init) |}.

(** [m == MainTrace(0, EvalTrace)]: the payload of the right-hand side is the
    empty dictionary. *)
Definition is_eval_main (m : MainTrace Any) : bool :=
  (level m =? 0) && bool_decide (trace_type m = EvalTrace)
  && bool_decide (payload m = ∅).

Definition trace_state_clean (tls : ThreadLocalState) : bool :=
  let trace_state := trace_state tls in
  bool_decide (substack trace_state = [0])
  && match axis_env trace_state with [] => true | _ => false end
  && match stack (trace_stack trace_state) with
     | [m] => is_eval_main m
     | _ => false
     end
  && is_eval_main (dynamic (trace_stack trace_state)).

(** [reset_trace_state]: [TraceState.__init__] does not tell the configuration
    module. *)
Definition reset_trace_state (tls : ThreadLocalState)
  : bool * ThreadLocalState :=
  if negb (trace_state_clean tls)
  then (false, {| trace_state := TraceState_init;
                  dynamic_trace_state := dynamic_trace_state tls |})
  else (true, tls).

(** [cur_sublevel]: [substack[-1]]. *)
Definition cur_sublevel (tls : ThreadLocalState) : result Z :=
  match substack (trace_state tls) with
  | [] => Raise IndexError
  | s => Ok (List.last s 0)
  end.

(** The context managers. [with cm(...) as x: body] is [cm ... body]: the
    body runs on the state the manager has set up, and the [finally] clause
    runs on the state the body leaves, whether the body returned or raised; an
    exception of the [finally] clause replaces the outcome of the body. The
    managers keep a reference to the [TraceStack] object: a body may change
    that object, but is taken not to put another one in its place, which only
    [reset_trace_state] does. [config.jax_check_tracer_leaks] is off, as by
    default. *)
Definition new_main {A : Type} (trace_type : TraceType) (is_dynamic : bool)
    (payload : gmap string Any) (body : MainTrace Any -> M A) : M A :=
  fun tls =>
    let stack := trace_stack (trace_state tls) in
    let level := next_level stack in
    let main := mkMainTrace level trace_type payload in
    let prev_dynamic := dynamic stack in
    let tls := set_trace_stack (push stack main) tls in
    let tls :=
      if is_dynamic
      then _update_thread_local_jit_state main
             (set_trace_stack (set_dynamic main (trace_stack (trace_state tls)))
                              tls)
      else tls in
    let '(r, tls) := body main tls in
    match pop (trace_stack (trace_state tls)) with
    | Raise e => (Raise e, tls)
    | Ok s =>
        let tls := set_trace_stack s tls in
        let tls :=
          if is_dynamic
          then _update_thread_local_jit_state prev_dynamic
                 (set_trace_stack
                    (set_dynamic prev_dynamic (trace_stack (trace_state tls)))
                    tls)
          else tls in
        (r, tls)
    end.

(** [stack.stack[0] = main]. *)
Definition set_base (main : MainTrace Any) (s : TraceStack Any)
  : result (TraceStack Any) :=
  match stack s with
  | [] => Raise IndexError
  | _ :: rest => Ok {| stack := main :: rest; dynamic := dynamic s |}
  end.

Definition new_base_main {A : Type} (trace_type : TraceType)
    (body : MainTrace Any -> M A) : M A :=
  fun tls =>
    let stack0 := trace_stack (trace_state tls) in
    let main := mkMainTrace 0 trace_type ∅ in
    let prev_dynamic := dynamic stack0 in
    let tls := set_trace_stack (set_dynamic main stack0) tls in
    match stack stack0 with
    | [] => (Raise IndexError, tls)
    | prev_base :: _ =>
        match set_base main (trace_stack (trace_state tls)) with
        | Raise e => (Raise e, tls)
        | Ok s =>
            let tls := _update_thread_local_jit_state main
                         (set_trace_stack s tls) in
            let '(r, tls) := body main tls in
            let tls :=
              set_trace_stack
                (set_dynamic prev_dynamic (trace_stack (trace_state tls)))
                tls in
            match set_base prev_base (trace_stack (trace_state tls)) with
            | Raise e => (Raise e, tls)
            | Ok s =>
                (r, _update_thread_local_jit_state prev_dynamic
                      (set_trace_stack s tls))
            end
        end
    end.

(** [l.pop()] on a list. *)
Definition list_pop {B : Type} (l : list B) : result (list B) :=
  match l with
  | [] => Raise IndexError
  | _ :: _ => Ok (removelast l)
  end.

Definition new_sublevel {A : Type} (body : M A) : M A :=
  fun tls =>
    let sublevel := Z.of_nat (length (substack (trace_state tls))) in
    let tls := set_substack (substack (trace_state tls) ++ [sublevel]) tls in
    let '(r, tls) := body tls in
    match list_pop (substack (trace_state tls)) with
    | Raise e => (Raise e, tls)
    | Ok s => (r, set_substack s tls)
    end.

Definition extend_axis_env {A : Type} (axis_name : AxisName) (size : Z)
    (tag : option (MainTrace Any)) (body : M A) : M A :=
  fun tls =>
    let frame := mkAxisEnvFrame axis_name size tag in
    let tls := set_axis_env (axis_env (trace_state tls) ++ [frame]) tls in
    let '(r, tls) := body tls in
    match list_pop (axis_env (trace_state tls)) with
    | Raise e => (Raise e, tls)
    | Ok env => (r, set_axis_env env tls)
    end.

(** The [finally] clause of [extend_axis_env_nd]: one [pop] for each frame. *)
Fixpoint pop_frames {B : Type} (frames : list B) (tls : ThreadLocalState)
  : result unit * ThreadLocalState :=
  match frames with
  | [] => (Ok tt, tls)
  | _ :: rest =>
      match list_pop (axis_env (trace_state tls)) with
      | Raise e => (Raise e, tls)
      | Ok env => pop_frames rest (set_axis_env env tls)
      end
  end.

Definition extend_axis_env_nd {A : Type} (axes : list (AxisName * Z))
    (body : M A) : M A :=
  fun tls =>
    let frames :=
      List.map (fun '(axis_name, size) => mkAxisEnvFrame axis_name size None)
               axes in
    let tls := set_axis_env (axis_env (trace_state tls) ++ frames) tls in
    let '(r, tls) := body tls in
    match pop_frames frames tls with
    | (Raise e, tls) => (Raise e, tls)
    | (Ok _, tls) => (r, tls)
    end.

(** [axis_frame]: the innermost frame of that name. *)
Definition axis_frame (axis_name : AxisName) (tls : ThreadLocalState)
  : lookup AxisEnvFrame :=
  let frames := axis_env (trace_state tls) in
  match List.find (fun frame => bool_decide (frame_name frame = axis_name))
                  (rev frames) with
  | Some frame => Found frame
  | None =>
      NameError
        (List.filter (fun name => negb (is_temp name))
                     (List.map frame_name (rev frames)))
  end.

(** ** Traces and tracers *)

(** [Trace.__init__] sets [level] to [main.level]. *)
Record Trace : Type := mkTrace {
  main : MainTrace Any;
  Trace_level : Z;
  sublevel : Z
}.

Definition Trace_init (main : MainTrace Any) (sublevel : Z) : Trace :=
  {| main := main; Trace_level := level main; sublevel := sublevel |}.

(** An argument of a primitive: a [Tracer], with its [_trace], or any other
    value. *)
Inductive Operand : Type :=
| Tracer (_trace : Trace)
| NotTracer.

(** [max(xs, default=None, key=key)]: the first of the greatest elements. *)
Definition py_max {B : Type} (key : B -> Z) (xs : list B) : option B :=
  match xs with
  | [] => None
  | x :: rest =>
      Some (fold_left (fun best y => if key y >? key best then y else best)
                      rest x)
  end.

(** [main.with_cur_sublevel()]; the trace classes pass [main] and the
    sublevel to [Trace.__init__]. *)
Definition with_cur_sublevel (self : MainTrace Any) (tls : ThreadLocalState)
  : result Trace :=
  let* s := cur_sublevel tls in
  Ok (Trace_init self s).

(** [find_top_trace]; [Tracer._assert_live] does nothing. *)
Definition find_top_trace (xs : list Operand) (tls : ThreadLocalState)
  : result Trace :=
  let top_tracer :=
    py_max Trace_level
           (omap (fun x => match x with Tracer t => Some t | NotTracer => None end)
                 xs) in
  let top_main :=
    match top_tracer with
    | Some t => Some (main t)
    | None => None
    end in
  let dynamic := dynamic (trace_stack (trace_state tls)) in
  let top_main :=
    match top_main with
    | None => dynamic
    | Some m => if level dynamic >? level m then dynamic else m
    end in
  with_cur_sublevel top_main tls.

End TraceState.

Arguments AxisEnvFrame : clear implicits.
Arguments TraceState : clear implicits.
Arguments ThreadLocalState : clear implicits.
Arguments M : clear implicits.
Arguments Trace : clear implicits.
Arguments Operand : clear implicits.

(** ** Variables and their names *)

(** [chr(i)], for a code point below 256. *)
Definition chr (i : Z) : ascii := ascii_of_N (Z.to_N i).

(** The loop of [_encode_digits_alphabetic]; [//] and [%] round towards
    minus infinity, as [Z.div] and [Z.modulo] do. [None]: the fuel is
    used up. *)
Fixpoint _encode_digits_alphabetic_loop (fuel : nat) (s : string) (n : Z)
  : option string :=
  match fuel with
  | O => None
  | S fuel' =>
      if (String.length s =? 0)%nat || negb (n =? 0) then
        let i := n mod 26 in
        let n := n / 26 in
        _encode_digits_alphabetic_loop fuel' (String (chr (97 + i mod 26)) s) n
      else Some s
  end.

Definition _encode_digits_alphabetic (fuel : nat) (n : Z) : option string :=
  _encode_digits_alphabetic_loop fuel EmptyString n.

Section Vars.

Variable canonicalize_dtype : dtype -> dtype.

(** The values of literals and the parameters of equations, Python objects
    that the functions below do not look into. *)
Context {Val Params : Type}.

(** A [Var]; [Var.__init__] raises the abstract value to the shaped level. *)
Record Var : Type := mkVar {
  count : Z;
  suffix : string;
  aval : AbstractValue
}.

Definition Var_init (count : Z) (suffix : string) (aval : AbstractValue)
  : result Var :=
  let* aval := raise_to_shaped canonicalize_dtype aval None in
  Ok (mkVar count suffix aval).

(** [repr(v)]. *)
Definition Var_repr (fuel : nat) (v : Var) : option string :=
  match _encode_digits_alphabetic fuel (count v) with
  | Some s => Some (s ++ suffix v)%string
  | None => None
  end.

(** An atom is a [Var] or a [Literal]. *)
Inductive Atom : Type :=
| AtomVar (v : Var)
| Literal (val : Val) (Literal_aval : AbstractValue).

(** A primitive is given by its name; the source information of an equation
    is left out. *)
Record JaxprEqn : Type := mkJaxprEqn {
  eqn_invars : list Atom;
  eqn_outvars : list Var;
  primitive : string;
  params : Params
}.

Record Jaxpr : Type := mkJaxpr {
  constvars : list Var;
  invars : list Var;
  outvars : list Atom;
  eqns : list JaxprEqn
}.

(** [_jaxpr_vars]. *)
Definition _jaxpr_vars (jaxpr : Jaxpr) : list Var :=
  (invars jaxpr ++ constvars jaxpr
   ++ flat_map eqn_outvars (eqns jaxpr))%list.

(** [max(xs, default=default)] on ints. *)
Definition max_default (default : Z) (xs : list Z) : Z :=
  match xs with
  | [] => default
  | x :: rest => fold_left Z.max rest x
  end.

(** The first count of [gensym(jaxprs, suffix)]. *)
Definition gensym_start (jaxprs : option (list Jaxpr)) : Z :=
  match jaxprs with
  | None => 0
  | Some jaxprs =>
      let all_vars := flat_map _jaxpr_vars jaxprs in
      1 + max_default (-1) (List.map count all_vars)
  end.

(** One call of the function that [gensym] returns: [counter] is the next
    value of [it.count(start)]. [next(counter)] is evaluated before
    [Var.__init__] runs, so the counter moves even when that raises. *)
Definition gensym_call (suffix : string) (counter : Z) (aval : AbstractValue)
  : result Var * Z :=
  (Var_init counter suffix aval, counter + 1).

(** The calls of one [gensym] function on the abstract values [avals], in
    order. *)
Fixpoint gensym_calls (suffix : string) (counter : Z)
    (avals : list AbstractValue) : list (result Var) :=
  match avals with
  | [] => []
  | aval :: rest =>
      let '(v, counter) := gensym_call suffix counter aval in
      v :: gensym_calls suffix counter rest
  end.

End Vars.

Arguments Atom : clear implicits.
Arguments JaxprEqn : clear implicits.
Arguments Jaxpr : clear implicits.

End Core.

(** * jax/interpreters/partial_eval.py *)

Module PartialEval.
Import Core.

(** The Python values a [PartialVal] can hold: [None], the [unit] and [token]
    singletons, arrays, tracers (with their abstract value), the symbolic
    [Zero] of ad_util, objects with a [__jax_array__] method (with the value
    it returns), and other Python objects. *)
Inductive Value : Type :=
| PyNone
| PyUnit
| PyToken
| PyArray (dt : dtype) (val : ndarray) (weak_type : bool)
| PyTracer (aval : AbstractValue)
| PyZero (aval : AbstractValue)
| PyJaxArray (inner : Value)
| PyObject (name : string).

Definition is_none (v : Value) : bool :=
  match v with PyNone => true | _ => false end.

Definition is_tracer (v : Value) : bool :=
  match v with PyTracer _ => true | _ => false end.

Definition is_zero (v : Value) : bool :=
  match v with PyZero _ => true | _ => false end.

Section PartialVal.

Variable cfg : Config.

(** The handlers that other modules register in [pytype_aval_mappings];
    core.py itself registers [Unit] and [Token]. *)
Variable registered_aval : Value -> option AbstractValue.

(** [core.concrete_aval]. *)
Fixpoint concrete_aval (x : Value) : result AbstractValue :=
  match x with
  | PyUnit => Ok AbstractUnit
  | PyToken => Ok AbstractToken
  | _ =>
      match registered_aval x with
      | Some aval => Ok aval
      | None =>
          match x with
          | PyJaxArray inner => concrete_aval inner
          | _ => Raise TypeError
          end
      end
  end.

(** [core.get_aval]. *)
Definition get_aval (x : Value) : result AbstractValue :=
  match x with
  | PyTracer aval => Ok aval
  | _ => concrete_aval x
  end.

(** [core.valid_jaxtype]. *)
Definition valid_jaxtype (x : Value) : bool :=
  match concrete_aval x with
  | Ok _ => true
  | Raise _ => false
  end.

(** A [PartialVal] is the pair [(aval_opt, const)]. *)
Definition PartialVal : Type := option AbstractValue * Value.

(** [PartialVal.__new__]. *)
Definition PartialVal_new (xs : option AbstractValue * Value)
  : result PartialVal :=
  let '(pv, const) := xs in
  let* _ :=
    (if jax_enable_checks cfg then
       let* _ := py_assert (is_tracer const || is_zero const
                            || valid_jaxtype const) in
       match pv with
       | Some _ =>
           let* a := get_aval const in py_assert (py_eq a AbstractUnit)
       | None => Ok tt
       end
     else Ok tt) in
  Ok xs.

Definition known (const : Value) : result PartialVal :=
  PartialVal_new (None, const).

Definition unknown (aval : AbstractValue) : result PartialVal :=
  PartialVal_new (Some aval, PyUnit).

Definition is_known (self : PartialVal) : bool :=
  match self.1 with None => true | Some _ => false end.

Definition get_known (self : PartialVal) : Value :=
  match self.1 with None => self.2 | Some _ => PyNone end.

(** [PartialVal.get_aval]: [self[0]] may itself be [None]. *)
Definition PartialVal_get_aval (self : PartialVal)
  : result (option AbstractValue) :=
  let known := get_known self in
  if negb (is_none known) then
    let* a := get_aval known in Ok (Some a)
  else Ok self.1.

Definition merge_with_known (self : PartialVal) (val : Value) : Value :=
  let known := get_known self in
  if negb (is_none known) then known else val.

End PartialVal.

(** ** Splitting and merging lists by flags *)

(** What ends a call that does not return: an exception of [exn], or the
    [StopIteration] of [next]. *)
Inductive raised : Set :=
| Exn (e : exn)
| StopIteration.

Inductive outcome (A : Type) : Type :=
| Returns (a : A)
| Raises (r : raised).

Arguments Returns {A} a.
Arguments Raises {A} r.

Section Lists.

(** [zip] is [safe_zip] of [jax._src.util], which is not among the sources.
    The theorems say what they take it to do. *)
Variable zip : forall A B : Type, list A -> list B -> result (list (A * B)).

(** [[e for e, flag in pairs if flag == keep]]. *)
Definition select {A : Type} (keep : bool) (pairs : list (A * bool))
  : list A :=
  List.map fst (List.filter (fun p => Bool.eqb p.2 keep) pairs).

Definition _partition_knowns {A : Type} (pvals : list A)
    (unknowns : list bool) : result (list A * list A) :=
  let* known := (let* pairs := zip A bool pvals unknowns in
                 Ok (select false pairs)) in
  let* unknown := (let* pairs := zip A bool pvals unknowns in
                   Ok (select true pairs)) in
  Ok (known, unknown).

(** The list comprehension of [_zip_knowns]: the two iterators are the lists
    of the elements still to come. *)
Fixpoint _zip_knowns_loop {A : Type} (known_iter unknown_iter : list A)
    (which_unknown : list bool) : outcome (list A) :=
  match which_unknown with
  | [] => Returns []
  | uk :: rest =>
      if uk then
        match unknown_iter with
        | [] => Raises StopIteration
        | x :: unknown_iter =>
            match _zip_knowns_loop known_iter unknown_iter rest with
            | Returns l => Returns (x :: l)
            | Raises r => Raises r
            end
        end
      else
        match known_iter with
        | [] => Raises StopIteration
        | x :: known_iter =>
            match _zip_knowns_loop known_iter unknown_iter rest with
            | Returns l => Returns (x :: l)
            | Raises r => Raises r
            end
        end
  end.

Definition _zip_knowns {A : Type} (known_list unknown_list : list A)
    (which_unknown : list bool) : outcome (list A) :=
  if (length known_list + length unknown_list =? length which_unknown)%nat
  then _zip_knowns_loop known_list unknown_list which_unknown
  else Raises (Exn AssertionError).

Definition _move_to_front {A : Type} (lst : list A) (to_move : list bool)
  : result (list A) :=
  let* moved := (let* pairs := zip A bool lst to_move in
                 Ok (select true pairs)) in
  let* kept := (let* pairs := zip A bool lst to_move in
                Ok (select false pairs)) in
  Ok (moved ++ kept)%list.

(** ** Closed jaxprs *)

Context {Val Params Const : Type}.

Record ClosedJaxpr : Type := mkClosedJaxpr {
  jaxpr : Jaxpr Val Params;
  consts : list Const
}.

(** [ClosedJaxpr.__init__]. *)
Definition ClosedJaxpr_init (jaxpr : Jaxpr Val Params) (consts : list Const)
  : result ClosedJaxpr :=
  let* _ := py_assert (length consts =? length (constvars jaxpr))%nat in
  Ok (mkClosedJaxpr jaxpr consts).

(** [closed_jaxpr.in_avals]. *)
Definition in_avals (self : ClosedJaxpr) : list AbstractValue :=
  List.map aval (invars (jaxpr self)).

Definition move_binders_to_front (closed_jaxpr : ClosedJaxpr)
    (to_move : list bool) : result ClosedJaxpr :=
  let* _ := py_assert (match constvars (jaxpr closed_jaxpr) with
                       | [] => true
                       | _ => false
                       end) in
  let* _ := py_assert (length (in_avals closed_jaxpr) =? length to_move)%nat in
  let* new_invars := _move_to_front (invars (jaxpr closed_jaxpr)) to_move in
  let new_jaxpr := mkJaxpr [] new_invars (outvars (jaxpr closed_jaxpr))
                           (eqns (jaxpr closed_jaxpr)) in
  ClosedJaxpr_init new_jaxpr (consts closed_jaxpr).

End Lists.

Arguments ClosedJaxpr : clear implicits.

End PartialEval.

(** * jax/_src/lax/control_flow.py *)

Module ControlFlow.

(** A computation that loops: [None] when the fuel given to the loop ran out
    before the loop ended, otherwise what a terminating run returns or
    raises. *)
Definition comp (A : Type) : Type := option (result A).

Definition ret {A : Type} (a : A) : comp A := Some (Ok a).

Definition throw {A : Type} (e : exn) : comp A := Some (Raise e).

Definition cbind {A B : Type} (m : comp A) (k : A -> comp B) : comp B :=
  match m with
  | Some (Ok a) => k a
  | Some (Raise e) => Some (Raise e)
  | None => None
  end.

Definition lift {A : Type} (r : result A) : comp A := Some r.

(** ** Machine integers *)

(** The values of an integer dtype, as a half-open interval. *)
Definition int_bounds (dt : dtype) : option (Z * Z) :=
  match dt with
  | int8 => Some (- 2 ^ 7, 2 ^ 7)
  | int16 => Some (- 2 ^ 15, 2 ^ 15)
  | int32 => Some (- 2 ^ 31, 2 ^ 31)
  | int64 => Some (- 2 ^ 63, 2 ^ 63)
  | uint8 => Some (0, 2 ^ 8)
  | uint16 => Some (0, 2 ^ 16)
  | uint32 => Some (0, 2 ^ 32)
  | uint64 => Some (0, 2 ^ 64)
  | _ => None
  end.

Definition in_range (dt : dtype) (z : Z) : bool :=
  match int_bounds dt with
  | Some (lo, hi) => (lo <=? z) && (z <? hi)
  | None => false
  end.

(** The result of an integer operation of dtype [dt]: it wraps around. *)
Definition wrap (dt : dtype) (z : Z) : Z :=
  match int_bounds dt with
  | Some (lo, hi) => lo + (z - lo) mod (hi - lo)
  | None => z
  end.

(** A Python int that becomes an array of dtype [dt]. *)
Definition to_device (dt : dtype) (z : Z) : result Z :=
  if in_range dt z then Ok z else Raise OverflowError.

(** [range(lo, hi)]. *)
Definition range (lo hi : Z) : list Z :=
  List.map (fun k => lo + Z.of_nat k) (seq 0 (Z.to_nat (hi - lo))).

(** A scalar integer argument of [fori_loop]: its dtype, its value, and whether
    its abstract value is a [ConcreteArray] (a Python or NumPy integer, a
    device array) or not (a tracer of a staged computation). *)
Record IntValue : Set := {
  iv_dtype : dtype;
  iv_value : Z;
  iv_concrete : bool
}.

(** [int(x)], which [ConcreteArray._int] forwards to the value; it raises
    [ConcretizationTypeError], a [TypeError], on an abstract tracer. *)
Definition py_int (x : IntValue) : result Z :=
  if iv_concrete x then Ok (iv_value x) else Raise TypeError.

Section Loops.

Variable cfg : Config.

(** [dtypes.canonicalize_dtype], and the canonical dtype of a Python int
    ([int32], or [int64] when 64-bit types are enabled). *)
Variable canonicalize_dtype : dtype -> dtype.
Variable int_dtype : dtype.

(** ** while_loop *)

(** The loop that the docstring of [while_loop] gives as its semantics:
    [val = init_val; while cond_fun(val): val = body_fun(val); return val].
    It is the code run under [jax_disable_jit], and the meaning of the While
    HLO that [while_p] is lowered to otherwise. *)
Fixpoint run_while {T : Type} (fuel : nat) (cond_fun : T -> bool)
    (body_fun : T -> T) (val : T) : comp T :=
  match fuel with
  | O => None
  | S fuel' =>
      if cond_fun val then run_while fuel' cond_fun body_fun (body_fun val)
      else ret val
  end.

(** Modelled from the spec: [while_p.bind], a primitive lowered to the While
    operation of the backend, outside the sources; it runs the loop above. *)
Definition while_p_bind {T : Type} (fuel : nat) (cond_fun : T -> bool)
    (body_fun : T -> T) (init_val : T) : comp T :=
  run_while fuel cond_fun body_fun init_val.

Definition while_loop {T : Type} (fuel : nat) (cond_fun : T -> bool)
    (body_fun : T -> T) (init_val : T) : comp T :=
  if jax_disable_jit cfg then run_while fuel cond_fun body_fun init_val
  else while_p_bind fuel cond_fun body_fun init_val.

(** ** scan, for [xs=None] and a given [length] *)

Section Scan.

Context {C Y : Type}.

(** [_empty_array]: the initial content of an output slot. *)
Variable empty_array : Y.

(** [_scan_impl_loop], which [scan_p] is lowered through ([unroll=1],
    [reverse=False]): a [while_loop] over a counter of the dtype of
    [length]. *)
Definition _scan_impl_loop (fuel : nat) (f_impl : C -> unit -> C * Y)
    (init : C) (length : Z) : comp (C * list Y) :=
  let cond_fun (vals : Z * C * list Y) := vals.1.1 <? length in
  let body_fun (vals : Z * C * list Y) :=
    let '(i, carry, ys) := vals in
    let '(carry_out, y_update) := f_impl carry tt in
    (wrap int_dtype (i + 1), carry_out, <[Z.to_nat i := y_update]> ys) in
  let ys_init := replicate (Z.to_nat length) empty_array in
  if length =? 0 then ret (init, ys_init)
  else
    cbind (lift (to_device int_dtype length)) (fun _ =>
    cbind (while_loop fuel cond_fun body_fun (0, init, ys_init))
          (fun outs => ret (outs.1.2, outs.2))).

(** [scan_p.bind]: the primitive is lowered through [_scan_impl], which
    calls [_scan_impl_loop] for [unroll=1]. *)
Definition scan_p_bind (fuel : nat) (f : C -> unit -> C * Y) (init : C)
    (length : Z) : comp (C * list Y) :=
  _scan_impl_loop fuel f init length.

(** [scan(f, init, None, length=length)]: no array is scanned over, so
    every check on the leading axis sizes passes. *)
Definition scan (fuel : nat) (f : C -> unit -> C * Y) (init : C)
    (length : Z) : comp (C * list Y) :=
  if jax_disable_jit cfg then
    if length =? 0 then throw ValueError
    else
      let '(carry, ys) :=
        fold_left (fun (st : C * list Y) (_ : Z) =>
                     let '(carry, y) := f st.1 tt in (carry, st.2 ++ [y]))
                  (range 0 length) (init, []) in
      match ys with
      | [] => throw TypeError
      | _ :: _ => ret (carry, ys)
      end
  else scan_p_bind fuel f init length.

End Scan.

(** ** fori_loop *)

Section ForiLoop.

Context {A : Type}.

Definition _fori_cond_fun (loop_carry : Z * Z * A) : bool :=
  let '(i, upper, _) := loop_carry in i <? upper.

(** [lax.add(i, lax._const(i, 1))] is an addition of the dtype of [i]. *)
Definition _fori_body_fun (dt : dtype) (body_fun : Z -> A -> A)
    (loop_carry : Z * Z * A) : Z * Z * A :=
  let '(i, upper, x) := loop_carry in
  (wrap dt (i + 1), upper, body_fun i x).

(** [i + 1] adds Python ints when the scan runs as a Python loop, and
    staged integers of the dtype of a Python int otherwise. *)
Definition _fori_scan_body_fun (body_fun : Z -> A -> A)
    (loop_carry : Z * A) (_ : unit) : (Z * A) * unit :=
  let '(i, x) := loop_carry in
  ((if jax_disable_jit cfg then i + 1 else wrap int_dtype (i + 1),
    body_fun i x), tt).

Definition fori_loop (fuel : nat) (lower upper : IntValue)
    (body_fun : Z -> A -> A) (init_val : A) : comp A :=
  let lower_dtype := canonicalize_dtype (iv_dtype lower) in
  let upper_dtype := canonicalize_dtype (iv_dtype upper) in
  if negb (bool_decide (lower_dtype = upper_dtype)) then throw TypeError
  else
    let use_scan :=
      if iv_concrete lower && iv_concrete upper then
        match py_int lower, py_int upper with
        | Ok lower_, Ok upper_ => Some (lower_, upper_)
        | _, _ => None
        end
      else None in
    match use_scan with
    | Some (lower_, upper_) =>
        if jax_disable_jit cfg && (upper_ =? lower_) then ret init_val
        else
          cbind (if jax_disable_jit cfg then ret lower_
                 else lift (to_device int_dtype lower_)) (fun i0 =>
          cbind (scan tt fuel (_fori_scan_body_fun body_fun)
                      (i0, init_val) (upper_ - lower_))
                (fun out => ret out.1.2))
    | None =>
        cbind (while_loop fuel _fori_cond_fun
                          (_fori_body_fun lower_dtype body_fun)
                          (iv_value lower, iv_value upper, init_val))
              (fun out => ret out.2)
    end.


End ForiLoop.

End Loops.

(** ** Helpers of the conditionals *)

(** [_ordered_unique]: the keys of an [OrderedDict], which keeps a key at
    the place of its first insertion. *)
Definition _ordered_unique {A : Type} `{EqDecision A} (xs : list A) : list A :=
  fold_left (fun d x => if bool_decide (x ∈ d) then d else d ++ [x]) xs [].

(** ** Weakly typed loop inputs *)

Section Promote.

Import Core.

Variable canonicalize_dtype : dtype -> dtype.

(** The input values, Python objects. *)
Context {Val : Type}.

(** [zip] is [safe_zip] of [jax._src.util], and [dtypes.result_type] and
    [lax.convert_element_type] are functions of modules that are not among
    the sources either; the last two may raise. *)
Variable zip : forall A B : Type, list A -> list B -> result (list (A * B)).
Variable result_type : Val -> AbstractValue -> result dtype.
Variable convert_element_type : Val -> dtype -> result Val.

(** [getattr(a1, 'weak_type', False) and not core.typematch(a1, a2)]. *)
Definition weak_mismatch (a1 a2 : AbstractValue) : result bool :=
  if match get_weak_type a1 with Ok w => w | Raise _ => false end
  then let* m := typematch canonicalize_dtype a1 a2 in Ok (negb m)
  else Ok false.

(** The list comprehension over [enumerate(zip(in_avals, out_avals))], from
    index [i]. *)
Fixpoint weak_mismatches_from (i : nat)
    (pairs : list (AbstractValue * AbstractValue)) : result (list nat) :=
  match pairs with
  | [] => Ok []
  | (a1, a2) :: rest =>
      let* mismatch := weak_mismatch a1 a2 in
      let* found := weak_mismatches_from (S i) rest in
      Ok (if mismatch then i :: found else found)
  end.

(** One step of the loop over [weak_mismatches]. *)
Definition promote_at (out_avals : list AbstractValue) (in_vals : list Val)
    (i : nat) : result (list Val) :=
  match in_vals !! i, out_avals !! i with
  | Some v, Some a =>
      let* new_dtype := result_type v a in
      let* v' := convert_element_type v new_dtype in
      Ok (<[i := v']> in_vals)
  | _, _ => Raise IndexError
  end.

(** [_promote_weak_typed_inputs]; the list returned is the list [in_vals]
    itself, changed in place. *)
Definition _promote_weak_typed_inputs (in_vals : list Val)
    (in_avals out_avals : list AbstractValue) : result (list Val * bool) :=
  if negb (length in_vals =? length in_avals)%nat
     || negb (length in_avals =? length out_avals)%nat
  then Ok (in_vals, false)
  else
    let* pairs := zip _ _ in_avals out_avals in
    let* weak_mismatches := weak_mismatches_from 0 pairs in
    match weak_mismatches with
    | [] => Ok (in_vals, false)
    | _ :: _ =>
        let* in_vals :=
          fold_result (promote_at out_avals) weak_mismatches in_vals in
        Ok (in_vals, true)
    end.

End Promote.

End ControlFlow.

(** * jax/interpreters/batching.py *)

Module Batching.

(** The values [matchaxis] is applied to: the [unit] singleton, an array, or
    a Python object that is not a valid JAX type. *)
Inductive Value : Type :=
| Unit
| Array (x : ndarray)
| Other (name : string).

(** The name of a mapped axis; it only shows in error messages. *)
Inductive AxisName : Set :=
| no_axis_name
| TempAxisName (id : nat)
| Name (name : string).

(** ** Python lists and NumPy helpers *)

(** [l.insert(i, x)]: a negative [i] counts from the end, and an [i] past
    either end is clamped. *)
Definition list_insert_at {A : Type} (i : Z) (x : A) (l : list A) : list A :=
  let n := Z.of_nat (length l) in
  let i' := if i <? 0 then Z.max 0 (i + n) else Z.min i n in
  take (Z.to_nat i') l ++ x :: drop (Z.to_nat i') l.

(** The position of the first occurrence of [m] in [l]. *)
Fixpoint index_of (m : nat) (l : list nat) : nat :=
  match l with
  | [] => O
  | p :: rest => if (p =? m)%nat then O else S (index_of m rest)
  end.

(** [idx] is an index of an array of shape [shape]. *)
Definition valid_index (shape idx : list nat) : Prop :=
  Forall2 lt idx shape.

(** Two arrays are equal when they have one shape and the same element at
    every index. *)
Definition array_equal (a b : ndarray) : Prop :=
  nd_shape a = nd_shape b /\
  forall idx, valid_index (nd_shape a) idx -> nd_item a idx = nd_item b idx.

(** Modelled from the spec: the [transpose] method of an array, of the array
    library: axis [k] of [x.transpose(perm)] is axis [perm[k]] of [x]. *)
Definition transpose (x : ndarray) (perm : list nat) : ndarray :=
  {| nd_shape := List.map (fun p => nth p (nd_shape x) O) perm;
     nd_item := fun idx =>
       nd_item x (List.map (fun m => nth (index_of m perm) idx O)
                           (seq 0 (length perm))) |}.

(** Modelled from the spec: [jax.lax.broadcast_in_dim], which is not among
    the sources: axis [k] of [x] is axis [broadcast_dims[k]] of the result, and
    an axis of [x] of size 1 is repeated. *)
Definition broadcast_in_dim (x : ndarray) (shape broadcast_dims : list nat)
  : ndarray :=
  {| nd_shape := shape;
     nd_item := fun idx =>
       nd_item x (imap (fun k d => if (nth k (nd_shape x) O =? 1)%nat then O
                                   else nth d idx O)
                       broadcast_dims) |}.

(** Modelled from the spec: [canonicalize_axis] of [jax._src.util], which
    batching.py imports and which is not among the sources. An axis of an
    array of rank [num_dims] is an int in [-num_dims, num_dims), a negative
    one counting from the end. *)
Definition canonicalize_axis (axis num_dims : Z) : result Z :=
  if (- num_dims <=? axis) && (axis <? num_dims)
  then Ok (if axis <? 0 then axis + num_dims else axis)
  else Raise ValueError.

(** Modelled from the spec: the permutation of [moveaxis], for canonical
    axes: the axes other than [src] in their order, with [src] inserted at
    position [dst]. *)
Definition moveaxis_perm (ndim : nat) (src dst : Z) : list nat :=
  list_insert_at dst (Z.to_nat src)
                 (List.filter (fun i => negb (i =? Z.to_nat src)%nat)
                              (seq 0 ndim)).

(** Modelled from the spec: [moveaxis] of [jax._src.util], which batching.py
    imports and which is not among the sources: it moves axis [src] of [x] to
    position [dst] and keeps the other axes in their order. *)
Definition moveaxis (x : ndarray) (src dst : Z) : result ndarray :=
  if src =? dst then Ok x
  else
    let ndim := length (nd_shape x) in
    let* src := canonicalize_axis src (Z.of_nat ndim) in
    let* dst := canonicalize_axis dst (Z.of_nat ndim) in
    Ok (transpose x (moveaxis_perm ndim src dst)).

Section Matchaxis.

(** [x.sum(axis)], the reduction of the array library. *)
Variable array_sum : ndarray -> Z -> result ndarray.

(** [core.get_aval(x) is core.abstract_unit]; [get_aval] raises [TypeError]
    on a value that is not a valid JAX type. *)
Definition aval_is_unit (x : Value) : result bool :=
  match x with
  | Unit => Ok true
  | Array _ => Ok false
  | Other _ => Raise TypeError
  end.

Definition broadcast (x : Value) (sz : nat) (axis : Z) : result Value :=
  let* is_unit := aval_is_unit x in
  if is_unit then Ok Unit
  else
    match x with
    | Array a =>
        let shape := list_insert_at axis sz (nd_shape a) in
        let n := Z.of_nat (length shape) in
        if (- n <=? axis) && (axis <? n) then
          let axis' := Z.to_nat (if axis <? 0 then axis + n else axis) in
          let broadcast_dims :=
            List.filter (fun i => negb (i =? axis')%nat)
                        (seq 0 (length shape)) in
          Ok (Array (broadcast_in_dim a shape broadcast_dims))
        else Raise IndexError
    | _ => Raise TypeError
    end.

Definition matchaxis (axis_name : AxisName) (sz : nat) (src dst : option Z)
    (x : Value) (sum_match : bool) : result Value :=
  let* is_unit := aval_is_unit x in
  if is_unit then Ok Unit
  else if bool_decide (src = dst) then Ok x
  else
    match x with
    | Array a =>
        match src, dst with
        | Some s, Some d => let* r := moveaxis a s d in Ok (Array r)
        | None, Some d =>
            let* axis :=
              canonicalize_axis d (Z.of_nat (length (nd_shape a)) + 1) in
            broadcast x sz axis
        | Some s, None =>
            if sum_match then let* r := array_sum a s in Ok (Array r)
            else Raise ValueError
        | None, None => Raise ValueError
        end
    | _ => Raise TypeError
    end.

End Matchaxis.

(** ** The batching rule of reductions *)

(** [np.delete(np.arange(n), axes)]: an index may count from the end, and
    one out of bounds raises [IndexError]. *)
Definition np_delete_arange (n : nat) (axes : list Z) : result (list nat) :=
  let n' := Z.of_nat n in
  if forallb (fun a => (- n' <=? a) && (a <? n')) axes then
    Ok (List.filter
          (fun i => negb (existsb (fun a => Z.of_nat i
                                            =? (if a <? 0 then a + n' else a))
                                  axes))
          (seq 0 n))
  else Raise IndexError.

(** [l.index(x)], for a list of indices and an int [x]. *)
Fixpoint list_index (x : Z) (l : list nat) : result Z :=
  match l with
  | [] => Raise ValueError
  | y :: rest =>
      if Z.of_nat y =? x then Ok 0
      else let* i := list_index x rest in Ok (i + 1)
  end.

Section Reducer.

(** The results of primitives and the values of their parameters. *)
Context {Out Param : Type}.

(** [prim.bind(operand, axes=axes, **params)]. *)
Variable bind : ndarray -> list Z -> gmap string Param -> result Out.

(** A shape as the value of a parameter. *)
Variable shape_param : list nat -> Param.

Definition reducer_batcher (operand : ndarray) (bdim : Z) (axes : list Z)
    (params : gmap string Param) : result (Out * Z) :=
  let axes := List.map (fun a => if a <? bdim then a else a + 1) axes in
  let* remaining := np_delete_arange (length (nd_shape operand)) axes in
  let* bdim_out := list_index bdim remaining in
  let params :=
    match params !! "input_shape"%string with
    | Some _ => <["input_shape"%string := shape_param (nd_shape operand)]> params
    | None => params
    end in
  let* out := bind operand axes params in
  Ok (out, bdim_out).

End Reducer.

End Batching.

(** * pyth: Python values and document elements *)

Module Pyth.

(** The classes of the markup objects of pyth/plugins/python/reader.py, all
    subclasses of [_PythonBase]. *)
Inductive MarkupClass : Set := P | LE | L | T.

(** Modelled from the spec: the element classes of [pyth.document]
    ([Document], [Paragraph], [List], [ListEntry], [Text]), which are not
    among the sources. An element is a container that holds the properties and
    the content list it is built from. *)
Inductive ElementClass : Set := Document | Paragraph | List | ListEntry | Text.

Global Instance ElementClass_eq_dec : EqDecision ElementClass.
Proof. solve_decision. Defined.

#[local] Set Warnings "-register-all".

(** The Python values the plugins handle. A markup object and a document
    element are given by their class, their [properties] and their
    [content]. *)
Inductive pyval : Type :=
| VNone
| VBool (b : bool)
| VInt (z : Z)
| VStr (s : string)
| VTuple (items : list pyval)
| VList (items : list pyval)
| VMarkup (cls : MarkupClass) (properties : list (string * pyval))
          (content : list pyval)
| VElement (cls : ElementClass) (properties : list (string * pyval))
           (content : list pyval).

(** [x.content]. *)
Definition get_content (x : pyval) : result (list pyval) :=
  match x with
  | VMarkup _ _ content | VElement _ _ content => Ok content
  | _ => Raise AttributeError
  end.

(** [l[i]] on a Python list. *)
Definition py_index {A : Type} (l : list A) (i : Z) : result A :=
  let n := Z.of_nat (length l) in
  let i' := if i <? 0 then i + n else i in
  if (0 <=? i') && (i' <? n) then
    match nth_error l (Z.to_nat i') with
    | Some x => Ok x
    | None => Raise IndexError
    end
  else Raise IndexError.

End Pyth.

(** * pyth/plugins/plaintext/writer.py *)

Module Plaintext.
Import Pyth.

Local Open Scope string_scope.

(** ** Strings

    A [str] is modelled by a [string] of characters below 256. *)

(** The line boundaries of [str.splitlines] among these characters:
    LF, VT, FF, CR, FS, GS, RS and NEL. *)
Definition is_linebreak (c : ascii) : bool :=
  match nat_of_ascii c with
  | 10%nat | 11%nat | 12%nat | 13%nat | 28%nat | 29%nat | 30%nat | 133%nat => true
  | _ => false
  end.

(** [s.splitlines()]: CR LF is one boundary, and a final boundary does not
    open an empty last line. [cur] is the line being read. *)
Fixpoint splitlines_from (cur : string) (s : string) : list string :=
  match s with
  | EmptyString => if String.eqb cur "" then [] else [cur]
  | String c rest =>
      if is_linebreak c then
        match rest with
        | String c' rest' =>
            if (nat_of_ascii c =? 13)%nat && (nat_of_ascii c' =? 10)%nat
            then cur :: splitlines_from "" rest'
            else cur :: splitlines_from "" rest
        | EmptyString => [cur]
        end
      else splitlines_from (cur ++ String c "") rest
  end.

Definition splitlines (s : string) : list string := splitlines_from "" s.

(** [s * n]. *)
Definition str_repeat (s : string) (n : Z) : string :=
  String.concat "" (replicate (Z.to_nat n) s).

(** [sep.join(items)]; an item that is not a [str] raises [TypeError]. *)
Fixpoint strings_of (items : list pyval) : result (list string) :=
  match items with
  | [] => Ok []
  | VStr s :: rest => let* r := strings_of rest in Ok (s :: r)
  | _ :: _ => Raise TypeError
  end.

Definition str_join (sep : string) (items : list pyval) : result string :=
  let* l := strings_of items in Ok (String.concat sep l).

(** ** The target stream: [six.StringIO] *)

Record StringIO : Set := {
  buffer : string;
  position : nat
}.

Definition StringIO_new : StringIO := {| buffer := ""; position := 0 |}.

Definition str_take (n : nat) (s : string) : string := substring 0 n s.

Definition str_drop (n : nat) (s : string) : string :=
  substring n (String.length s - n) s.

(** [f.write(s)]: writes at the position, over what is there, after padding
    the buffer with null characters when the position is past its end. *)
Definition StringIO_write (f : StringIO) (s : string) : StringIO :=
  let padded :=
    buffer f
    ++ String.concat ""
         (replicate (position f - String.length (buffer f)) (String zero "")) in
  {| buffer := str_take (position f) padded ++ s
               ++ str_drop (position f + String.length s) padded;
     position := position f + String.length s |}.

(** [f.truncate()]: cuts the buffer at the position. *)
Definition StringIO_truncate (f : StringIO) : StringIO :=
  {| buffer := str_take (position f) (buffer f); position := position f |}.

Definition StringIO_seek (f : StringIO) (offset : nat) : StringIO :=
  {| buffer := buffer f; position := offset |}.

(** ** The writer *)

(** What the methods of a [PlaintextWriter] change: [self.target] and
    [self.indent]. *)
Record Writer : Set := {
  target : StringIO;
  indent : Z
}.

Section Writer.

(** [self.newline]. *)
Variable newline : string.

Definition write_target (w : Writer) (s : string) : Writer :=
  {| target := StringIO_write (target w) s; indent := indent w |}.

(** The loop over the lines of [PlaintextWriter.paragraph]. *)
Fixpoint write_lines (lines : list string) (prefix : string) (w : Writer)
  : Writer :=
  match lines with
  | [] => w
  | line :: rest =>
      let w1 := write_target w (str_repeat "  " (indent w)) in
      let w2 := write_target w1 prefix in
      let w3 := write_target w2 line in
      let w4 := write_target w3 newline in
      write_lines rest (if String.eqb prefix "" then prefix else "  ") w4
  end.

(** [PlaintextWriter.paragraph], on the content of the paragraph. *)
Definition paragraph (content : list pyval) (prefix : string) (w : Writer)
  : result Writer :=
  let* texts :=
    fold_result (fun acc text =>
                   let* c := get_content text in
                   let* s := str_join "" c in
                   Ok (acc ++ [s])%list)
                content ([] : list string) in
  let content := String.concat "" texts in
  Ok (write_lines (splitlines content) prefix w).

(** [self.paragraphDispatch[paragraph.__class__](paragraph, prefix)], with
    [PlaintextWriter.list] for a [List]; a class without a handler raises
    [KeyError]. *)
Fixpoint handler (node : pyval) (prefix : string) (w : Writer) {struct node}
  : result Writer :=
  match node with
  | VElement Paragraph _ content => paragraph content prefix w
  | VElement List _ entries =>
      let w1 := {| target := target w; indent := indent w + 1 |} in
      let* w2 :=
        (fix entries_loop (es : list pyval) (w : Writer) : result Writer :=
           match es with
           | [] => Ok w
           | VMarkup _ _ pars :: es' | VElement _ _ pars :: es' =>
               let* w' :=
                 (fix pars_loop (ps : list pyval) (j : nat) (w : Writer)
                    : result Writer :=
                    match ps with
                    | [] => Ok w
                    | p :: ps' =>
                        let prefix := if (j =? 0)%nat then "* " else "  " in
                        let* w' := handler p prefix w in
                        pars_loop ps' (S j) w'
                    end) pars O w in
               entries_loop es' w'
           | _ :: _ => Raise AttributeError
           end) entries w1 in
      Ok {| target := target w2; indent := indent w2 - 1 |}
  | _ => Raise KeyError
  end.

(** The loop of [PlaintextWriter.go], from index [i]. *)
Fixpoint go_loop (np : nat) (i : nat) (content : list pyval) (w : Writer)
  : result Writer :=
  match content with
  | [] => Ok w
  | par :: rest =>
      let* w1 := handler par "" w in
      let w2 := if (Z.of_nat i <? Z.of_nat np - 1)%Z
                then write_target w1 newline else w1 in
      go_loop np (S i) rest w2
  end.

Definition go (document : pyval) (w : Writer) : result StringIO :=
  let* content := get_content document in
  let np := length content in
  let* w' := go_loop np O content w in
  Ok (StringIO_seek (StringIO_truncate (target w')) 0).

(** [PlaintextWriter.write]; a new writer has [indent = -1]. *)
Definition write (document : pyval) (target : option StringIO)
  : result StringIO :=
  let target := default StringIO_new target in
  go document {| target := target; indent := -1 |}.

End Writer.

End Plaintext.

(** * pyth/plugins/python/reader.py *)

Module PythonMarkup.
Import Pyth.

(** [cls.pythType]. *)
Definition pythType (cls : MarkupClass) : ElementClass :=
  match cls with
  | P => Paragraph
  | LE => ListEntry
  | L => List
  | T => Text
  end.

(** [self.toPyth()] on a markup object: [_PythonBase.toPyth] for [P], [LE]
    and [L], which converts the content with [_convert], and the override
    [T.toPyth], which passes [self.content] on as it is. *)
Fixpoint toPyth (self : pyval) : pyval :=
  match self with
  | VMarkup T properties content => VElement Text properties content
  | VMarkup cls properties content =>
      VElement (pythType cls) properties
               (List.map (fun c => match c with
                                   | VMarkup _ _ _ => toPyth c
                                   | _ => c
                                   end) content)
  | _ => self
  end.

(** [_convert]: [isinstance(content, _PythonBase)] holds of the markup
    objects. *)
Definition _convert (content : pyval) : pyval :=
  match content with
  | VMarkup _ _ _ => toPyth content
  | _ => content
  end.

(** [PythonReader.read]. *)
Definition read (source : list pyval) : pyval :=
  VElement Document [] (List.map _convert source).

(** [dict.update] with one key, on properties kept in insertion order. *)
Fixpoint dict_set (key : string) (value : pyval)
    (d : list (string * pyval)) : list (string * pyval) :=
  match d with
  | [] => [(key, value)]
  | (k, v) :: rest =>
      if String.eqb k key then (k, value) :: rest
      else (k, v) :: dict_set key value rest
  end.

(** [_PythonBase.__init__], from the shortcuts and the keyword properties; a
    shortcut is given by its key, and [asDict] maps the key to [True]. *)
Definition _PythonBase_init (cls : MarkupClass) (shortcuts : list string)
    (properties : list (string * pyval)) : pyval :=
  VMarkup cls
          (fold_left (fun d key => dict_set key (VBool true) d)
                     shortcuts properties)
          [].

(** What [__getitem__] returns: [self], or an element of the content. *)
Inductive Returned : Type :=
| RetSelf
| RetValue (v : pyval).

(** [_PythonBase.__getitem__], on the content of [self]: the new content and
    what is returned. A [bool] is an [int]. *)
Fixpoint __getitem__ (content : list pyval) (item : pyval) {struct item}
  : result (list pyval * Returned) :=
  let each :=
    fix each (items : list pyval) (content : list pyval)
      : result (list pyval) :=
      match items with
      | [] => Ok content
      | i :: rest =>
          let* r := __getitem__ content i in each rest r.1
      end in
  match item with
  | VTuple items | VList items =>
      let* content' := each items content in Ok (content', RetSelf)
  | VInt z =>
      let* v := py_index content z in Ok (content, RetValue v)
  | VBool b =>
      let* v := py_index content (if b then 1 else 0) in
      Ok (content, RetValue v)
  | _ => Ok (content ++ [item], RetSelf)
  end.

(** [self[item]] on a markup object: the object afterwards, and the value of
    the expression. *)
Definition getitem (self : pyval) (item : pyval) : result (pyval * pyval) :=
  match self with
  | VMarkup cls properties content =>
      let* r := __getitem__ content item in
      let self' := VMarkup cls properties r.1 in
      Ok (self', match r.2 with RetSelf => self' | RetValue v => v end)
  | _ => Raise TypeError
  end.

(** [MagicGetItem.__getitem__]: [P[k]] is [P()[k]]. *)
Definition class_getitem (cls : MarkupClass) (item : pyval)
  : result (pyval * pyval) :=
  getitem (_PythonBase_init cls [] []) item.

End PythonMarkup.

(** * Facts about jax/core.py *)

Module CoreFacts.
Import Core.


(** ** Facts about [join_named_shapes] *)

(** Two named shapes agree when no axis name has two sizes. *)
Definition agree (a b : gmap string Z) : Prop :=
  forall k x y, a !! k = Some x -> b !! k = Some y -> x = y.

Lemma agree_sym a b : agree a b -> agree b a.
Proof. intros H k x y Hb Ha. symmetry. eauto. Qed.

Lemma agree_refl a : agree a a.
Proof. intros k x y Hx Hy. congruence. Qed.

Lemma agree_union_comm (a b : gmap string Z) : agree a b -> a ∪ b = b ∪ a.
Proof.
  intros H. apply map_eq. intros k. rewrite !lookup_union.
  destruct (a !! k) as [x|] eqn:Ha, (b !! k) as [y|] eqn:Hb; simpl; try done.
  by rewrite (H k x y Ha Hb).
Qed.

Lemma fold_setdefault_spec (l : list (string * Z)) :
  forall r : gmap string Z,
  NoDup l.*1 ->
  (fold_result setdefault_check l r = Ok (r ∪ list_to_map l) /\
   forall k v x, (k, v) ∈ l -> r !! k = Some x -> x = v)
  \/
  (fold_result setdefault_check l r = Raise TypeError /\
   exists k v x, (k, v) ∈ l /\ r !! k = Some x /\ x <> v).
Proof.
  induction l as [|[k v] l IH]; intros r Hnd.
  - left. split.
    + simpl. f_equal. symmetry. apply (right_id_L ∅ (∪)).
    + intros k v x Hin. by apply elem_of_nil in Hin.
  - rewrite fmap_cons in Hnd. apply NoDup_cons in Hnd as [Hk Hnd].
    cbn [fst] in Hk.
    assert (Hfresh : forall k' v', (k', v') ∈ l -> k <> k').
    { intros k' v' Hin ->. apply Hk. apply list_elem_of_fmap.
      by exists (k', v'). }
    assert (Hnone : (list_to_map l : gmap string Z) !! k = None)
      by by apply not_elem_of_list_to_map_1.
    cbn [fold_result list_to_map foldr]. unfold setdefault_check at 1 3.
    cbn [fst snd uncurry].
    destruct (r !! k) as [s|] eqn:Hr; [destruct (Z.eqb_spec s v) as [->|Hne]|];
      cbn [rbind].
    + destruct (IH r Hnd) as [[Hf Hall]|[Hf (k' & v' & x & Hin & Hl & Hx)]].
      * left. split.
        -- rewrite Hf. f_equal. apply map_eq. intros j.
           rewrite !lookup_union.
           destruct (decide (j = k)) as [->|Hj].
           ++ by rewrite Hr, lookup_insert_eq, Hnone.
           ++ by rewrite lookup_insert_ne.
        -- intros k' v' x Hin Hl. apply elem_of_cons in Hin as [Heq|Hin].
           ++ inversion Heq; subst. congruence.
           ++ eauto.
      * right. split; [exact Hf|]. exists k', v', x. split; [|done].
        apply elem_of_cons. by right.
    + right. split; [reflexivity|]. exists k, v, s. split; [|done].
      apply elem_of_cons. by left.
    + destruct (IH (<[k:=v]> r) Hnd)
        as [[Hf Hall]|[Hf (k' & v' & x & Hin & Hl & Hx)]].
      * left. split.
        -- rewrite Hf. f_equal. rewrite <- insert_union_l.
           by rewrite insert_union_r.
        -- intros k' v' x Hin Hl. apply elem_of_cons in Hin as [Heq|Hin].
           ++ inversion Heq; subst. congruence.
           ++ apply (Hall k' v' x Hin).
              rewrite lookup_insert_ne; [done|]. by eapply Hfresh.
      * right. split; [exact Hf|]. exists k', v', x.
        rewrite lookup_insert_ne in Hl by (by eapply Hfresh).
        split; [|done]. apply elem_of_cons. by right.
Qed.

Lemma fold_setdefault_from_empty (a : gmap string Z) :
  fold_result setdefault_check (map_to_list a) ∅ = Ok a.
Proof.
  destruct (fold_setdefault_spec (map_to_list a) ∅ (NoDup_fst_map_to_list a))
    as [[Hf _]|[_ (k & v & x & _ & Hl & _)]].
  - rewrite Hf, list_to_map_to_list. f_equal. apply (left_id_L ∅ (∪)).
  - by rewrite lookup_empty in Hl.
Qed.

Lemma join_named_shapes_pair (a b : gmap string Z) :
  (join_named_shapes [a; b] = Ok (a ∪ b) /\ agree a b) \/
  (join_named_shapes [a; b] = Raise TypeError /\ ~ agree a b).
Proof.
  unfold join_named_shapes. simpl. rewrite fold_setdefault_from_empty. simpl.
  destruct (fold_setdefault_spec (map_to_list b) a (NoDup_fst_map_to_list b))
    as [[Hf Hall]|[Hf (k & v & x & Hin & Hl & Hx)]].
  - left. rewrite Hf, list_to_map_to_list. split; [done|].
    intros k x y Ha Hb. apply (Hall k y x); [|done].
    by apply elem_of_map_to_list.
  - right. rewrite Hf. split; [done|]. intros Hag. apply Hx.
    apply (Hag k x v Hl). by apply elem_of_map_to_list.
Qed.

Lemma join_named_shapes_agree (a b : gmap string Z) :
  agree a b -> join_named_shapes [a; b] = Ok (a ∪ b).
Proof.
  intros H. destruct (join_named_shapes_pair a b) as [[? _]|[_ ?]]; done.
Qed.

Lemma join_named_shapes_clash (a b : gmap string Z) :
  ~ agree a b -> join_named_shapes [a; b] = Raise TypeError.
Proof.
  intros H. destruct (join_named_shapes_pair a b) as [[_ ?]|[? _]]; done.
Qed.

Lemma join_named_shapes_empty_l (b : gmap string Z) :
  join_named_shapes [∅; b] = Ok b.
Proof.
  rewrite join_named_shapes_agree; [f_equal; apply (left_id_L ∅ (∪))|].
  intros k x y Ha. by rewrite lookup_empty in Ha.
Qed.

Lemma join_named_shapes_self (a : gmap string Z) :
  join_named_shapes [a; a] = Ok a.
Proof.
  rewrite join_named_shapes_agree by apply agree_refl.
  f_equal. apply (idemp_L (∪)).
Qed.

(** ** Facts about shapes and equality *)

Lemma symbolic_equal_dim_int (a b : Z) :
  symbolic_equal_dim (DimInt a) (DimInt b) = Ok (bool_decide (a = b)).
Proof.
  unfold symbolic_equal_dim. destruct (decide (DimInt a = DimInt b)) as [E|E].
  - inversion E; subst. by rewrite bool_decide_eq_true_2.
  - f_equal. destruct (Z.eqb_spec a b) as [->|Hne]; [done|].
    by rewrite bool_decide_eq_false_2.
Qed.

Lemma all_symbolic_equal_dim_int (s1 : list Z) :
  forall s2 : list Z,
  length s1 = length s2 ->
  all_symbolic_equal_dim (List.map DimInt s1) (List.map DimInt s2)
  = Ok (bool_decide (s1 = s2)).
Proof.
  induction s1 as [|a s1 IH]; intros [|b s2] Hlen; simplify_eq/=.
  - done.
  - rewrite symbolic_equal_dim_int. cbn [rbind].
    destruct (decide (a = b)) as [->|Hne].
    + rewrite bool_decide_eq_true_2 by done. rewrite IH by done.
      f_equal. apply bool_decide_ext. split; congruence.
    + rewrite bool_decide_eq_false_2 by done.
      by rewrite bool_decide_eq_false_2 by congruence.
Qed.

Lemma symbolic_equal_shape_int (s1 s2 : list Z) :
  symbolic_equal_shape (List.map DimInt s1) (List.map DimInt s2)
  = Ok (bool_decide (s1 = s2)).
Proof.
  unfold symbolic_equal_shape. rewrite !length_map.
  destruct (Nat.eqb_spec (length s1) (length s2)) as [E|E].
  - by apply all_symbolic_equal_dim_int.
  - by rewrite bool_decide_eq_false_2 by congruence.
Qed.

Lemma DimInt_map_inj (s1 s2 : list Z) :
  List.map DimInt s1 = List.map DimInt s2 <-> s1 = s2.
Proof.
  split; [|congruence]. revert s2.
  induction s1 as [|a s1 IH]; intros [|b s2] E; simplify_eq/=; [done|].
  f_equal. by apply IH.
Qed.

Lemma SFeqb_sym (a b : spec_float) : SFeqb a b = SFeqb b a.
Proof.
  unfold SFeqb, SFcompare.
  destruct a as [sa|sa| |sa ma ea], b as [sb|sb| |sb mb eb];
    try reflexivity; try (by destruct sa, sb); try (by destruct sa);
    try (by destruct sb).
  rewrite (Z.compare_antisym ea eb).
  change (PosDef.Pos.compare_cont Eq ma mb) with (Pos.compare ma mb).
  change (PosDef.Pos.compare_cont Eq mb ma) with (Pos.compare mb ma).
  rewrite (Pos.compare_antisym ma mb).
  destruct sa, sb; try reflexivity;
    destruct (ea ?= eb); cbn [CompOpp]; try reflexivity;
    destruct (ma ?= mb)%positive; reflexivity.
Qed.

Lemma scalar_eq_sym (a b : scalar) : scalar_eq a b = scalar_eq b a.
Proof.
  destruct a, b; simpl; try reflexivity.
  - by destruct b0, b.
  - apply Z.eqb_sym.
  - apply SFeqb_sym.
Qed.

Lemma all_equal_sym (a b : ndarray) :
  nd_shape a = nd_shape b -> all_equal a b = all_equal b a.
Proof.
  intros E. unfold all_equal. rewrite E.
  induction (indices (nd_shape b)) as [|i l IH]; [done|].
  simpl. by rewrite IH, scalar_eq_sym.
Qed.

Lemma np_shape_inj (a b : ndarray) :
  np_shape a = np_shape b -> nd_shape a = nd_shape b.
Proof.
  unfold np_shape. generalize (nd_shape a) (nd_shape b).
  induction l as [|x l IH]; intros [|y l'] E; simplify_eq/=; try done.
  all: f_equal; [lia|by apply IH].
Qed.

Lemma bool_eqb_sym (a b : bool) : Bool.eqb a b = Bool.eqb b a.
Proof. by destruct a, b. Qed.

Lemma py_eq_sym (x y : AbstractValue) : py_eq x y = py_eq y x.
Proof.
  destruct x, y; simpl; try reflexivity.
  - rewrite (bool_decide_ext (dt = dt0) (dt0 = dt)) by (split; congruence).
    by rewrite (bool_eqb_sym weak_type).
  - rewrite (bool_decide_ext (dt = dt0) (dt0 = dt)) by (split; congruence).
    rewrite (bool_decide_ext (shape = shape0) (shape0 = shape))
      by (split; congruence).
    by rewrite (bool_eqb_sym weak_type).
  - rewrite (bool_decide_ext (dt = dt0) (dt0 = dt)) by (split; congruence).
    rewrite (bool_decide_ext (shape = shape0) (shape0 = shape))
      by (split; congruence).
    rewrite (bool_decide_ext (named_shape = named_shape0)
                             (named_shape0 = named_shape))
      by (split; congruence).
    by rewrite (bool_eqb_sym weak_type).
  - rewrite (bool_decide_ext (dt = dt0) (dt0 = dt)) by (split; congruence).
    rewrite (bool_decide_ext (np_shape val = np_shape val0)
                             (np_shape val0 = np_shape val))
      by (split; congruence).
    rewrite (bool_eqb_sym weak_type).
    destruct (bool_decide (dt0 = dt)); [|done].
    destruct (decide (np_shape val0 = np_shape val)) as [E|E].
    + rewrite bool_decide_eq_true_2 by done. simpl.
      destruct (Bool.eqb weak_type0 weak_type); [|done].
      apply all_equal_sym. symmetry. by apply np_shape_inj.
    + by rewrite bool_decide_eq_false_2 by done.
Qed.

Lemma py_eq_refl_not_concrete (x : AbstractValue) :
  type_of x <> ClsConcreteArray -> py_eq x x = true.
Proof.
  destruct x; simpl; intros H; try done;
    rewrite ?bool_decide_eq_true_2 by done; by rewrite ?Bool.eqb_reflx.
Qed.

(** ** The join of two shaped arrays *)

Local Open Scope string_scope.

(** C2, at an input that refutes it: two [ShapedArray]s of equal shape and
    dtype whose named shapes give the axis ["i"] the sizes 2 and 3. Their join
    raises [TypeError]; no [ShapedArray] is returned. *)
Lemma ShapedArray_join_named_shape_clash :
  let a := ShapedArray [2] float32 false {[ "i" := 2 ]} in
  let b := ShapedArray [2] float32 false {[ "i" := 3 ]} in
  symbolic_equal_shape (List.map DimInt [2]) (List.map DimInt [2]) = Ok true /\
  get_dtype a = get_dtype b /\
  join {| jax_enable_checks := false; jax_disable_jit := false |} a b
  = Raise TypeError.
Proof. vm_compute. done. Qed.

(** C2, amended: for a [ShapedArray] [a] and a shaped value [b] ([ShapedArray]
    or [ConcreteArray]): when the shapes are symbolically equal and the dtypes
    equal, [a.join(b)] returns the [ShapedArray] of that shape and dtype whose
    [weak_type] is the conjunction of the two flags and whose named shape is
    the join of the two named shapes, provided the named shapes agree on the
    size of every axis name, and raises [TypeError] when they do not; when
    only the dtypes are equal it returns the [UnshapedArray] of that dtype;
    otherwise it raises [TypeError]. *)
Theorem ShapedArray_join_correct (cfg : Config)
    (shape : list Z) (dt : dtype) (weak_type : bool)
    (named_shape : gmap string Z) (b : AbstractValue)
    (bshape : list Z) (bdt : dtype) (bweak_type : bool)
    (bnamed_shape : gmap string Z) :
  isinstance b ClsShapedArray = true ->
  get_shape b = Ok (List.map DimInt bshape) ->
  get_dtype b = Ok bdt ->
  get_weak_type b = Ok bweak_type ->
  get_named_shape b = Ok bnamed_shape ->
  let a := ShapedArray shape dt weak_type named_shape in
  let same_shape :=
    symbolic_equal_shape (List.map DimInt shape) (List.map DimInt bshape) in
  (same_shape = Ok true -> dt = bdt -> agree named_shape bnamed_shape ->
   join_named_shapes [named_shape; bnamed_shape]
   = Ok (named_shape ∪ bnamed_shape) /\
   join cfg a b
   = Ok (ShapedArray shape dt (weak_type && bweak_type)
                     (named_shape ∪ bnamed_shape))) /\
  (same_shape = Ok true -> dt = bdt -> ~ agree named_shape bnamed_shape ->
   join cfg a b = Raise TypeError) /\
  (same_shape = Ok false -> dt = bdt ->
   join cfg a b = Ok (UnshapedArray dt false)) /\
  (dt <> bdt -> join cfg a b = Raise TypeError).
Proof.
  intros _ Hs Hd Hw Hn a same_shape. subst a same_shape.
  cbn [join]. unfold ShapedArray_join. rewrite Hs, Hd, Hw, Hn. cbn [rbind].
  rewrite symbolic_equal_shape_int. cbn [rbind].
  split; [|split; [|split]].
  - intros [= ->] <- Hag. rewrite bool_decide_eq_true_2 by done.
    by rewrite join_named_shapes_agree.
  - intros [= ->] <- Hag. rewrite bool_decide_eq_true_2 by done.
    by rewrite join_named_shapes_clash.
  - intros [= ->] <-. by rewrite bool_decide_eq_true_2.
  - intros Hne. rewrite (bool_decide_eq_false_2 (dt = bdt)) by done.
    by rewrite andb_false_r.
Qed.

Lemma ShapedArray_join_correct_witness :
  join {| jax_enable_checks := false; jax_disable_jit := false |}
       (ShapedArray [2; 3] float32 true {[ "i" := 4 ]})
       (ShapedArray [2; 3] float32 false {[ "j" := 5 ]})
  = Ok (ShapedArray [2; 3] float32 false ({[ "i" := 4 ]} ∪ {[ "j" := 5 ]})).
Proof.
  refine (proj2 (proj1 (ShapedArray_join_correct
            {| jax_enable_checks := false; jax_disable_jit := false |}
            [2; 3] float32 true {[ "i" := 4 ]}
            (ShapedArray [2; 3] float32 false {[ "j" := 5 ]})
            [2; 3] float32 false {[ "j" := 5 ]}
            _ _ _ _ _) _ _ _)); try reflexivity.
  intros k x y Hx Hy.
  apply lookup_singleton_Some in Hx as [<- <-].
  apply lookup_singleton_Some in Hy as [E _]. discriminate E.
Defined.

(** ** [lattice_join] *)

(** C3: [lattice_join(None, y)] and [lattice_join(y, None)] return [y], and
    [lattice_join(x, y)] raises [TypeError] when neither value is an instance
    of the type of the other. *)
Theorem lattice_join_none_and_incomparable (cfg : Config)
    (x y : AbstractValue) :
  lattice_join cfg None (Some y) = Ok (Some y) /\
  lattice_join cfg (Some y) None = Ok (Some y) /\
  (isinstance x (type_of y) = false -> isinstance y (type_of x) = false ->
   lattice_join cfg (Some x) (Some y) = Raise TypeError).
Proof.
  split; [reflexivity|]. split; [reflexivity|].
  intros Hxy Hyx. cbn [lattice_join]. by rewrite Hxy, Hyx.
Qed.

Lemma lattice_join_none_and_incomparable_witness :
  lattice_join {| jax_enable_checks := true; jax_disable_jit := false |}
               (Some (DShapedArray [DimInt 3] int32 false))
               (Some (ShapedArray [3] int32 false ∅))
  = Raise TypeError.
Proof.
  apply (lattice_join_none_and_incomparable
           {| jax_enable_checks := true; jax_disable_jit := false |}
           (DShapedArray [DimInt 3] int32 false)
           (ShapedArray [3] int32 false ∅)); reflexivity.
Defined.

(** The array classes of the claim. *)
Definition is_array (x : AbstractValue) : Prop :=
  type_of x = ClsUnshapedArray \/ type_of x = ClsShapedArray \/
  type_of x = ClsConcreteArray.

(** Where both values have a shape, the shapes are symbolically equal. *)
Definition shapes_match (x y : AbstractValue) : Prop :=
  forall sx sy, get_shape x = Ok sx -> get_shape y = Ok sy ->
                symbolic_equal_shape sx sy = Ok true.

(** Two calls end alike: both return, values that compare equal with [==],
    or both raise the same exception. *)
Definition same_outcome (r1 r2 : result (option AbstractValue)) : Prop :=
  match r1, r2 with
  | Ok (Some a), Ok (Some b) => py_eq a b = true
  | Ok None, Ok None => True
  | Raise e1, Raise e2 => e1 = e2
  | _, _ => False
  end.

(** A scalar array that holds a NaN. *)
Definition nan_scalar : ndarray :=
  {| nd_shape := []; nd_item := fun _ => SFloat S754_nan |}.

(** An element is a NaN. *)
Definition is_nan (a : scalar) : bool :=
  match a with
  | SFloat S754_nan => true
  | _ => false
  end.

(** No element of the array is a NaN. *)
Definition nan_free (val : ndarray) : bool :=
  forallb (fun i => negb (is_nan (nd_item val i))) (indices (nd_shape val)).

(** C1, at an input that refutes it: the join of a [ConcreteArray] whose value
    is NaN with itself is a [ShapedArray], which does not compare equal to
    it. *)
Lemma lattice_join_nan_not_idempotent :
  let cfg := {| jax_enable_checks := true; jax_disable_jit := false |} in
  let x := ConcreteArray float32 nan_scalar false in
  is_array x /\
  lattice_join cfg (Some x) (Some x) = Ok (Some (ShapedArray [] float32 false ∅))
  /\ py_eq (ShapedArray [] float32 false ∅) x = false
  /\ py_eq x (ShapedArray [] float32 false ∅) = false.
Proof.
  split; [right; right; reflexivity|]. split; [|split; reflexivity].
  vm_compute. reflexivity.
Qed.

Lemma same_outcome_refl (r : result AbstractValue) :
  (forall a, r = Ok a -> py_eq a a = true) ->
  same_outcome (let* a := r in Ok (Some a)) (let* a := r in Ok (Some a)).
Proof. destruct r as [a|e]; simpl; [|done]. intros H. by apply H. Qed.

Lemma UnshapedArray_join_unshaped (dt : dtype) (w : bool) (y a : AbstractValue) :
  UnshapedArray_join (UnshapedArray dt w) y = Ok a ->
  type_of a = ClsUnshapedArray.
Proof.
  unfold UnshapedArray_join. cbn [get_dtype get_weak_type rbind].
  destruct (get_dtype y) as [od|]; [|done]. cbn [rbind].
  destruct (bool_decide (dt = od)); [|done].
  destruct (get_weak_type y) as [ow|]; [|done]. cbn [rbind].
  destruct (Bool.eqb w ow); intros [= <-]; reflexivity.
Qed.

Lemma ShapedArray_join_shaped (s : list Z) (dt : dtype) (w : bool)
    (ns : gmap string Z) (y a : AbstractValue) :
  ShapedArray_join s dt w ns y = Ok a ->
  type_of a <> ClsConcreteArray.
Proof.
  unfold ShapedArray_join.
  destruct (get_shape y) as [os|]; [|done]. cbn [rbind].
  destruct (symbolic_equal_shape _ os) as [same|]; [|done]. cbn [rbind].
  destruct (get_dtype y) as [od|]; [|done]. cbn [rbind].
  destruct (same && bool_decide (dt = od)).
  - destruct (get_weak_type y) as [ow|]; [|done]. cbn [rbind].
    destruct (get_named_shape y) as [ons|]; [|done]. cbn [rbind].
    destruct (join_named_shapes _) as [j|]; [|done]. cbn [rbind].
    by intros [= <-].
  - destruct (bool_decide (dt = od)); [|done]. by intros [= <-].
Qed.

Ltac eval_issubclass :=
  repeat match goal with
         | |- context [issubclass ?a ?b] =>
             let v := eval vm_compute in (issubclass a b) in
             change (issubclass a b) with v
         end.

Lemma shapes_match_int (x y : AbstractValue) (sx sy : list Z) :
  shapes_match x y ->
  get_shape x = Ok (List.map DimInt sx) ->
  get_shape y = Ok (List.map DimInt sy) ->
  sx = sy.
Proof.
  intros H Hx Hy. specialize (H _ _ Hx Hy).
  rewrite symbolic_equal_shape_int in H. injection H as H.
  by apply bool_decide_eq_true_1 in H.
Qed.

(** The join of two [ShapedArray]s of one shape and dtype does not depend on
    the order of the operands. *)
Lemma ShapedArray_join_comm (s : list Z) (dt : dtype) (w1 w2 : bool)
    (n1 n2 : gmap string Z) :
  same_outcome
    (let* r := ShapedArray_join s dt w1 n1 (ShapedArray s dt w2 n2) in
     Ok (Some r))
    (let* r := ShapedArray_join s dt w2 n2 (ShapedArray s dt w1 n1) in
     Ok (Some r)).
Proof.
  unfold ShapedArray_join.
  cbn [get_shape get_dtype get_weak_type get_named_shape rbind].
  rewrite symbolic_equal_shape_int. cbn [rbind].
  rewrite !bool_decide_eq_true_2 by done. cbn [andb].
  destruct (join_named_shapes_pair n1 n2) as [[E1 Hag]|[E1 Hag]].
  - rewrite E1, (join_named_shapes_agree n2 n1) by by apply agree_sym.
    cbn [rbind same_outcome ShapedArray_update default py_eq].
    rewrite !bool_decide_eq_true_2; try done.
    + by destruct w1, w2.
    + by apply agree_union_comm.
  - rewrite E1, (join_named_shapes_clash n2 n1).
    + done.
    + intros H. apply Hag. by apply agree_sym.
Qed.

(** The join of two [ConcreteArray]s of one shape and dtype does not depend
    on the order of the operands. *)
Lemma ConcreteArray_join_comm (dt : dtype) (v1 v2 : ndarray) (w1 w2 : bool) :
  np_shape v1 = np_shape v2 ->
  same_outcome
    (let* r := ConcreteArray_join dt v1 w1 (ConcreteArray dt v2 w2) in
     Ok (Some r))
    (let* r := ConcreteArray_join dt v2 w2 (ConcreteArray dt v1 w1) in
     Ok (Some r)).
Proof.
  intros Hs. unfold ConcreteArray_join.
  rewrite (py_eq_sym (ConcreteArray dt v2 w2) (ConcreteArray dt v1 w1)).
  destruct (py_eq (ConcreteArray dt v1 w1) (ConcreteArray dt v2 w2)) eqn:E.
  - cbn [rbind same_outcome]. exact E.
  - cbn [get_shape get_dtype get_weak_type get_named_shape rbind].
    rewrite Hs. rewrite !bool_decide_eq_true_2 by done. cbn [andb].
    rewrite join_named_shapes_empty_l.
    cbn [rbind same_outcome py_eq].
    rewrite !bool_decide_eq_true_2 by done. by destruct w1, w2.
Qed.

Lemma SFeqb_refl (a : spec_float) :
  SFeqb a a = match a with S754_nan => false | _ => true end.
Proof.
  unfold SFeqb, SFcompare.
  destruct a as [sa|sa| |sa ma ea]; try done; try (by destruct sa).
  rewrite Z.compare_refl.
  change (PosDef.Pos.compare_cont Eq ma ma) with (Pos.compare ma ma).
  rewrite Pos.compare_refl. by destruct sa.
Qed.

(** An element equals itself unless it is a NaN. *)
Lemma scalar_eq_refl (a : scalar) : scalar_eq a a = negb (is_nan a).
Proof.
  destruct a as [b|z|f]; cbn [scalar_eq is_nan].
  - by destruct b.
  - by rewrite Z.eqb_refl.
  - rewrite SFeqb_refl. by destruct f.
Qed.

Lemma all_equal_refl (val : ndarray) : all_equal val val = nan_free val.
Proof.
  unfold all_equal, nan_free.
  induction (indices (nd_shape val)) as [|i l IH]; [done|].
  cbn [forallb]. by rewrite IH, scalar_eq_refl.
Qed.

(** A [ConcreteArray] equals itself exactly when its value holds no NaN. *)
Lemma py_eq_refl_concrete (dt : dtype) (val : ndarray) (weak_type : bool) :
  py_eq (ConcreteArray dt val weak_type) (ConcreteArray dt val weak_type)
  = nan_free val.
Proof.
  cbn [py_eq]. rewrite !bool_decide_eq_true_2 by done.
  rewrite Bool.eqb_reflx. cbn [andb]. apply all_equal_refl.
Qed.

(** C1, amended: on [UnshapedArray], [ShapedArray] and [ConcreteArray] values
    of equal dtypes (and, where both are shaped, of symbolically equal shapes),
    [lattice_join(x, y)] and [lattice_join(y, x)] end alike, with values
    that compare equal; and [lattice_join(x, x)] equals [x] for every such [x]
    that compares equal to itself, which every [UnshapedArray] and
    [ShapedArray] does, and a [ConcreteArray] does exactly when its value
    holds no NaN. *)
Theorem lattice_join_comm_idem (cfg : Config) (x y : AbstractValue) :
  is_array x -> is_array y ->
  get_dtype x = get_dtype y ->
  shapes_match x y ->
  same_outcome (lattice_join cfg (Some x) (Some y))
               (lattice_join cfg (Some y) (Some x)) /\
  (py_eq x x = true ->
   exists r, lattice_join cfg (Some x) (Some x) = Ok (Some r) /\
             py_eq r x = true) /\
  (type_of x <> ClsConcreteArray -> py_eq x x = true) /\
  (forall dt val weak_type,
      x = ConcreteArray dt val weak_type -> py_eq x x = nan_free val).
Proof.
  intros Hx Hy Hd Hs. split; [|split; [|split]].
  - destruct x as [| | |dx wx| |sx dx wx nx|dx vx wx];
      try (by destruct Hx as [?|[?|?]]);
      destruct y as [| | |dy wy| |sy dy wy ny|dy vy wy];
      try (by destruct Hy as [?|[?|?]]);
      injection Hd as ->;
      unfold lattice_join, isinstance; cbn [type_of]; eval_issubclass;
      cbn [join].
    + unfold UnshapedArray_join. cbn [get_dtype get_weak_type rbind].
      rewrite !bool_decide_eq_true_2 by done.
      rewrite (bool_eqb_sym wy wx).
      destruct (Bool.eqb wx wy) eqn:E; cbn [rbind same_outcome py_eq].
      * rewrite bool_decide_eq_true_2 by done. by rewrite bool_eqb_sym.
      * by rewrite bool_decide_eq_true_2.
    + apply same_outcome_refl. intros a Ha.
      apply py_eq_refl_not_concrete.
      by rewrite (UnshapedArray_join_unshaped _ _ _ _ Ha).
    + apply same_outcome_refl. intros a Ha.
      apply py_eq_refl_not_concrete.
      by rewrite (UnshapedArray_join_unshaped _ _ _ _ Ha).
    + apply same_outcome_refl. intros a Ha.
      apply py_eq_refl_not_concrete.
      by rewrite (UnshapedArray_join_unshaped _ _ _ _ Ha).
    + assert (sx = sy) as -> by by eapply shapes_match_int.
      apply ShapedArray_join_comm.
    + apply same_outcome_refl. intros a Ha.
      apply py_eq_refl_not_concrete. by eapply ShapedArray_join_shaped.
    + apply same_outcome_refl. intros a Ha.
      apply py_eq_refl_not_concrete.
      by rewrite (UnshapedArray_join_unshaped _ _ _ _ Ha).
    + apply same_outcome_refl. intros a Ha.
      apply py_eq_refl_not_concrete. by eapply ShapedArray_join_shaped.
    + apply ConcreteArray_join_comm. symmetry.
      by eapply shapes_match_int.
  - intros Hrefl.
    destruct x as [| | |dx wx| |sx dx wx nx|dx vx wx];
      try (by destruct Hx as [?|[?|?]]);
      unfold lattice_join, isinstance; cbn [type_of]; eval_issubclass;
      cbn [join].
    + exists (UnshapedArray dx wx). split; [|done].
      unfold UnshapedArray_join. cbn [get_dtype get_weak_type rbind].
      rewrite bool_decide_eq_true_2 by done. by rewrite Bool.eqb_reflx.
    + exists (ShapedArray sx dx wx nx). split; [|done].
      unfold ShapedArray_join.
      cbn [get_shape get_dtype get_weak_type get_named_shape rbind].
      rewrite symbolic_equal_shape_int. cbn [rbind].
      rewrite !bool_decide_eq_true_2 by done. cbn [andb].
      rewrite join_named_shapes_self.
      cbn [rbind ShapedArray_update default]. by rewrite andb_diag.
    + exists (ConcreteArray dx vx wx). split; [|done].
      unfold ConcreteArray_join. by rewrite Hrefl.
  - apply py_eq_refl_not_concrete.
  - intros dt val weak_type ->. apply py_eq_refl_concrete.
Qed.

Lemma lattice_join_comm_idem_witness :
  let cfg := {| jax_enable_checks := true; jax_disable_jit := false |} in
  let x := ConcreteArray float32
             {| nd_shape := [2%nat];
                nd_item := fun _ => SFloat (S754_zero false) |}
             false in
  let y := ShapedArray [2] float32 true {[ "i" := 4 ]} in
  same_outcome (lattice_join cfg (Some x) (Some y))
               (lattice_join cfg (Some y) (Some x)) /\
  (py_eq x x = true ->
   exists r, lattice_join cfg (Some x) (Some x) = Ok (Some r) /\
             py_eq r x = true) /\
  (type_of x <> ClsConcreteArray -> py_eq x x = true) /\
  (forall dt val weak_type,
      x = ConcreteArray dt val weak_type -> py_eq x x = nan_free val).
Proof.
  intros cfg x y. apply (lattice_join_comm_idem cfg x y).
  - right; right; reflexivity.
  - right; left; reflexivity.
  - reflexivity.
  - intros sx sy [= <-] [= <-]. reflexivity.
Defined.

(** ** The interpreter stack *)

(** C9: a new [TraceStack] holds one [MainTrace], of level 0 and of trace type
    [EvalTrace], which is also its dynamic trace; [next_level()] is the length
    of the stack; and [push(m)] followed by [pop()] gives back the stack. *)
Theorem TraceStack_well_formed {Any : Type}
    (s : TraceStack Any) (m : MainTrace Any) :
  (exists eval_trace : MainTrace Any,
      stack TraceStack_init = [eval_trace] /\
      level eval_trace = 0 /\
      trace_type eval_trace = EvalTrace /\
      dynamic TraceStack_init = eval_trace) /\
  next_level s = Z.of_nat (length (stack s)) /\
  next_level (push s m) = next_level s + 1 /\
  pop (push s m) = Ok s.
Proof.
  split; [by eexists|]. split; [reflexivity|]. split.
  - unfold next_level, push. cbn [stack]. rewrite length_app. simpl. lia.
  - destruct s as [st dyn]. unfold pop, push. cbn [stack dynamic].
    destruct (st ++ [m])%list eqn:E.
    + by destruct st.
    + rewrite <- E. by rewrite removelast_last.
Qed.

End CoreFacts.

(** * Facts about jax/interpreters/partial_eval.py *)

Module PartialEvalFacts.
Import Core PartialEval.

(** The handler that a module of arrays registers for an array. *)
Definition array_handler (x : Value) : option AbstractValue :=
  match x with
  | PyArray dt val weak_type => Some (ConcreteArray dt val weak_type)
  | _ => None
  end.

Lemma known_ok (cfg : Config) (reg : Value -> option AbstractValue)
    (c : Value) :
  (jax_enable_checks cfg = true ->
   is_tracer c || is_zero c || valid_jaxtype reg c = true) ->
  known cfg reg c = Ok (None, c).
Proof.
  intros H. unfold known, PartialVal_new.
  destruct (jax_enable_checks cfg); [|done].
  by rewrite H.
Qed.

Lemma unknown_ok (cfg : Config) (reg : Value -> option AbstractValue)
    (a : AbstractValue) :
  unknown cfg reg a = Ok (Some a, PyUnit).
Proof.
  unfold unknown, PartialVal_new. by destruct (jax_enable_checks cfg).
Qed.

(** C6: a [PartialVal] is either known or unknown; [known(c)] is known, its
    known value is [c], its abstract value is the abstract value of [c], and it
    merges to [c]; [unknown(a)] is not known, has no known value, has the
    abstract value [a], and merges to the value given. The constant [c] is a
    value that [PartialVal] accepts (a tracer, a [Zero] or a valid JAX type),
    hence not [None]. *)
Theorem PartialVal_accessors (cfg : Config)
    (reg : Value -> option AbstractValue)
    (c v : Value) (a : AbstractValue) :
  (c <> PyNone ->
   (jax_enable_checks cfg = true ->
    is_tracer c || is_zero c || valid_jaxtype reg c = true) ->
   exists pv,
     known cfg reg c = Ok pv /\
     is_known pv = true /\
     get_known pv = c /\
     PartialVal_get_aval reg pv
     = (let* ac := get_aval reg c in Ok (Some ac)) /\
     merge_with_known pv v = c) /\
  (exists pv,
     unknown cfg reg a = Ok pv /\
     is_known pv = false /\
     get_known pv = PyNone /\
     PartialVal_get_aval reg pv = Ok (Some a) /\
     merge_with_known pv v = v) /\
  (forall pv : PartialVal,
     (is_known pv = true /\ pv.1 = None) \/
     (is_known pv = false /\ exists av, pv.1 = Some av)).
Proof.
  split; [|split].
  - intros Hc Hvalid. exists (None, c).
    split; [by apply known_ok|].
    unfold is_known, get_known, PartialVal_get_aval, merge_with_known,
      get_known.
    cbn [fst snd]. by destruct c.
  - exists (Some a, PyUnit). split; [apply unknown_ok|]. done.
  - intros [[av|] const]; [right|left]; eauto.
Qed.

Lemma PartialVal_accessors_witness :
  let cfg := {| jax_enable_checks := true; jax_disable_jit := false |} in
  let c := PyArray int32 {| nd_shape := []; nd_item := fun _ => SInt 7 |}
                   true in
  exists pv,
    known cfg array_handler c = Ok pv /\
    is_known pv = true /\
    get_known pv = c /\
    PartialVal_get_aval array_handler pv
    = (let* ac := get_aval array_handler c in Ok (Some ac)) /\
    merge_with_known pv PyUnit = c.
Proof.
  intros cfg c.
  apply (PartialVal_accessors cfg array_handler c PyUnit AbstractUnit).
  - discriminate.
  - reflexivity.
Defined.

End PartialEvalFacts.

(** * Facts about pyth/plugins/python/reader.py *)

Module PythonMarkupFacts.
Import Pyth PythonMarkup.

Local Open Scope string_scope.
Local Open Scope list_scope.

(** ** Reading *)

Definition is_markup (x : pyval) : bool :=
  match x with VMarkup _ _ _ => true | _ => false end.

Lemma toPyth_base (cls : MarkupClass) (properties : list (string * pyval))
    (content : list pyval) :
  cls <> T ->
  toPyth (VMarkup cls properties content)
  = VElement (pythType cls) properties (List.map _convert content).
Proof. intros H. by destruct cls. Qed.

Lemma toPyth_T (properties : list (string * pyval)) (content : list pyval) :
  toPyth (VMarkup T properties content) = VElement Text properties content.
Proof. reflexivity. Qed.

(** C8, at an input that refutes it: a [T] object that holds a [P] object.
    [read] keeps the [P] object as it is in the content of the [Text], where
    converting the children the same way would put a [Paragraph]. *)
Lemma read_T_keeps_children :
  let child := VMarkup P [] [VStr "x"] in
  read [VMarkup T [] [child]]
  = VElement Document [] [VElement Text [] [child]] /\
  read [VMarkup T [] [child]]
  <> VElement Document [] [VElement Text [] (List.map _convert [child])].
Proof. split; [reflexivity|discriminate]. Qed.

(** C8, amended: [read(source)] returns a [Document] whose content has the
    length of [source] and whose i-th element is [source[i].toPyth()] when
    [source[i]] is a markup object and [source[i]] itself otherwise; [toPyth]
    converts the children of a [P], [LE] or [L] object the same way, and keeps
    the children of a [T] object as they are. *)
Theorem read_correct (source : list pyval) :
  (exists content,
      read source = VElement Document [] content /\
      length content = length source /\
      forall i x, nth_error source i = Some x ->
                  nth_error content i
                  = Some (if is_markup x then toPyth x else x)) /\
  (forall cls properties items,
      toPyth (VMarkup cls properties items)
      = VElement (pythType cls) properties
                 (match cls with
                  | T => items
                  | _ => List.map
                           (fun c => if is_markup c then toPyth c else c)
                           items
                  end)).
Proof.
  split.
  - exists (List.map _convert source). split; [reflexivity|].
    split; [apply length_map|].
    intros i x Hx. rewrite nth_error_map, Hx. cbn [option_map].
    by destruct x.
  - intros cls properties items.
    assert (E : List.map _convert items
                = List.map (fun c => if is_markup c then toPyth c else c)
                           items).
    { apply map_ext. by intros []. }
    destruct cls; try (rewrite toPyth_base by done; by rewrite E).
    apply toPyth_T.
Qed.

Lemma read_correct_witness :
  nth_error [VStr "a"; VMarkup P [] [VMarkup T [("bold", VBool true)] [VStr "b"]]] 1
  = Some (VMarkup P [] [VMarkup T [("bold", VBool true)] [VStr "b"]]) /\
  exists content,
    read [VStr "a"; VMarkup P [] [VMarkup T [("bold", VBool true)] [VStr "b"]]]
    = VElement Document [] content /\
    nth_error content 1
    = Some (VElement Paragraph []
              [VElement Text [("bold", VBool true)] [VStr "b"]]).
Proof.
  split; [reflexivity|].
  destruct (proj1 (read_correct
    [VStr "a"; VMarkup P [] [VMarkup T [("bold", VBool true)] [VStr "b"]]]))
    as (content & Hread & _ & Hnth).
  exists content. split; [exact Hread|].
  exact (Hnth 1%nat _ eq_refl).
Defined.

(** ** Indexing *)

(** An induction principle for [pyval] that reaches the items of a tuple or
    list. *)
Section pyval_items_ind.

Variable Q : pyval -> Prop.
Hypothesis HNone : Q VNone.
Hypothesis HBool : forall b, Q (VBool b).
Hypothesis HInt : forall z, Q (VInt z).
Hypothesis HStr : forall s, Q (VStr s).
Hypothesis HTuple : forall items, Forall Q items -> Q (VTuple items).
Hypothesis HList : forall items, Forall Q items -> Q (VList items).
Hypothesis HMarkup : forall cls properties content,
    Q (VMarkup cls properties content).
Hypothesis HElement : forall cls properties content,
    Q (VElement cls properties content).

Fixpoint pyval_items_ind (v : pyval) : Q v :=
  match v with
  | VNone => HNone
  | VBool b => HBool b
  | VInt z => HInt z
  | VStr s => HStr s
  | VTuple items =>
      HTuple items
        ((fix go (l : list pyval) : Forall Q l :=
            match l with
            | [] => @Stdlib.Lists.List.Forall_nil _ Q
            | x :: l' =>
                @Stdlib.Lists.List.Forall_cons _ Q x l' (pyval_items_ind x) (go l')
            end) items)
  | VList items =>
      HList items
        ((fix go (l : list pyval) : Forall Q l :=
            match l with
            | [] => @Stdlib.Lists.List.Forall_nil _ Q
            | x :: l' =>
                @Stdlib.Lists.List.Forall_cons _ Q x l' (pyval_items_ind x) (go l')
            end) items)
  | VMarkup cls properties content => HMarkup cls properties content
  | VElement cls properties content => HElement cls properties content
  end.

End pyval_items_ind.

(** What [p[item]] appends to the content: the items that are neither ints
    nor tuples or lists, those of nested tuples and lists included. *)
Fixpoint appended (item : pyval) : list pyval :=
  match item with
  | VTuple items | VList items => flat_map appended items
  | VInt _ | VBool _ => []
  | _ => [item]
  end.

(** No int is reached by [p[item]]. *)
Fixpoint no_index (item : pyval) : bool :=
  match item with
  | VTuple items | VList items => forallb no_index items
  | VInt _ | VBool _ => false
  | _ => true
  end.

(** The item is neither an int nor a tuple or list. *)
Definition is_plain (item : pyval) : bool :=
  match item with
  | VTuple _ | VList _ | VInt _ | VBool _ => false
  | _ => true
  end.

(** [isinstance(item, int)]: a [bool] is an [int]. *)
Definition is_int (item : pyval) : bool :=
  match item with
  | VInt _ | VBool _ => true
  | _ => false
  end.

(** The loop [for i in item: self[i]]. *)
Fixpoint getitem_each (items : list pyval) (content : list pyval)
  : result (list pyval) :=
  match items with
  | [] => Ok content
  | i :: rest => let* r := __getitem__ content i in getitem_each rest r.1
  end.

Lemma __getitem___tuple (content items : list pyval) :
  __getitem__ content (VTuple items)
  = (let* c := getitem_each items content in Ok (c, RetSelf)).
Proof.
  cbn [__getitem__]. f_equal.
Qed.

Lemma __getitem___list (content items : list pyval) :
  __getitem__ content (VList items)
  = (let* c := getitem_each items content in Ok (c, RetSelf)).
Proof.
  cbn [__getitem__]. f_equal.
Qed.

Lemma __getitem___plain (content : list pyval) (item : pyval) :
  is_plain item = true ->
  __getitem__ content item = Ok (content ++ [item], RetSelf).
Proof. by destruct item. Qed.

(** The loop appends what its items append, when each of them does. *)
Lemma getitem_each_appends (items : list pyval) :
  Forall (fun i => forall content c' r,
            __getitem__ content i = Ok (c', r) ->
            c' = content ++ appended i /\ (r = RetSelf \/ is_int i = true))
         items ->
  forall content c,
  getitem_each items content = Ok c ->
  c = content ++ flat_map appended items.
Proof.
  induction 1 as [|i rest Hi _ IH]; intros content c E.
  - injection E as <-. by rewrite app_nil_r.
  - cbn [getitem_each] in E.
    destruct (__getitem__ content i) as [[c1 r1]|] eqn:E1; [|done].
    cbn [rbind fst] in E. apply Hi in E1 as [-> _].
    apply IH in E as ->. cbn [flat_map]. by rewrite app_assoc.
Qed.

(** A call that returns has appended the items that [appended] lists, and
    returns [self] unless the item is an int. *)
Lemma __getitem___appends (item : pyval) :
  forall content c' r,
  __getitem__ content item = Ok (c', r) ->
  c' = content ++ appended item /\ (r = RetSelf \/ is_int item = true).
Proof.
  induction item as [|b|z|s|items IH|items IH|cls ps cs|cls ps cs]
    using pyval_items_ind; intros content c' r H;
    try (rewrite __getitem___plain in H by done; injection H as <- <-;
         by split; [|left]).
  - cbn [__getitem__] in H. destruct (py_index content _); [|done].
    injection H as <- <-. cbn [appended]. rewrite app_nil_r. by split; [|right].
  - cbn [__getitem__] in H. destruct (py_index content _); [|done].
    injection H as <- <-. cbn [appended]. rewrite app_nil_r. by split; [|right].
  - rewrite __getitem___tuple in H. cbn [appended].
    destruct (getitem_each items content) as [c|] eqn:E; [|done].
    injection H as <- <-. split; [|by left].
    by apply getitem_each_appends.
  - rewrite __getitem___list in H. cbn [appended].
    destruct (getitem_each items content) as [c|] eqn:E; [|done].
    injection H as <- <-. split; [|by left].
    by apply getitem_each_appends.
Qed.

Lemma getitem_each_no_index (items : list pyval) :
  Forall (fun i => forall content,
            no_index i = true ->
            __getitem__ content i = Ok (content ++ appended i, RetSelf))
         items ->
  forall content,
  forallb no_index items = true ->
  getitem_each items content = Ok (content ++ flat_map appended items).
Proof.
  induction 1 as [|i rest Hi _ IH]; intros content H.
  - cbn. by rewrite app_nil_r.
  - cbn [forallb] in H. apply andb_prop in H as [H1 H2].
    cbn [getitem_each]. rewrite Hi by done. cbn [rbind fst].
    rewrite IH by done. cbn [flat_map]. by rewrite app_assoc.
Qed.

(** Without an int to look up, the call returns. *)
Lemma __getitem___no_index (item : pyval) :
  forall content,
  no_index item = true ->
  __getitem__ content item = Ok (content ++ appended item, RetSelf).
Proof.
  induction item as [|b|z|s|items IH|items IH|cls ps cs|cls ps cs]
    using pyval_items_ind; intros content H;
    try (by rewrite __getitem___plain); try discriminate H.
  - rewrite __getitem___tuple. cbn [appended no_index] in *.
    by rewrite getitem_each_no_index.
  - rewrite __getitem___list. cbn [appended no_index] in *.
    by rewrite getitem_each_no_index.
Qed.

Lemma plain_items (items : list pyval) :
  forallb is_plain items = true ->
  forallb no_index items = true /\ flat_map appended items = items.
Proof.
  induction items as [|i rest IH]; [done|].
  cbn [forallb flat_map]. intros H. apply andb_prop in H as [H1 H2].
  destruct (IH H2) as [-> ->]. by destruct i.
Qed.

(** C10, at an input that refutes it: [p[("a", 0)]] on a new [P] object
    appends ["a"] and looks [p.content[0]] up; the int is not appended. *)
Lemma getitem_tuple_int_not_appended :
  let p := _PythonBase_init P [] [] in
  let item := VTuple [VStr "a"; VInt 0] in
  getitem p item = Ok (VMarkup P [] [VStr "a"], VMarkup P [] [VStr "a"]) /\
  getitem p item
  <> Ok (VMarkup P [] [VStr "a"; VInt 0], VMarkup P [] [VStr "a"; VInt 0]).
Proof. split; [reflexivity|discriminate]. Qed.

(** C10, amended: for a markup object [p], [p[item]] with an int returns
    [p.content[item]] and leaves [p] as it is; with a tuple or list it applies
    [p[i]] to each element in order and returns [p], so that an element that
    is neither an int nor a tuple or list is appended, the elements of a
    nested tuple or list are treated the same way, and an int element is
    looked up and not appended; with any other item it appends the item and
    returns [p]; and two bracket applications in a row append their items in
    order. *)
Theorem getitem_by_argument_type (cls : MarkupClass)
    (properties : list (string * pyval)) (content : list pyval) :
  let p := VMarkup cls properties content in
  (forall z, getitem p (VInt z)
             = (let* v := py_index content z in Ok (p, v))) /\
  (forall items item,
      item = VTuple items \/ item = VList items ->
      (forall p' v, getitem p item = Ok (p', v) ->
                    p' = VMarkup cls properties
                                 (content ++ flat_map appended items) /\
                    v = p') /\
      (forallb no_index items = true ->
       let p' := VMarkup cls properties
                         (content ++ flat_map appended items) in
       getitem p item = Ok (p', p')) /\
      (forallb is_plain items = true ->
       let p' := VMarkup cls properties (content ++ items) in
       getitem p item = Ok (p', p'))) /\
  (forall item,
      is_plain item = true ->
      let p' := VMarkup cls properties (content ++ [item]) in
      getitem p item = Ok (p', p')) /\
  (forall a b,
      is_plain a = true -> is_plain b = true ->
      let p' := VMarkup cls properties (content ++ [a; b]) in
      (let* r := getitem p a in getitem r.2 b) = Ok (p', p')).
Proof.
  intros p. subst p. split; [|split; [|split]].
  - intros z. cbn [getitem __getitem__].
    by destruct (py_index content z).
  - intros items item Hitem.
    assert (Hno : forallb no_index items = true ->
                  getitem (VMarkup cls properties content) item
                  = Ok (VMarkup cls properties
                                (content ++ flat_map appended items),
                        VMarkup cls properties
                                (content ++ flat_map appended items))).
    { intros H. unfold getitem.
      rewrite (__getitem___no_index item) by by destruct Hitem as [->| ->].
      by destruct Hitem as [->| ->]. }
    split; [|split].
    + intros p' v H. unfold getitem in H.
      destruct (__getitem__ content item) as [[c r]|] eqn:E; [|done].
      apply __getitem___appends in E as [-> Hr].
      cbn [rbind fst snd] in H.
      assert (Eapp : appended item = flat_map appended items)
          by by destruct Hitem as [->| ->].
      rewrite Eapp in *.
      destruct Hr as [->|Hr].
      * injection H as <- <-. split; reflexivity.
      * by destruct Hitem as [->| ->].
    + exact Hno.
    + intros H. apply plain_items in H as [H1 H2].
      cbn zeta. rewrite <- H2 at 1 2. by apply Hno.
  - intros item H. cbn zeta. unfold getitem.
    by rewrite __getitem___plain.
  - intros a b Ha Hb. cbn zeta. unfold getitem.
    rewrite __getitem___plain by done. cbn [rbind fst snd].
    rewrite __getitem___plain by done. cbn [rbind fst snd].
    by rewrite <- app_assoc.
Qed.

Lemma getitem_by_argument_type_witness :
  getitem (VMarkup P [] [VStr "a"]) (VList [VStr "b"; VTuple [VStr "c"]])
  = Ok (VMarkup P [] [VStr "a"; VStr "b"; VStr "c"],
        VMarkup P [] [VStr "a"; VStr "b"; VStr "c"]).
Proof.
  apply (proj1 (proj2 (proj1 (proj2 (getitem_by_argument_type P [] [VStr "a"]))
           [VStr "b"; VTuple [VStr "c"]]
           (VList [VStr "b"; VTuple [VStr "c"]])
           (or_intror eq_refl)))).
  reflexivity.
Defined.

End PythonMarkupFacts.

(** * Facts about pyth/plugins/plaintext/writer.py *)

Module PlaintextFacts.
Import Pyth Plaintext.

Local Open Scope string_scope.

(** ** Documents made of paragraphs of text runs *)

Record TextRun : Type := {
  run_properties : list (string * pyval);
  run_strings : list string
}.

Record Para : Type := {
  par_properties : list (string * pyval);
  par_runs : list TextRun
}.

Definition text_node (t : TextRun) : pyval :=
  VElement Text (run_properties t) (List.map VStr (run_strings t)).

Definition paragraph_node (p : Para) : pyval :=
  VElement Paragraph (par_properties p) (List.map text_node (par_runs p)).

Definition document_node (properties : list (string * pyval))
    (pars : list Para) : pyval :=
  VElement Document properties (List.map paragraph_node pars).

(** The text of a paragraph: the concatenation of its text runs. *)
Definition paragraph_text (p : Para) : string :=
  String.concat ""
    (List.map (fun t => String.concat "" (run_strings t)) (par_runs p)).

(** What a paragraph is rendered as: each line of its text, followed by the
    newline string. *)
Definition render_paragraph (newline : string) (p : Para) : string :=
  String.concat ""
    (List.map (fun line => line ++ newline) (splitlines (paragraph_text p))).

(** What a document is rendered as: its paragraphs, with one newline string
    between two of them. *)
Definition render_document (newline : string) (pars : list Para) : string :=
  String.concat newline (List.map (render_paragraph newline) pars).

(** ** Strings *)

Lemma str_app_cons (c : ascii) (a b : string) :
  String c a ++ b = String c (a ++ b).
Proof. reflexivity. Qed.

Lemma str_app_nil_l (s : string) : "" ++ s = s.
Proof. reflexivity. Qed.

Lemma str_app_nil_r (s : string) : s ++ "" = s.
Proof.
  induction s as [|c s IH]; [done|]. by rewrite str_app_cons, IH.
Qed.

Lemma str_app_assoc (a b c : string) : (a ++ b) ++ c = a ++ b ++ c.
Proof.
  induction a as [|x a IH]; [done|]. by rewrite !str_app_cons, IH.
Qed.

Lemma str_length_app (a b : string) :
  String.length (a ++ b) = (String.length a + String.length b)%nat.
Proof.
  induction a as [|x a IH]; [done|]. rewrite str_app_cons. simpl.
  by rewrite IH.
Qed.

Lemma str_take_app (a b : string) : str_take (String.length a) (a ++ b) = a.
Proof.
  unfold str_take. induction a as [|x a IH].
  - rewrite str_app_nil_l. by destruct b.
  - rewrite str_app_cons. simpl. by rewrite IH.
Qed.

Lemma str_take_length (n : nat) (s : string) :
  (n <= String.length s)%nat -> String.length (str_take n s) = n.
Proof.
  unfold str_take. revert n. induction s as [|c s IH]; intros [|n] H;
    simpl in *; try done; try lia.
  rewrite IH; [done|lia].
Qed.

Lemma str_take_prefix (n : nat) (s : string) :
  exists suffix, s = str_take n s ++ suffix.
Proof.
  unfold str_take. revert n. induction s as [|c s IH]; intros [|n]; simpl.
  - by exists "".
  - by exists "".
  - by exists (String c s).
  - destruct (IH n) as [suffix E]. exists suffix.
    by rewrite str_app_cons, <- E.
Qed.

Lemma concat_empty_cons (x : string) (xs : list string) :
  String.concat "" (x :: xs) = x ++ String.concat "" xs.
Proof. destruct xs; simpl; [by rewrite str_app_nil_r|done]. Qed.

(** ** The stream *)

(** The stream holds [pre], then [written], and is positioned after them. *)
Definition wrote (pre written : string) (f : StringIO) : Prop :=
  exists suffix,
    buffer f = pre ++ written ++ suffix /\
    position f = (String.length pre + String.length written)%nat.

Lemma wrote_initial (f : StringIO) :
  (position f <= String.length (buffer f))%nat ->
  wrote (str_take (position f) (buffer f)) "" f.
Proof.
  intros H. destruct (str_take_prefix (position f) (buffer f)) as [suffix E].
  exists suffix. split; [by rewrite str_app_nil_l|].
  rewrite str_take_length by done. simpl. lia.
Qed.

Lemma StringIO_write_wrote (pre written s : string) (f : StringIO) :
  wrote pre written f -> wrote pre (written ++ s) (StringIO_write f s).
Proof.
  intros (suffix & Hb & Hp). unfold StringIO_write.
  assert (Hlen : position f = String.length (pre ++ written))
    by by rewrite str_length_app.
  replace (position f - String.length (buffer f))%nat with 0%nat
    by (rewrite Hb, Hp, !str_length_app; lia).
  cbn [replicate String.concat]. rewrite str_app_nil_r.
  destruct (str_take_prefix (position f + String.length s) (buffer f))
    as [_ _].
  exists (str_drop (position f + String.length s) (buffer f)).
  cbn [buffer position]. split.
  - rewrite Hb at 1. rewrite <- (str_app_assoc pre written suffix).
    rewrite Hlen, str_take_app. by rewrite !str_app_assoc.
  - rewrite Hp, str_length_app. lia.
Qed.

Lemma StringIO_finish (pre written : string) (f : StringIO) :
  wrote pre written f ->
  StringIO_seek (StringIO_truncate f) 0
  = {| buffer := pre ++ written; position := 0 |}.
Proof.
  intros (suffix & Hb & Hp). unfold StringIO_seek, StringIO_truncate.
  cbn [buffer position]. f_equal.
  rewrite Hb, <- str_app_assoc.
  replace (position f) with (String.length (pre ++ written))
    by (rewrite str_length_app; lia).
  apply str_take_app.
Qed.

(** ** The writer *)

(** The writer of [go]: its indentation is that of a new writer. *)
Definition writing (pre written : string) (w : Writer) : Prop :=
  indent w = (-1)%Z /\ wrote pre written (target w).

Lemma write_target_writing (pre written s : string) (w : Writer) :
  writing pre written w -> writing pre (written ++ s) (write_target w s).
Proof.
  intros [Hi Hw]. split; [exact Hi|]. by apply StringIO_write_wrote.
Qed.

Lemma write_lines_writing (newline pre : string) (lines : list string) :
  forall (written : string) (w : Writer),
  writing pre written w ->
  writing pre
    (written
     ++ String.concat "" (List.map (fun line => line ++ newline) lines))
    (write_lines newline lines "" w).
Proof.
  induction lines as [|line rest IH]; intros written w Hw.
  - cbn [List.map String.concat write_lines]. by rewrite str_app_nil_r.
  - cbn [write_lines List.map]. rewrite concat_empty_cons.
    change (String.eqb "" "") with true. cbn iota.
    assert (E : str_repeat "  " (indent w) = "")
      by (destruct Hw as [-> _]; reflexivity).
    rewrite E.
    apply (write_target_writing _ _ "") in Hw.
    apply (write_target_writing _ _ "") in Hw.
    apply (write_target_writing _ _ line) in Hw.
    apply (write_target_writing _ _ newline) in Hw.
    apply IH in Hw. revert Hw.
    rewrite !str_app_nil_r. by rewrite !str_app_assoc.
Qed.

Lemma strings_of_VStr (l : list string) :
  strings_of (List.map VStr l) = Ok l.
Proof.
  induction l as [|x l IH]; [done|]. cbn [List.map strings_of].
  by rewrite IH.
Qed.

Lemma texts_of_runs (runs : list TextRun) :
  forall acc : list string,
  fold_result (fun acc text =>
                 let* c := get_content text in
                 let* s := str_join "" c in
                 Ok (acc ++ [s])%list)
              (List.map text_node runs) acc
  = Ok (acc ++ List.map (fun t => String.concat "" (run_strings t)) runs)%list.
Proof.
  induction runs as [|t runs IH]; intros acc.
  - cbn. by rewrite app_nil_r.
  - cbn [List.map fold_result]. unfold text_node at 1.
    cbn [get_content rbind]. unfold str_join.
    rewrite strings_of_VStr. cbn [rbind]. rewrite IH.
    by rewrite <- app_assoc.
Qed.

Lemma handler_paragraph (newline : string) (p : Para) (w : Writer) :
  handler newline (paragraph_node p) "" w
  = Ok (write_lines newline (splitlines (paragraph_text p)) "" w).
Proof.
  unfold paragraph_node. cbn [handler]. unfold paragraph.
  by rewrite texts_of_runs.
Qed.

Lemma go_loop_writing (newline pre : string) (np : nat) (pars : list Para) :
  forall (i : nat) (written : string) (w : Writer),
  (i + length pars = np)%nat ->
  writing pre written w ->
  exists w',
    go_loop newline np i (List.map paragraph_node pars) w = Ok w' /\
    writing pre (written ++ render_document newline pars) w'.
Proof.
  induction pars as [|p rest IH]; intros i written w Hnp Hw.
  - exists w. split; [done|]. unfold render_document.
    cbn [List.map String.concat]. by rewrite str_app_nil_r.
  - cbn [List.map go_loop]. rewrite handler_paragraph. cbn [rbind].
    apply (write_lines_writing newline _ (splitlines (paragraph_text p)))
      in Hw.
    fold (render_paragraph newline p) in Hw.
    cbn [length] in Hnp.
    destruct rest as [|q rest].
    + replace (Z.of_nat i <? Z.of_nat np - 1)%Z with false
        by (symmetry; apply Z.ltb_ge; cbn [length] in Hnp; lia).
      exists (write_lines newline (splitlines (paragraph_text p)) "" w).
      split; [done|]. exact Hw.
    + replace (Z.of_nat i <? Z.of_nat np - 1)%Z with true
        by (symmetry; apply Z.ltb_lt; cbn [length] in Hnp; lia).
      apply (write_target_writing _ _ newline) in Hw.
      destruct (IH (S i) _ _ ltac:(cbn [length] in *; lia) Hw)
        as (w' & Hgo & Hw').
      exists w'. split; [exact Hgo|]. revert Hw'.
      unfold render_document. cbn [List.map String.concat].
      by rewrite !str_app_assoc.
Qed.

(** C7: for a document whose content is a sequence of paragraphs,
    [PlaintextWriter.write] writes, from the position of the target, each
    paragraph as the lines of the concatenation of its text runs, each line
    followed by the newline string, with one more newline string between two
    paragraphs and none after the last, cuts the target there, and returns it
    positioned at offset 0. With no target given, the stream returned holds
    just this text. *)
Theorem write_paragraphs (newline : string)
    (properties : list (string * pyval)) (pars : list Para) :
  write newline (document_node properties pars) None
  = Ok {| buffer := render_document newline pars; position := 0 |} /\
  (forall t : StringIO,
      (position t <= String.length (buffer t))%nat ->
      write newline (document_node properties pars) (Some t)
      = Ok {| buffer := str_take (position t) (buffer t)
                        ++ render_document newline pars;
              position := 0 |}).
Proof.
  assert (H : forall t : StringIO,
      (position t <= String.length (buffer t))%nat ->
      go newline (document_node properties pars)
         {| target := t; indent := -1 |}
      = Ok {| buffer := str_take (position t) (buffer t)
                        ++ render_document newline pars;
              position := 0 |}).
  { intros t Ht. unfold go, document_node. cbn [get_content rbind].
    destruct (go_loop_writing newline (str_take (position t) (buffer t))
                (length (List.map paragraph_node pars)) pars 0 ""
                {| target := t; indent := -1 |})
      as (w' & Hgo & _ & Hw').
    - by rewrite length_map.
    - split; [done|]. by apply wrote_initial.
    - rewrite Hgo. cbn [rbind]. f_equal.
      rewrite str_app_nil_l in Hw'. by apply StringIO_finish. }
  split.
  - unfold write. cbn [default]. rewrite H by (cbn; lia). reflexivity.
  - intros t Ht. unfold write. cbn [default]. by apply H.
Qed.

Definition LF : string := String "010"%char "".
Definition CR : string := String "013"%char "".

Example splitlines_boundaries :
  splitlines ("a" ++ LF ++ "b" ++ CR ++ LF ++ LF ++ "c" ++ CR)
  = ["a"; "b"; ""; "c"].
Proof. reflexivity. Qed.

Lemma write_paragraphs_witness :
  write LF
    (document_node []
       [ {| par_properties := [];
            par_runs := [ {| run_properties := [];
                             run_strings := ["ab" ++ CR ++ LF; "c"] |} ] |};
         {| par_properties := [];
            par_runs := [ {| run_properties := [];
                             run_strings := ["d"] |} ] |} ])
    (Some {| buffer := "xyz"; position := 1 |})
  = Ok {| buffer := "xab" ++ LF ++ "c" ++ LF ++ LF ++ "d" ++ LF;
          position := 0 |}.
Proof.
  refine (proj2 (write_paragraphs LF [] _)
                {| buffer := "xyz"; position := 1 |} _).
  cbn. lia.
Defined.

End PlaintextFacts.

(** * Facts about jax/interpreters/batching.py *)

Module BatchingFacts.
Import Batching.

Local Open Scope nat_scope.

(** ** The permutation of [moveaxis] *)

(** The axes other than [s], in their order. *)
Definition others (n s : nat) : list nat :=
  List.filter (fun i => negb (i =? s)) (seq 0 n).

Lemma filter_keep_all {A : Type} (f : A -> bool) (l : list A) :
  (forall x, In x l -> f x = true) -> List.filter f l = l.
Proof.
  induction l as [|x l IH]; intros H; [done|].
  cbn [List.filter]. rewrite (H x) by by left.
  f_equal. apply IH. intros y Hy. apply H. by right.
Qed.

Lemma others_seq (n s : nat) :
  s < n -> others n s = (seq 0 s ++ seq (S s) (n - S s))%list.
Proof.
  intros H. unfold others.
  replace n with (s + S (n - S s)) at 1 by lia.
  rewrite seq_app, Stdlib.Lists.List.filter_app. cbn [seq List.filter plus].
  rewrite Nat.eqb_refl. cbn [negb]. f_equal.
  - apply filter_keep_all. intros x Hx. apply in_seq in Hx.
    destruct (Nat.eqb_spec x s); [lia|done].
  - apply filter_keep_all. intros x Hx. apply in_seq in Hx.
    destruct (Nat.eqb_spec x s); [lia|done].
Qed.

Lemma others_length (n s : nat) : s < n -> length (others n s) = n - 1.
Proof.
  intros H. rewrite others_seq by done. rewrite length_app, !length_seq. lia.
Qed.

Lemma others_nth (n s j : nat) :
  s < n -> j < n - 1 ->
  nth j (others n s) 0 = if j <? s then j else S j.
Proof.
  intros Hs Hj. rewrite others_seq by done.
  destruct (Nat.ltb_spec j s) as [H|H].
  - rewrite app_nth1 by (rewrite length_seq; lia). by rewrite seq_nth.
  - rewrite app_nth2 by (rewrite length_seq; lia). rewrite length_seq.
    rewrite seq_nth by lia. lia.
Qed.

Lemma moveaxis_perm_nat (n s d : nat) :
  s < n -> d < n ->
  moveaxis_perm n (Z.of_nat s) (Z.of_nat d)
  = (take d (others n s) ++ s :: drop d (others n s))%list.
Proof.
  intros Hs Hd. unfold moveaxis_perm, list_insert_at.
  rewrite Nat2Z.id. fold (others n s). rewrite others_length by done.
  replace (Z.of_nat d <? 0)%Z with false by (symmetry; apply Z.ltb_ge; lia).
  replace (Z.to_nat (Z.min (Z.of_nat d) (Z.of_nat (n - 1)))) with d by lia.
  done.
Qed.

Lemma moveaxis_perm_length (n s d : nat) :
  s < n -> d < n ->
  length (moveaxis_perm n (Z.of_nat s) (Z.of_nat d)) = n.
Proof.
  intros Hs Hd. rewrite moveaxis_perm_nat by done.
  rewrite length_app. cbn [length].
  rewrite length_take, length_drop, others_length by done. lia.
Qed.

(** Cases on the comparisons of a goal, then linear arithmetic. *)
Ltac nat_cases :=
  repeat case_match;
  repeat match goal with
         | H : (_ <? _) = true |- _ => apply Nat.ltb_lt in H
         | H : (_ <? _) = false |- _ => apply Nat.ltb_ge in H
         | H : (_ =? _) = true |- _ => apply Nat.eqb_eq in H
         | H : (_ =? _) = false |- _ => apply Nat.eqb_neq in H
         end;
  lia.

(** The axis at position [k] of the permutation. *)
Lemma moveaxis_perm_nth (n s d k : nat) :
  s < n -> d < n -> k < n ->
  nth k (moveaxis_perm n (Z.of_nat s) (Z.of_nat d)) 0
  = if k <? d then (if k <? s then k else S k)
    else if k =? d then s
    else (if k - 1 <? s then k - 1 else k).
Proof.
  intros Hs Hd Hk. rewrite moveaxis_perm_nat by done.
  assert (Hlen : length (take d (others n s)) = d)
    by (rewrite length_take, others_length by done; lia).
  destruct (Nat.ltb_spec k d) as [H|H].
  - rewrite app_nth1 by lia. rewrite nth_firstn.
    replace (k <? d) with true by (symmetry; apply Nat.ltb_lt; lia).
    apply others_nth; lia.
  - rewrite app_nth2 by lia. rewrite Hlen.
    destruct (Nat.eqb_spec k d) as [->|Hne].
    + by rewrite Nat.sub_diag.
    + replace (k - d) with (S (k - d - 1)) by lia. cbn [nth].
      rewrite nth_skipn. replace (d + (k - d - 1)) with (k - 1) by lia.
      rewrite others_nth by lia. destruct (k - 1 <? s); lia.
Qed.

Lemma moveaxis_perm_bound (n s d k : nat) :
  s < n -> d < n -> k < n ->
  nth k (moveaxis_perm n (Z.of_nat s) (Z.of_nat d)) 0 < n.
Proof.
  intros Hs Hd Hk. rewrite moveaxis_perm_nth by done.
  nat_cases.
Qed.

(** Moving [s] to [d] and then [d] to [s] puts every axis back. *)
Lemma moveaxis_perm_inverse (n s d k : nat) :
  s < n -> d < n -> k < n ->
  nth (nth k (moveaxis_perm n (Z.of_nat d) (Z.of_nat s)) 0)
      (moveaxis_perm n (Z.of_nat s) (Z.of_nat d)) 0 = k.
Proof.
  intros Hs Hd Hk.
  rewrite (moveaxis_perm_nth n s d) by (try done; by apply moveaxis_perm_bound).
  rewrite (moveaxis_perm_nth n d s) by done.
  nat_cases.
Qed.

Lemma moveaxis_perm_NoDup (n s d : nat) :
  s < n -> d < n -> NoDup (moveaxis_perm n (Z.of_nat s) (Z.of_nat d)).
Proof.
  intros Hs Hd. apply NoDup_ListNoDup. apply (NoDup_nth _ 0).
  rewrite moveaxis_perm_length by done. intros i j Hi Hj E.
  rewrite <- (moveaxis_perm_inverse n d s i) by done.
  rewrite <- (moveaxis_perm_inverse n d s j) by done.
  by rewrite E.
Qed.

(** ** Transposing twice *)

Lemma index_of_nth (l : list nat) :
  forall k, NoDup l -> k < length l -> index_of (nth k l 0) l = k.
Proof.
  induction l as [|p l IH]; intros k Hnd Hk; [cbn in Hk; lia|].
  apply NoDup_cons in Hnd as [Hp Hnd].
  destruct k as [|k]; cbn [nth index_of].
  - by rewrite Nat.eqb_refl.
  - cbn [length] in Hk.
    destruct (Nat.eqb_spec p (nth k l 0)) as [E|_].
    + exfalso. apply Hp. rewrite E. apply list_elem_of_In.
      apply nth_In. lia.
    + f_equal. apply IH; [done|lia].
Qed.

Lemma nth_map_lt {A B : Type} (f : A -> B) (l : list A) (i : nat)
    (d : A) (d' : B) :
  i < length l -> nth i (List.map f l) d' = f (nth i l d).
Proof.
  intros H. rewrite (nth_indep _ d' (f d)) by by rewrite length_map.
  apply map_nth.
Qed.

Lemma valid_index_length (shape idx : list nat) :
  valid_index shape idx -> length idx = length shape.
Proof. apply Forall2_length. Qed.

(** Transposing by [p] and then by [q] gives an array equal to the first one
    when [q] undoes [p]. *)
Lemma transpose_inverse (x : ndarray) (p q : list nat) :
  let n := length (nd_shape x) in
  length p = n -> length q = n -> NoDup p -> NoDup q ->
  (forall k, k < n -> nth k q 0 < n) ->
  (forall k, k < n -> nth (nth k q 0) p 0 = k) ->
  array_equal (transpose (transpose x p) q) x.
Proof.
  intros n Hp Hq Hndp Hndq Hbound Hinv. split.
  - cbn [transpose nd_shape].
    apply (nth_ext _ _ 0 0).
    + by rewrite length_map.
    + rewrite length_map, Hq. intros i Hi.
      rewrite (nth_map_lt _ q i 0 0) by lia.
      rewrite (nth_map_lt _ p _ 0 0) by (rewrite Hp; by apply Hbound).
      by rewrite Hinv.
  - intros idx Hidx. apply valid_index_length in Hidx.
    cbn [transpose nd_shape] in Hidx. rewrite length_map, Hq in Hidx.
    cbn [transpose nd_item]. f_equal.
    apply (nth_ext _ _ 0 0).
    + by rewrite length_map, length_seq, Hp.
    + rewrite length_map, length_seq, Hp. intros m Hm.
      rewrite (nth_map_lt _ _ m 0 0) by (rewrite length_seq; lia).
      rewrite seq_nth by lia. cbn [plus].
      rewrite <- (Hinv m Hm) at 1.
      rewrite index_of_nth by (try done; rewrite Hp; by apply Hbound).
      rewrite (nth_map_lt _ _ _ 0 0)
        by (rewrite length_seq, Hq; by apply Hbound).
      rewrite seq_nth by (rewrite Hq; by apply Hbound). cbn [plus].
      by rewrite index_of_nth by (try done; lia).
Qed.

Lemma canonicalize_axis_valid (axis : Z) (n : nat) :
  (- Z.of_nat n <= axis < Z.of_nat n)%Z ->
  exists c, c < n /\ canonicalize_axis axis (Z.of_nat n) = Ok (Z.of_nat c).
Proof.
  intros H. unfold canonicalize_axis.
  replace (- Z.of_nat n <=? axis)%Z with true
    by (symmetry; apply Z.leb_le; lia).
  replace (axis <? Z.of_nat n)%Z with true by (symmetry; apply Z.ltb_lt; lia).
  cbn [andb]. destruct (Z.ltb_spec axis 0).
  - exists (Z.to_nat (axis + Z.of_nat n)). split; [lia|]. f_equal. lia.
  - exists (Z.to_nat axis). split; [lia|]. f_equal. lia.
Qed.

Lemma array_equal_refl (x : ndarray) : array_equal x x.
Proof. by split. Qed.

(** Moving an axis there and back. *)
Lemma moveaxis_round_trip (x : ndarray) (src dst : Z) :
  let n := Z.of_nat (length (nd_shape x)) in
  (- n <= src < n)%Z -> (- n <= dst < n)%Z ->
  exists y z,
    moveaxis x src dst = Ok y /\ moveaxis y dst src = Ok z /\
    array_equal z x.
Proof.
  intros n Hsrc Hdst. unfold moveaxis.
  destruct (Z.eqb_spec src dst) as [->|Hne].
  - exists x, x. rewrite Z.eqb_refl. by repeat split.
  - replace (dst =? src)%Z with false by (symmetry; apply Z.eqb_neq; lia).
    destruct (canonicalize_axis_valid src _ Hsrc) as (s & Hs & Es).
    destruct (canonicalize_axis_valid dst _ Hdst) as (d & Hd & Ed).
    rewrite Es, Ed. cbn [rbind].
    set (p := moveaxis_perm (length (nd_shape x)) (Z.of_nat s) (Z.of_nat d)).
    assert (Hlen : length (nd_shape (transpose x p)) = length (nd_shape x)).
    { cbn [transpose nd_shape]. rewrite length_map.
      by apply moveaxis_perm_length. }
    exists (transpose x p). rewrite Hlen, Es, Ed. cbn [rbind].
    eexists. split; [reflexivity|]. split; [reflexivity|].
    apply transpose_inverse.
    + by apply moveaxis_perm_length.
    + by apply moveaxis_perm_length.
    + by apply moveaxis_perm_NoDup.
    + by apply moveaxis_perm_NoDup.
    + intros k Hk. by apply moveaxis_perm_bound.
    + intros k Hk. by apply moveaxis_perm_inverse.
Qed.

(** C5: for an array [x] and two axes [src] and [dst] valid for its rank,
    [matchaxis] with [src == dst] returns [x] itself, and [matchaxis] from
    [src] to [dst] followed by [matchaxis] from [dst] to [src] returns an
    array equal to [x]. *)
Theorem matchaxis_round_trip (array_sum : ndarray -> Z -> result ndarray)
    (axis_name : AxisName) (sz : nat) (x : ndarray) (src dst : Z)
    (sum_match : bool) :
  let n := Z.of_nat (length (nd_shape x)) in
  (- n <= src < n)%Z -> (- n <= dst < n)%Z ->
  (src = dst ->
   matchaxis array_sum axis_name sz (Some src) (Some dst) (Array x) sum_match
   = Ok (Array x)) /\
  exists y z,
    matchaxis array_sum axis_name sz (Some src) (Some dst) (Array x) sum_match
    = Ok (Array y) /\
    matchaxis array_sum axis_name sz (Some dst) (Some src) (Array y) sum_match
    = Ok (Array z) /\
    array_equal z x.
Proof.
  intros n Hsrc Hdst. split.
  - intros ->. unfold matchaxis. cbn [aval_is_unit rbind].
    by rewrite bool_decide_eq_true_2.
  - unfold matchaxis. cbn [aval_is_unit rbind].
    destruct (decide (src = dst)) as [->|Hne].
    + exists x, x. rewrite !bool_decide_eq_true_2 by done.
      repeat split; done.
    + rewrite !bool_decide_eq_false_2 by congruence.
      destruct (moveaxis_round_trip x src dst Hsrc Hdst)
        as (y & z & Hy & Hz & Heq).
      exists y, z. by rewrite Hy, Hz.
Qed.

(** The 2 by 3 array whose element at [[i; j]] is [3 i + j]. *)
Definition sample_array : ndarray :=
  {| nd_shape := [2; 3];
     nd_item := fun idx =>
       SInt (Z.of_nat (3 * nth 0 idx 0 + nth 1 idx 0)) |}.

Lemma matchaxis_round_trip_witness :
  exists y z,
    matchaxis (fun _ _ => Raise NotImplementedError) no_axis_name 2
              (Some (-1)%Z) (Some 0%Z) (Array sample_array) false
    = Ok (Array y) /\
    matchaxis (fun _ _ => Raise NotImplementedError) no_axis_name 2
              (Some 0%Z) (Some (-1)%Z) (Array y) false
    = Ok (Array z) /\
    array_equal z sample_array.
Proof.
  apply (matchaxis_round_trip (fun _ _ => Raise NotImplementedError)
           no_axis_name 2 sample_array (-1)%Z 0%Z false); cbn; lia.
Defined.

Example moveaxis_sample :
  (let* y := moveaxis sample_array (-1) 0 in
   Ok (nd_shape y, nd_item y [2; 1])) = Ok ([3; 2], SInt 5).
Proof. reflexivity. Qed.

End BatchingFacts.

(** * Facts about jax/_src/lax/control_flow.py *)

Module ControlFlowFacts.
Import ControlFlow.

Local Open Scope Z_scope.

(** ** Machine integers and ranges *)




Lemma range_empty (lo hi : Z) : hi <= lo -> range lo hi = [].
Proof. intros H. unfold range. by replace (Z.to_nat (hi - lo)) with O by lia. Qed.


Lemma range_length (lo hi : Z) : length (range lo hi) = Z.to_nat (hi - lo).
Proof. unfold range. by rewrite length_map, length_seq. Qed.

(** ** The while path *)

Section Loops.

Context {A : Type}.
Variable body_fun : Z -> A -> A.


(** ** The scan path *)



End Loops.

(** ** [fori_loop] *)




Definition index_bound (value : Z) (concrete : bool) : IntValue :=
  {| iv_dtype := int32; iv_value := value; iv_concrete := concrete |}.


Example fori_loop_out_of_fuel :
  fori_loop {| jax_enable_checks := false; jax_disable_jit := false |}
            (fun dt => dt) int32 3
            (index_bound 2 false) (index_bound 5 false)
            (fun i val => 10 * val + i) 0
  = None.
Proof. reflexivity. Qed.

Example fori_loop_dtype_mismatch :
  fori_loop {| jax_enable_checks := false; jax_disable_jit := false |}
            (fun dt => dt) int32 3
            {| iv_dtype := int32; iv_value := 0; iv_concrete := true |}
            {| iv_dtype := int64; iv_value := 3; iv_concrete := true |}
            (fun i val => 10 * val + i) 0
  = throw TypeError.
Proof. reflexivity. Qed.

End ControlFlowFacts.

(** * More facts about jax/core.py: the shaped level and type matching *)

Module AvalFacts.
Import Core CoreFacts.

(** The fields of a shaped value: [ShapedArray] or [ConcreteArray]. *)
Definition shaped_fields (aval : AbstractValue)
  : option (list Z * dtype * bool * gmap string Z) :=
  match aval with
  | ShapedArray shape dt w ns => Some (shape, dt, w, ns)
  | ConcreteArray dt val w => Some (np_shape val, dt, w, ∅)
  | _ => None
  end.

Lemma raise_to_shaped_shaped canonicalize_dtype aval weak_type
    shape dt w ns :
  shaped_fields aval = Some (shape, dt, w, ns) ->
  raise_to_shaped canonicalize_dtype aval weak_type
  = Ok (ShapedArray shape (canonicalize_dtype dt) (default w weak_type) ns).
Proof.
  destruct aval; intros [= <- <- <- <-]; by destruct weak_type.
Qed.

Lemma raise_to_shaped_other canonicalize_dtype aval weak_type :
  shaped_fields aval = None ->
  raise_to_shaped canonicalize_dtype aval weak_type = Ok aval.
Proof. destruct aval; intros [=]; by destruct weak_type. Qed.

(** X1: [raise_to_shaped] never raises on a value of the classes of core.py
    and never returns a [ConcreteArray]: a [ShapedArray] or [ConcreteArray]
    gives the [ShapedArray] of its shape and named shape, of the canonical
    dtype, and of the weak type asked for (its own when [weak_type] is
    [None]); any other value, an [UnshapedArray] or [DShapedArray] too, is
    returned as it is, whatever [weak_type] says. *)
Theorem raise_to_shaped_level (canonicalize_dtype : dtype -> dtype)
    (aval : AbstractValue) (weak_type : option bool) :
  exists r,
    raise_to_shaped canonicalize_dtype aval weak_type = Ok r /\
    type_of r <> ClsConcreteArray /\
    match shaped_fields aval with
    | Some (shape, dt, w, ns) =>
        r = ShapedArray shape (canonicalize_dtype dt) (default w weak_type) ns
    | None => r = aval
    end.
Proof.
  destruct (shaped_fields aval) as [[[[shape dt] w] ns]|] eqn:E.
  - eexists. split; [by apply raise_to_shaped_shaped|]. done.
  - exists aval. split; [by apply raise_to_shaped_other|].
    split; [|done]. by destruct aval.
Qed.

(** X2: when [canonicalize_dtype] is idempotent, so is [raise_to_shaped]:
    raising the result once more, with the same [weak_type] argument, gives
    the result back. *)
Theorem raise_to_shaped_idempotent (canonicalize_dtype : dtype -> dtype)
    (aval r : AbstractValue) (weak_type : option bool) :
  (forall dt, canonicalize_dtype (canonicalize_dtype dt)
              = canonicalize_dtype dt) ->
  raise_to_shaped canonicalize_dtype aval weak_type = Ok r ->
  raise_to_shaped canonicalize_dtype r weak_type = Ok r.
Proof.
  intros Hidem H.
  destruct (shaped_fields aval) as [[[[shape dt] w] ns]|] eqn:E.
  - rewrite (raise_to_shaped_shaped _ _ _ _ _ _ _ E) in H.
    injection H as <-.
    rewrite (raise_to_shaped_shaped _ _ _ shape (canonicalize_dtype dt)
               (default w weak_type) ns) by done.
    rewrite Hidem. by destruct weak_type.
  - rewrite raise_to_shaped_other in H by done. injection H as <-.
    by apply raise_to_shaped_other.
Qed.

(** The canonical dtypes when 64-bit types are disabled. *)
Definition canonicalize_32 (dt : dtype) : dtype :=
  match dt with
  | int64 => int32
  | uint64 => uint32
  | float64 => float32
  | complex128 => complex64
  | other => other
  end.

Lemma raise_to_shaped_idempotent_witness :
  raise_to_shaped canonicalize_32
    (ShapedArray [3] float32 false ∅) (Some false)
  = Ok (ShapedArray [3] float32 false ∅).
Proof.
  apply (raise_to_shaped_idempotent canonicalize_32
           (ConcreteArray float64
              {| nd_shape := [3%nat]; nd_item := fun _ => SFloat (S754_zero false) |}
              true)
           (ShapedArray [3] float32 false ∅) (Some false)).
  - intros dt. by destruct dt.
  - reflexivity.
Defined.

(** ** [typematch] and [typecompat] *)

(** What [typematch] compares: the value raised to the shaped level with
    [weak_type=False], without its named shape. *)
Definition shaped_type (canonicalize_dtype : dtype -> dtype)
    (aval : AbstractValue) : AbstractValue :=
  match shaped_fields aval with
  | Some (shape, dt, _, _) => ShapedArray shape (canonicalize_dtype dt) false ∅
  | None => aval
  end.

Lemma raise_strip canonicalize_dtype aval :
  (let* r := raise_to_shaped canonicalize_dtype aval (Some false) in
   strip_named_shape r)
  = Ok (shaped_type canonicalize_dtype aval).
Proof. by destruct aval. Qed.

(** The bonus check of [typematch]. *)
Definition named_shape_check (aval1 aval2 : AbstractValue) : result unit :=
  if isinstance aval1 ClsShapedArray && isinstance aval2 ClsShapedArray
  then
    let* n1 := get_named_shape aval1 in
    let* n2 := get_named_shape aval2 in
    let* _ := join_named_shapes [n1; n2] in
    Ok tt
  else Ok tt.

Lemma typematch_unfold canonicalize_dtype aval1 aval2 :
  typematch canonicalize_dtype aval1 aval2
  = if py_eq aval1 aval2 then Ok true
    else let* _ := named_shape_check aval1 aval2 in
         Ok (py_eq (shaped_type canonicalize_dtype aval1)
                   (shaped_type canonicalize_dtype aval2)).
Proof.
  unfold typematch. destruct (py_eq aval1 aval2); [done|].
  fold (named_shape_check aval1 aval2).
  destruct (named_shape_check aval1 aval2) as [[]|e]; [|done].
  cbn [rbind].
  pose proof (raise_strip canonicalize_dtype aval1) as H1.
  pose proof (raise_strip canonicalize_dtype aval2) as H2.
  destruct (raise_to_shaped canonicalize_dtype aval1 (Some false)) as [r1|];
    [|done].
  cbn [rbind] in H1 |- *. rewrite H1. cbn [rbind].
  destruct (raise_to_shaped canonicalize_dtype aval2 (Some false)) as [r2|];
    [|done].
  cbn [rbind] in H2 |- *. by rewrite H2.
Qed.

Lemma named_shape_check_shaped aval1 aval2 s1 d1 w1 n1 s2 d2 w2 n2 :
  shaped_fields aval1 = Some (s1, d1, w1, n1) ->
  shaped_fields aval2 = Some (s2, d2, w2, n2) ->
  named_shape_check aval1 aval2
  = let* _ := join_named_shapes [n1; n2] in Ok tt.
Proof.
  destruct aval1, aval2; intros [= <- <- <- <-] [= <- <- <- <-]; reflexivity.
Qed.

Lemma named_shape_check_other aval1 aval2 :
  shaped_fields aval1 = None \/ shaped_fields aval2 = None ->
  named_shape_check aval1 aval2 = Ok tt.
Proof. destruct aval1, aval2; intros [[=]|[=]]; reflexivity. Qed.

Lemma named_shape_check_sym aval1 aval2 :
  named_shape_check aval1 aval2 = named_shape_check aval2 aval1.
Proof.
  destruct (shaped_fields aval1) as [[[[s1 d1] w1] n1]|] eqn:E1;
    [destruct (shaped_fields aval2) as [[[[s2 d2] w2] n2]|] eqn:E2|].
  - rewrite (named_shape_check_shaped _ _ _ _ _ _ _ _ _ _ E1 E2).
    rewrite (named_shape_check_shaped _ _ _ _ _ _ _ _ _ _ E2 E1).
    destruct (join_named_shapes_pair n1 n2) as [[H12 Hag]|[H12 Hag]].
    + rewrite H12, (join_named_shapes_agree n2 n1) by by apply agree_sym.
      done.
    + rewrite H12, (join_named_shapes_clash n2 n1); [done|].
      intros H. by apply Hag, agree_sym.
  - rewrite !named_shape_check_other by auto. done.
  - rewrite !named_shape_check_other by auto. done.
Qed.

Lemma py_eq_shaped_fields a b s1 d1 w1 n1 s2 d2 w2 n2 :
  shaped_fields a = Some (s1, d1, w1, n1) ->
  shaped_fields b = Some (s2, d2, w2, n2) ->
  py_eq a b = true -> s1 = s2 /\ d1 = d2 /\ n1 = n2.
Proof.
  destruct a, b; intros [= <- <- <- <-] [= <- <- <- <-]; cbn [py_eq];
    try done.
  - intros H. repeat (apply andb_prop in H as [H ?]).
    repeat case_bool_decide; done.
  - destruct (bool_decide (dt = dt0)) eqn:Ed; [|done].
    destruct (bool_decide (np_shape val = np_shape val0)) eqn:Es; [|done].
    apply bool_decide_eq_true in Ed, Es. done.
Qed.

(** X3: on two shaped values ([ShapedArray] or [ConcreteArray]), [typematch]
    raises [TypeError] when the named shapes give one axis name two sizes;
    otherwise it tells whether the shapes are equal and the dtypes have one
    canonical dtype. Weak types, named shapes that agree and the values of
    concrete arrays play no part. *)
Theorem typematch_shaped (canonicalize_dtype : dtype -> dtype)
    (aval1 aval2 : AbstractValue)
    (s1 s2 : list Z) (d1 d2 : dtype) (w1 w2 : bool) (n1 n2 : gmap string Z) :
  shaped_fields aval1 = Some (s1, d1, w1, n1) ->
  shaped_fields aval2 = Some (s2, d2, w2, n2) ->
  (agree n1 n2 ->
   typematch canonicalize_dtype aval1 aval2
   = Ok (bool_decide (s1 = s2 /\ canonicalize_dtype d1 = canonicalize_dtype d2)))
  /\
  (~ agree n1 n2 ->
   typematch canonicalize_dtype aval1 aval2 = Raise TypeError).
Proof.
  intros E1 E2. rewrite typematch_unfold.
  rewrite (named_shape_check_shaped _ _ _ _ _ _ _ _ _ _ E1 E2).
  unfold shaped_type. rewrite E1, E2. split.
  - intros Hag. rewrite join_named_shapes_agree by done. cbn [rbind].
    destruct (py_eq aval1 aval2) eqn:Eq.
    + destruct (py_eq_shaped_fields _ _ _ _ _ _ _ _ _ _ E1 E2 Eq)
        as (-> & -> & _).
      by rewrite bool_decide_eq_true_2.
    + f_equal. cbn [py_eq]. rewrite (bool_decide_eq_true_2 (∅ = ∅)) by done.
      rewrite andb_true_r. cbn [Bool.eqb]. rewrite andb_true_r.
      destruct (decide (s1 = s2)) as [Hs|Hs],
        (decide (canonicalize_dtype d1 = canonicalize_dtype d2)) as [Hd|Hd].
      * rewrite !bool_decide_eq_true_2; done.
      * rewrite (bool_decide_eq_false_2 _ Hd). cbn [andb]. symmetry.
        apply bool_decide_eq_false_2. by intros [_ ?].
      * rewrite (bool_decide_eq_false_2 _ Hs), andb_false_r. symmetry.
        apply bool_decide_eq_false_2. by intros [? _].
      * rewrite (bool_decide_eq_false_2 _ Hs), andb_false_r. symmetry.
        apply bool_decide_eq_false_2. by intros [? _].
  - intros Hag. rewrite join_named_shapes_clash by done. cbn [rbind].
    destruct (py_eq aval1 aval2) eqn:Eq; [|done].
    destruct (py_eq_shaped_fields _ _ _ _ _ _ _ _ _ _ E1 E2 Eq)
      as (_ & _ & ->).
    destruct Hag. apply agree_refl.
Qed.

Local Open Scope string_scope.

Lemma typematch_shaped_witness :
  typematch canonicalize_32
    (ShapedArray [2] float64 true {[ "i" := 4 ]})
    (ShapedArray [2] float32 false {[ "j" := 5 ]})
  = Ok (bool_decide ([2] = [2] /\
                     canonicalize_32 float64 = canonicalize_32 float32)).
Proof.
  refine (proj1 (typematch_shaped canonicalize_32
            (ShapedArray [2] float64 true {[ "i" := 4 ]})
            (ShapedArray [2] float32 false {[ "j" := 5 ]})
            [2] [2] float64 float32 true false
            {[ "i" := 4 ]} {[ "j" := 5 ]} _ _) _); try reflexivity.
  intros k x y Hx Hy.
  apply lookup_singleton_Some in Hx as [<- <-].
  apply lookup_singleton_Some in Hy as [E _]. discriminate E.
Defined.

Local Close Scope string_scope.

Lemma py_eq_shaped_type_refl canonicalize_dtype aval :
  py_eq (shaped_type canonicalize_dtype aval)
        (shaped_type canonicalize_dtype aval) = true.
Proof.
  apply py_eq_refl_not_concrete. unfold shaped_type.
  destruct (shaped_fields aval) as [[[[s d] w] n]|] eqn:E; [done|].
  by destruct aval.
Qed.

(** X4: [typematch] is reflexive and symmetric on all values. A
    [ConcreteArray] that holds a NaN is not equal to itself, and still matches
    itself; and when one order of the arguments raises [TypeError], so does
    the other. *)
Theorem typematch_refl_sym (canonicalize_dtype : dtype -> dtype)
    (aval1 aval2 : AbstractValue) :
  typematch canonicalize_dtype aval1 aval1 = Ok true /\
  typematch canonicalize_dtype aval1 aval2
  = typematch canonicalize_dtype aval2 aval1.
Proof.
  split.
  - rewrite typematch_unfold. destruct (py_eq aval1 aval1); [done|].
    destruct (shaped_fields aval1) as [[[[s d] w] n]|] eqn:E.
    + rewrite (named_shape_check_shaped _ _ _ _ _ _ _ _ _ _ E E).
      rewrite join_named_shapes_self. cbn [rbind].
      by rewrite py_eq_shaped_type_refl.
    + rewrite named_shape_check_other by auto. cbn [rbind].
      by rewrite py_eq_shaped_type_refl.
  - rewrite !typematch_unfold, (py_eq_sym aval2 aval1).
    rewrite (named_shape_check_sym aval2 aval1).
    by rewrite (py_eq_sym (shaped_type canonicalize_dtype aval2)).
Qed.

Lemma typematch_joined canonicalize_dtype ref s d w1 n1 w n :
  shaped_fields ref = Some (s, d, w1, n1) ->
  agree n1 n ->
  typematch canonicalize_dtype ref (ShapedArray s d w n) = Ok true.
Proof.
  intros E Hag.
  destruct (typematch_shaped canonicalize_dtype ref (ShapedArray s d w n)
              s s d d w1 w n1 n E eq_refl) as [H _].
  rewrite H by done. by rewrite bool_decide_eq_true_2.
Qed.

Lemma typematch_unshaped canonicalize_dtype ref s d w1 n1 dt w :
  shaped_fields ref = Some (s, d, w1, n1) ->
  typematch canonicalize_dtype ref (UnshapedArray dt w) = Ok false.
Proof.
  intros E. rewrite typematch_unfold.
  rewrite named_shape_check_other by (by right).
  unfold shaped_type. rewrite E. by destruct ref.
Qed.

Lemma agree_empty_r (n : gmap string Z) : agree n ∅.
Proof. intros k x y _ H. by rewrite lookup_empty in H. Qed.

Lemma agree_empty_l (n : gmap string Z) : agree ∅ n.
Proof. intros k x y H. by rewrite lookup_empty in H. Qed.

Lemma agree_union_l (a b : gmap string Z) : agree a b -> agree a (b ∪ a).
Proof.
  intros H k x y Ha Hu. apply lookup_union_Some_raw in Hu as [Hb|[_ Ha']].
  - eauto.
  - congruence.
Qed.

Lemma agree_union_r (a b : gmap string Z) : agree a (a ∪ b).
Proof.
  intros k x y Ha Hu. apply lookup_union_Some_raw in Hu as [Ha'|[Hn _]];
    congruence.
Qed.

(** X5: [typecompat(aval_ref, aval)] on two shaped values ([ShapedArray] or
    [ConcreteArray]) returns [True] when the shapes are equal, the dtypes are
    equal and the named shapes give no axis name two sizes, and [False]
    otherwise; it never raises. Unlike [typematch], it tells apart two dtypes
    of one canonical dtype. *)
Theorem typecompat_shaped (canonicalize_dtype : dtype -> dtype) (cfg : Config)
    (aval_ref aval : AbstractValue)
    (s1 s2 : list Z) (d1 d2 : dtype) (w1 w2 : bool) (n1 n2 : gmap string Z) :
  shaped_fields aval_ref = Some (s1, d1, w1, n1) ->
  shaped_fields aval = Some (s2, d2, w2, n2) ->
  (s1 = s2 /\ d1 = d2 /\ agree n1 n2 ->
   typecompat canonicalize_dtype cfg aval_ref aval = Ok true) /\
  (~ (s1 = s2 /\ d1 = d2 /\ agree n1 n2) ->
   typecompat canonicalize_dtype cfg aval_ref aval = Ok false).
Proof.
  intros E1 E2.
  assert (Hcase : (s1 = s2 /\ d1 = d2 /\ agree n1 n2 /\
                   typecompat canonicalize_dtype cfg aval_ref aval = Ok true)
                  \/ (~ (s1 = s2 /\ d1 = d2 /\ agree n1 n2) /\
                      typecompat canonicalize_dtype cfg aval_ref aval
                      = Ok false)).
  { unfold typecompat.
    destruct aval_ref as [| | | | |rs rd rw rn|rd rv rw]; try done;
      destruct aval as [| | | | |xs xd xw xn|xd xv xw]; try done;
      injection E1 as <- <- <- <-; injection E2 as <- <- <- <-;
      unfold lattice_join, isinstance; cbn [type_of]; eval_issubclass;
      cbn [join].
    - unfold ShapedArray_join.
      cbn [get_shape get_dtype get_weak_type get_named_shape rbind].
      rewrite symbolic_equal_shape_int. cbn [rbind].
      destruct (decide (xs = rs)) as [->|Hs];
        [rewrite (bool_decide_eq_true_2 (rs = rs)) by done
        |rewrite (bool_decide_eq_false_2 _ Hs)]; cbn [andb];
        (destruct (decide (xd = rd)) as [->|Hd];
         [rewrite !(bool_decide_eq_true_2 (rd = rd)) by done
         |rewrite !(bool_decide_eq_false_2 _ Hd)]); cbn [andb rbind].
      + destruct (join_named_shapes_pair xn rn) as [[-> Hag]|[-> Hag]];
          cbn [rbind]; unfold ShapedArray_update; cbn [default].
        * left. split; [done|]. split; [done|]. split; [by apply agree_sym|].
          rewrite (typematch_joined _ _ rs rd rw rn); [done|done|].
          by apply agree_union_l, agree_sym.
        * right. split; [|done]. intros (_ & _ & H). by apply Hag, agree_sym.
      + right. split; [|done]. intros (_ & H & _). by apply Hd.
      + right. split; [by intros (H & _)|].
        by rewrite (typematch_unshaped _ _ rs rd rw rn).
      + right. split; [|done]. by intros (H & _).
    - unfold ShapedArray_join.
      cbn [get_shape get_dtype get_weak_type get_named_shape rbind].
      rewrite symbolic_equal_shape_int. cbn [rbind].
      destruct (decide (rs = np_shape xv)) as [->|Hs];
        [rewrite (bool_decide_eq_true_2 (np_shape xv = np_shape xv)) by done
        |rewrite (bool_decide_eq_false_2 _ Hs)]; cbn [andb];
        (destruct (decide (rd = xd)) as [->|Hd];
         [rewrite !(bool_decide_eq_true_2 (xd = xd)) by done
         |rewrite !(bool_decide_eq_false_2 _ Hd)]); cbn [andb rbind].
      + rewrite (join_named_shapes_agree rn ∅) by apply agree_empty_r.
        cbn [rbind]; unfold ShapedArray_update; cbn [default].
        left. split; [done|]. split; [done|]. split; [apply agree_empty_r|].
        rewrite (typematch_joined _ _ (np_shape xv) xd rw rn); [done|done|].
        apply agree_union_r.
      + right. split; [|done]. by intros (_ & H & _).
      + right. split; [by intros (H & _)|].
        by rewrite (typematch_unshaped _ _ rs xd rw rn).
      + right. split; [|done]. by intros (H & _).
    - unfold ShapedArray_join.
      cbn [get_shape get_dtype get_weak_type get_named_shape rbind].
      rewrite symbolic_equal_shape_int. cbn [rbind].
      destruct (decide (xs = np_shape rv)) as [->|Hs];
        [rewrite (bool_decide_eq_true_2 (np_shape rv = np_shape rv)) by done
        |rewrite (bool_decide_eq_false_2 _ Hs)]; cbn [andb];
        (destruct (decide (xd = rd)) as [->|Hd];
         [rewrite !(bool_decide_eq_true_2 (rd = rd)) by done
         |rewrite !(bool_decide_eq_false_2 _ Hd)]); cbn [andb rbind].
      + rewrite (join_named_shapes_agree xn ∅) by apply agree_empty_r.
        cbn [rbind]; unfold ShapedArray_update; cbn [default].
        left. split; [done|]. split; [done|]. split; [apply agree_empty_l|].
        rewrite (typematch_joined _ _ (np_shape rv) rd rw ∅); [done|done|].
        apply agree_empty_l.
      + right. split; [|done]. intros (_ & H & _). by apply Hd.
      + right. split; [by intros (H & _)|].
        by rewrite (typematch_unshaped _ _ (np_shape rv) rd rw ∅).
      + right. split; [|done]. by intros (H & _).
    - unfold ConcreteArray_join.
      destruct (py_eq (ConcreteArray xd xv xw) (ConcreteArray rd rv rw)) eqn:Eq.
      + destruct (py_eq_shaped_fields
                    (ConcreteArray xd xv xw) (ConcreteArray rd rv rw)
                    (np_shape xv) xd xw ∅ (np_shape rv) rd rw ∅
                    eq_refl eq_refl Eq) as (Hs & Hd & _).
        left. split; [done|]. split; [done|]. split; [apply agree_empty_l|].
        cbn [rbind]. rewrite typematch_unfold.
        by rewrite (py_eq_sym (ConcreteArray rd rv rw)), Eq.
      + cbn [get_shape get_dtype get_weak_type get_named_shape rbind].
        destruct (decide (np_shape xv = np_shape rv)) as [Hs|Hs].
        * rewrite Hs.
          rewrite (bool_decide_eq_true_2
                     (List.map DimInt (np_shape rv)
                      = List.map DimInt (np_shape rv))) by done.
          cbn [andb].
          destruct (decide (xd = rd)) as [->|Hd];
            [rewrite !(bool_decide_eq_true_2 (rd = rd)) by done
            |rewrite !(bool_decide_eq_false_2 _ Hd)]; cbn [andb rbind].
          -- rewrite join_named_shapes_empty_l. cbn [rbind].
             left. split; [done|]. split; [done|]. split; [apply agree_empty_l|].
             rewrite (typematch_joined _ _ (np_shape rv) rd rw ∅);
               [done|done|apply agree_empty_l].
          -- right. split; [|done]. intros (_ & H & _). by apply Hd.
        * rewrite (bool_decide_eq_false_2
                     (List.map DimInt (np_shape xv)
                      = List.map DimInt (np_shape rv)))
            by (by rewrite DimInt_map_inj).
          cbn [andb].
          destruct (decide (xd = rd)) as [->|Hd];
            [rewrite !(bool_decide_eq_true_2 (rd = rd)) by done
            |rewrite !(bool_decide_eq_false_2 _ Hd)]; cbn [andb rbind].
          -- right. split; [intros (H & _); by apply Hs|].
             by rewrite (typematch_unshaped _ _ (np_shape rv) rd rw ∅).
          -- right. split; [|done]. intros (H & _). by apply Hs. }
  split.
  - intros H. by destruct Hcase as [(_ & _ & _ & ?)|[? _]].
  - intros H. destruct Hcase as [(? & ? & ? & _)|[_ ?]]; [|done].
    by destruct H.
Qed.

Local Open Scope string_scope.

Lemma typecompat_shaped_witness :
  typecompat canonicalize_32
    {| jax_enable_checks := true; jax_disable_jit := false |}
    (ShapedArray [2] float32 true {[ "i" := 4 ]})
    (ConcreteArray float32
       {| nd_shape := [2%nat]; nd_item := fun _ => SFloat S754_nan |} false)
  = Ok true.
Proof.
  refine (proj1 (typecompat_shaped canonicalize_32
            {| jax_enable_checks := true; jax_disable_jit := false |}
            (ShapedArray [2] float32 true {[ "i" := 4 ]})
            (ConcreteArray float32
               {| nd_shape := [2%nat]; nd_item := fun _ => SFloat S754_nan |}
               false)
            [2] [2] float32 float32 true false {[ "i" := 4 ]} ∅ _ _) _);
    try reflexivity.
  split; [reflexivity|]. split; [reflexivity|].
  intros k x y _ Hy. discriminate Hy.
Defined.

Local Close Scope string_scope.

End AvalFacts.

(** * More facts about jax/core.py: the thread-local trace state *)

Module TraceStateFacts.
Import Core.

(** A body that leaves the trace state as it found it, whether it returns or
    raises. *)
Definition balanced {Any A : Type} (body : M Any A) : Prop :=
  forall tls, trace_state (body tls).2 = trace_state tls.

Lemma list_pop_app {B : Type} (l : list B) (x : B) :
  list_pop (l ++ [x]) = Ok l.
Proof.
  unfold list_pop. destruct (l ++ [x])%list eqn:E.
  - by destruct l.
  - rewrite <- E. by rewrite removelast_last.
Qed.

Lemma pop_push {Any : Type} (s : TraceStack Any) (m : MainTrace Any) :
  pop (push s m) = Ok s.
Proof.
  destruct s as [st dyn]. unfold pop, push. cbn [stack dynamic].
  destruct (st ++ [m])%list eqn:E.
  - by destruct st.
  - rewrite <- E. by rewrite removelast_last.
Qed.

(** X6: [with new_main(trace_type, dynamic, **payload) as main: body], for a
    body that leaves the trace state as it found it. The body runs with
    [main] on top of the stack, the level of [main] being the height the
    stack had, and with [main] as the dynamic trace when [dynamic] is set;
    the statement ends as the body does, by a value or by an exception; and
    afterwards the trace state is the one before the statement, the
    configuration module having been told the old dynamic trace again when
    [dynamic] is set. *)
Theorem new_main_balanced {Any A : Type} (trace_type : TraceType)
    (is_dynamic : bool) (payload : gmap string Any)
    (body : MainTrace Any -> M Any A) (tls : ThreadLocalState Any) :
  (forall main, balanced (body main)) ->
  let stack0 := trace_stack (trace_state tls) in
  let main := mkMainTrace (next_level stack0) trace_type payload in
  exists entered : ThreadLocalState Any,
    stack (trace_stack (trace_state entered)) = (stack stack0 ++ [main])%list /\
    dynamic (trace_stack (trace_state entered))
    = (if is_dynamic then main else dynamic stack0) /\
    (new_main trace_type is_dynamic payload body tls).1
    = (body main entered).1 /\
    trace_state (new_main trace_type is_dynamic payload body tls).2
    = trace_state tls /\
    (is_dynamic = true ->
     dynamic_trace_state (new_main trace_type is_dynamic payload body tls).2
     = dynamic stack0).
Proof.
  intros Hbal stack0 main.
  destruct tls as [[[st dyn] sub env] jit].
  unfold new_main. cbn [trace_state trace_stack] in *.
  fold stack0. fold main.
  set (entered :=
         if is_dynamic
         then _update_thread_local_jit_state main
                (set_trace_stack
                   (set_dynamic main
                      (trace_stack
                         (trace_state
                            (set_trace_stack (push stack0 main)
                               {| trace_state :=
                                    {| trace_stack := stack0;
                                       substack := sub; axis_env := env |};
                                  dynamic_trace_state := jit |}))))
                   (set_trace_stack (push stack0 main)
                      {| trace_state :=
                           {| trace_stack := stack0;
                              substack := sub; axis_env := env |};
                         dynamic_trace_state := jit |}))
         else set_trace_stack (push stack0 main)
                {| trace_state :=
                     {| trace_stack := stack0;
                        substack := sub; axis_env := env |};
                   dynamic_trace_state := jit |}).
  exists entered.
  pose proof (Hbal main entered) as Hb.
  destruct (body main entered) as [r tls'] eqn:Eb. cbn [snd fst] in *.
  assert (Hent : trace_state entered
                 = {| trace_stack :=
                        {| stack := (st ++ [main])%list;
                           dynamic := if is_dynamic then main else dyn |};
                      substack := sub; axis_env := env |}).
  { subst entered. by destruct is_dynamic. }
  rewrite Hent in Hb.
  split; [by rewrite Hent|]. split; [by rewrite Hent|].
  rewrite Hb. cbn [trace_stack].
  change {| stack := (st ++ [main])%list;
            dynamic := if is_dynamic then main else dyn |}
    with (push {| stack := st;
                  dynamic := if is_dynamic then main else dyn |} main).
  rewrite pop_push.
  destruct tls' as [ts' jit']. cbn [trace_state] in Hb. subst ts'.
  destruct is_dynamic; cbn.
  - split; [done|]. split; [done|]. intros _. by destruct dyn.
  - split; [done|]. split; [done|]. done.
Qed.

Lemma new_main_balanced_witness :
  (new_main (A := unit) (Any := unit) (OtherTrace "JVPTrace") true ∅
            (fun _ tls => (Raise ValueError, tls))
            ThreadLocalState_init).1
  = Raise ValueError /\
  trace_state
    (new_main (A := unit) (Any := unit) (OtherTrace "JVPTrace") true ∅
              (fun _ tls => (Raise ValueError, tls))
              ThreadLocalState_init).2
  = TraceState_init.
Proof.
  destruct (new_main_balanced (A := unit) (OtherTrace "JVPTrace") true ∅
              (fun _ tls => (Raise ValueError, tls))
              (ThreadLocalState_init (Any := unit)))
    as (entered & _ & _ & Hr & Hs & _).
  - intros main tls. reflexivity.
  - split; [exact Hr | exact Hs].
Defined.

(** X7: [with new_base_main(trace_type) as main: body], on a stack that is
    not empty and for a body that leaves the trace state as it found it. The
    body runs with the new main trace, of level 0, at the bottom of the stack
    in the place of the old one and as the dynamic trace, the traces above
    it staying where they are; the statement ends as the body does; and
    afterwards the trace state is the one before the statement, and the
    configuration module has been told the old dynamic trace again. *)
Theorem new_base_main_balanced {Any A : Type} (trace_type : TraceType)
    (body : MainTrace Any -> M Any A) (tls : ThreadLocalState Any)
    (prev_base : MainTrace Any) (rest : list (MainTrace Any)) :
  (forall main, balanced (body main)) ->
  stack (trace_stack (trace_state tls)) = prev_base :: rest ->
  let main := mkMainTrace 0 trace_type ∅ in
  exists entered : ThreadLocalState Any,
    stack (trace_stack (trace_state entered)) = main :: rest /\
    dynamic (trace_stack (trace_state entered)) = main /\
    dynamic_trace_state entered = main /\
    (new_base_main trace_type body tls).1 = (body main entered).1 /\
    trace_state (new_base_main trace_type body tls).2 = trace_state tls /\
    dynamic_trace_state (new_base_main trace_type body tls).2
    = dynamic (trace_stack (trace_state tls)).
Proof.
  intros Hbal Hst main.
  destruct tls as [[[st dyn] sub env] jit].
  cbn [trace_state trace_stack stack dynamic] in *. subst st.
  unfold new_base_main. cbn [trace_state trace_stack stack dynamic].
  fold main.
  set (entered :=
         {| trace_state :=
              {| trace_stack := {| stack := main :: rest; dynamic := main |};
                 substack := sub; axis_env := env |};
            dynamic_trace_state := main |}).
  exists entered.
  change (set_base main _) with (Ok {| stack := main :: rest; dynamic := main |}).
  cbn [set_trace_stack set_dynamic trace_state trace_stack substack axis_env
       stack dynamic dynamic_trace_state _update_thread_local_jit_state
       level Core.trace_type payload].
  change (_update_thread_local_jit_state main _) with entered.
  pose proof (Hbal main entered) as Hb.
  destruct (body main entered) as [r [ts' jit']] eqn:Eb.
  cbn [snd fst trace_state] in *. subst ts'.
  cbn. repeat split; try done. by destruct dyn.
Qed.

Lemma new_base_main_balanced_witness :
  (new_base_main (A := Z) (Any := unit) EvalTrace
                 (fun main tls => (Ok (level main), tls))
                 ThreadLocalState_init).1
  = Ok 0 /\
  trace_state
    (new_base_main (A := Z) (Any := unit) EvalTrace
                   (fun main tls => (Ok (level main), tls))
                   ThreadLocalState_init).2
  = TraceState_init.
Proof.
  destruct (new_base_main_balanced (A := Z) EvalTrace
              (fun main tls => (Ok (level main), tls))
              (ThreadLocalState_init (Any := unit))
              (mkMainTrace 0 EvalTrace ∅) [])
    as (entered & _ & _ & _ & Hr & Hs & _).
  - intros main tls. reflexivity.
  - reflexivity.
  - split; [exact Hr | exact Hs].
Defined.

Lemma cur_sublevel_app {Any : Type} (tls : ThreadLocalState Any)
    (sub : list Z) (x : Z) :
  cur_sublevel (set_substack (sub ++ [x]) tls) = Ok x.
Proof.
  unfold cur_sublevel. cbn [set_substack trace_state substack].
  destruct (sub ++ [x])%list eqn:E.
  - by destruct sub.
  - rewrite <- E. f_equal. apply Stdlib.Lists.List.last_last.
Qed.

(** X8: [with new_sublevel(): body], for a body that leaves the trace state
    as it found it. In the body the current sublevel is the height the
    substack had; the statement ends as the body does; and afterwards the
    trace state is the one before the statement. *)
Theorem new_sublevel_balanced {Any A : Type}
    (body : M Any A) (tls : ThreadLocalState Any) :
  balanced body ->
  exists entered : ThreadLocalState Any,
    cur_sublevel entered
    = Ok (Z.of_nat (length (substack (trace_state tls)))) /\
    trace_stack (trace_state entered) = trace_stack (trace_state tls) /\
    (new_sublevel body tls).1 = (body entered).1 /\
    trace_state (new_sublevel body tls).2 = trace_state tls.
Proof.
  intros Hbal. destruct tls as [[ts sub env] jit].
  unfold new_sublevel. cbn [trace_state substack].
  set (entered := set_substack (sub ++ [Z.of_nat (length sub)]) _).
  exists entered.
  pose proof (Hbal entered) as Hb.
  destruct (body entered) as [r [ts' jit']] eqn:Eb.
  cbn [snd fst trace_state] in *. subst ts'.
  subst entered. cbn [set_substack trace_state substack trace_stack axis_env].
  rewrite list_pop_app. cbn. split; [|done].
  apply cur_sublevel_app.
Qed.

Lemma new_sublevel_balanced_witness :
  (new_sublevel (Any := unit) (fun tls => (cur_sublevel tls, tls))
                ThreadLocalState_init).1
  = Ok 1 /\
  trace_state
    (new_sublevel (Any := unit) (fun tls => (cur_sublevel tls, tls))
                  ThreadLocalState_init).2
  = TraceState_init.
Proof.
  destruct (new_sublevel_balanced (Any := unit)
              (fun tls => (cur_sublevel tls, tls)) ThreadLocalState_init)
    as (entered & Hc & _ & Hr & Hs).
  - intros tls. reflexivity.
  - split; [|exact Hs]. rewrite Hr. exact Hc.
Defined.

(** ** The axis environment *)

Lemma find_app' {B : Type} (p : B -> bool) (l1 l2 : list B) :
  List.find p (l1 ++ l2)
  = match List.find p l1 with
    | Some x => Some x
    | None => List.find p l2
    end.
Proof.
  induction l1 as [|x l1 IH]; [done|]. simpl. by destruct (p x).
Qed.

Lemma find_map' {B C : Type} (p : C -> bool) (f : B -> C) (l : list B) :
  List.find p (List.map f l)
  = option_map f (List.find (fun x => p (f x)) l).
Proof.
  induction l as [|x l IH]; [done|]. simpl. by destruct (p (f x)).
Qed.

(** X9: [with extend_axis_env(axis_name, size, tag): body], for a body that
    leaves the trace state as it found it. In the body [axis_frame] finds the
    new frame under [axis_name], whatever frames of that name the environment
    held, and finds under any other name what it found outside; where it
    raised [NameError] outside it does so inside, the new name being listed
    first unless it is a [_TempAxisName]. The statement ends as the body
    does, and afterwards the trace state is the one before the statement. *)
Theorem extend_axis_env_scope {Any A : Type} (axis_name : AxisName) (size : Z)
    (tag : option (MainTrace Any)) (body : M Any A)
    (tls : ThreadLocalState Any) :
  balanced body ->
  exists entered : ThreadLocalState Any,
    axis_frame axis_name entered
    = Found (mkAxisEnvFrame axis_name size tag) /\
    (forall other, other <> axis_name ->
       axis_frame other entered
       = match axis_frame other tls with
         | Found frame => Found frame
         | NameError named_axes =>
             NameError (if is_temp axis_name then named_axes
                        else axis_name :: named_axes)
         end) /\
    (extend_axis_env axis_name size tag body tls).1 = (body entered).1 /\
    trace_state (extend_axis_env axis_name size tag body tls).2
    = trace_state tls.
Proof.
  intros Hbal. destruct tls as [[ts sub env] jit].
  unfold extend_axis_env. cbn [trace_state axis_env].
  set (frame := mkAxisEnvFrame axis_name size tag).
  set (entered := set_axis_env (env ++ [frame]) _).
  exists entered.
  pose proof (Hbal entered) as Hb.
  destruct (body entered) as [r [ts' jit']] eqn:Eb.
  cbn [snd fst trace_state] in *. subst ts'.
  subst entered. cbn [set_axis_env trace_state substack trace_stack axis_env].
  rewrite list_pop_app. cbn [fst snd set_axis_env trace_state substack
                             trace_stack axis_env].
  split; [|split; [|done]].
  - unfold axis_frame, set_axis_env. cbn [trace_state axis_env].
    rewrite rev_unit.
    cbn [List.find frame_name frame]. by rewrite bool_decide_eq_true_2.
  - intros other Hne. unfold axis_frame, set_axis_env.
    cbn [trace_state axis_env]. rewrite rev_unit. cbn [List.find List.map List.filter frame_name frame].
    rewrite bool_decide_eq_false_2 by done.
    destruct (List.find _ (rev env)); [done|]. by destruct axis_name.
Qed.

Local Open Scope string_scope.

Lemma extend_axis_env_scope_witness :
  (extend_axis_env (Any := unit) (Name "i") 8 None
     (fun tls => (match axis_frame (Name "i") tls with
                  | Found frame => Ok (frame_size frame)
                  | NameError _ => Raise KeyError
                  end, tls))
     ThreadLocalState_init).1
  = Ok 8.
Proof.
  destruct (extend_axis_env_scope (Any := unit) (Name "i") 8 None
              (fun tls => (match axis_frame (Name "i") tls with
                           | Found frame => Ok (frame_size frame)
                           | NameError _ => Raise KeyError
                           end, tls))
              ThreadLocalState_init)
    as (entered & Hf & _ & Hr & _).
  - intros tls. reflexivity.
  - rewrite Hr. cbn [fst]. by rewrite Hf.
Defined.

Local Close Scope string_scope.

Lemma pop_frames_app {Any B : Type} (frames : list B) :
  forall (added env : list (AxisEnvFrame Any)) (tls : ThreadLocalState Any),
  length frames = length added ->
  pop_frames frames (set_axis_env (env ++ added) tls)
  = (Ok tt, set_axis_env env tls).
Proof.
  induction frames as [|b frames IH]; intros added env tls Hlen.
  - destruct added; [|done]. by rewrite app_nil_r.
  - destruct added as [|x added _] using rev_ind; [done|].
    rewrite length_app in Hlen. cbn in Hlen.
    cbn [pop_frames set_axis_env trace_state axis_env].
    rewrite app_assoc, list_pop_app.
    change (set_axis_env (env ++ added) _)
      with (set_axis_env (env ++ added) tls).
    apply IH. lia.
Qed.

(** The frame that [extend_axis_env_nd] makes of a pair. *)
Definition frame_of {Any : Type} (axis : AxisName * Z) : AxisEnvFrame Any :=
  mkAxisEnvFrame axis.1 axis.2 None.

(** X10: [with extend_axis_env_nd(axes): body], for a body that leaves the
    trace state as it found it. In the body [axis_frame] finds under a name
    the frame of the last pair of [axes] that has this name, and, when
    [axes] has none, what it found outside; where it raised [NameError]
    outside it does so inside, the names of [axes] being listed first, the
    last one foremost. The statement ends as the body does, and afterwards
    the trace state is the one before the statement: one frame is popped for
    each pair. *)
Theorem extend_axis_env_nd_scope {Any A : Type} (axes : list (AxisName * Z))
    (body : M Any A) (tls : ThreadLocalState Any) :
  balanced body ->
  exists entered : ThreadLocalState Any,
    (forall name,
       axis_frame name entered
       = match List.find (fun axis => bool_decide (axis.1 = name)) (rev axes)
         with
         | Some axis => Found (frame_of axis)
         | None =>
             match axis_frame name tls with
             | Found frame => Found frame
             | NameError named_axes =>
                 NameError
                   (List.filter (fun name => negb (is_temp name))
                                (List.map fst (rev axes)) ++ named_axes)
             end
         end) /\
    (extend_axis_env_nd axes body tls).1 = (body entered).1 /\
    trace_state (extend_axis_env_nd axes body tls).2 = trace_state tls.
Proof.
  intros Hbal. destruct tls as [[ts sub env] jit].
  unfold extend_axis_env_nd. cbn [trace_state axis_env].
  assert (Hframes :
            List.map (fun '(axis_name, size) =>
                        mkAxisEnvFrame (Any := Any) axis_name size None) axes
            = List.map frame_of axes).
  { apply map_ext. by intros [? ?]. }
  rewrite Hframes.
  set (entered := set_axis_env (env ++ List.map frame_of axes) _).
  exists entered.
  pose proof (Hbal entered) as Hb.
  destruct (body entered) as [r [ts' jit']] eqn:Eb.
  cbn [snd fst trace_state] in *. subst ts'.
  split; [|split].
  - intros name. unfold axis_frame. subst entered. unfold set_axis_env.
    cbn [trace_state axis_env].
    rewrite rev_app_distr, <- map_rev, find_app', find_map'.
    cbn [frame_of frame_name].
    destruct (List.find _ (rev axes)) as [axis|]; [done|]. cbn [option_map].
    destruct (List.find _ (rev env)); [done|].
    rewrite List.map_app, Stdlib.Lists.List.filter_app.
    rewrite List.map_map. cbn [frame_of frame_name]. done.
  - subst entered. cbn [set_axis_env trace_state substack trace_stack axis_env].
    change {| trace_state := {| trace_stack := ts; substack := sub;
                                axis_env := (env ++ List.map frame_of axes)%list |};
              dynamic_trace_state := jit' |}
      with (set_axis_env (env ++ List.map frame_of axes)
              {| trace_state := {| trace_stack := ts; substack := sub;
                                   axis_env := env |};
                 dynamic_trace_state := jit' |}).
    rewrite pop_frames_app by by rewrite length_map. done.
  - subst entered. cbn [set_axis_env trace_state substack trace_stack axis_env].
    change {| trace_state := {| trace_stack := ts; substack := sub;
                                axis_env := (env ++ List.map frame_of axes)%list |};
              dynamic_trace_state := jit' |}
      with (set_axis_env (env ++ List.map frame_of axes)
              {| trace_state := {| trace_stack := ts; substack := sub;
                                   axis_env := env |};
                 dynamic_trace_state := jit' |}).
    rewrite pop_frames_app by by rewrite length_map. done.
Qed.

Local Open Scope string_scope.

Lemma extend_axis_env_nd_scope_witness :
  (extend_axis_env_nd (Any := unit) [(Name "i", 2); (Name "i", 3)]
     (fun tls => (match axis_frame (Name "i") tls with
                  | Found frame => Ok (frame_size frame)
                  | NameError _ => Raise KeyError
                  end, tls))
     ThreadLocalState_init).1
  = Ok 3.
Proof.
  destruct (extend_axis_env_nd_scope (Any := unit)
              [(Name "i", 2); (Name "i", 3)]
              (fun tls => (match axis_frame (Name "i") tls with
                           | Found frame => Ok (frame_size frame)
                           | NameError _ => Raise KeyError
                           end, tls))
              ThreadLocalState_init)
    as (entered & Hf & Hr & _).
  - intros tls. reflexivity.
  - rewrite Hr. cbn [fst]. by rewrite (Hf (Name "i")).
Defined.

Local Close Scope string_scope.

(** ** [find_top_trace] *)

Lemma fold_max {B : Type} (key : B -> Z) (rest : list B) :
  forall best : B,
  let r := fold_left (fun best y => if key y >? key best then y else best)
                     rest best in
  (r = best \/ r ∈ rest) /\ key best <= key r /\
  (forall y, y ∈ rest -> key y <= key r).
Proof.
  induction rest as [|x rest IH]; intros best; cbn [fold_left].
  - split; [by left|]. split; [lia|]. intros y Hy.
    by apply elem_of_nil in Hy.
  - destruct (IH (if key x >? key best then x else best)) as (Hin & Hle & Hall).
    split; [|split].
    + destruct Hin as [->|Hin].
      * destruct (key x >? key best); [right; by left|by left].
      * right. by right.
    + destruct (Z.gtb_spec (key x) (key best)); lia.
    + intros y Hy. apply elem_of_cons in Hy as [->|Hy]; [|by apply Hall].
      destruct (Z.gtb_spec (key x) (key best)); lia.
Qed.

Lemma py_max_spec {B : Type} (key : B -> Z) (xs : list B) :
  match py_max key xs with
  | None => xs = []
  | Some b => b ∈ xs /\ forall y, y ∈ xs -> key y <= key b
  end.
Proof.
  destruct xs as [|x rest]; [done|]. cbn [py_max].
  destruct (fold_max key rest x) as (Hin & Hle & Hall). split.
  - destruct Hin as [->|Hin]; [by left|by right].
  - intros y Hy. apply elem_of_cons in Hy as [->|Hy]; [done|by apply Hall].
Qed.

(** The level a tracer carries is the level of its main trace, as
    [Trace.__init__] sets it. *)
Definition tracer_ok {Any : Type} (x : Operand Any) : Prop :=
  match x with
  | Tracer t => Trace_level t = level (main t)
  | NotTracer => True
  end.

(** The level of [x] is at most [n], when [x] is a tracer. *)
Definition level_le {Any : Type} (n : Z) (x : Operand Any) : Prop :=
  match x with
  | Tracer t => Trace_level t <= n
  | NotTracer => True
  end.

(** X11: [find_top_trace(xs)], when the substack is not empty and every
    tracer among [xs] carries the level of its main trace, returns a trace
    at the current sublevel whose level is at least the level of the dynamic
    trace and the level of every tracer of [xs]; its main trace is the
    dynamic trace or the main trace of one of these tracers. *)
Theorem find_top_trace_level {Any : Type} (xs : list (Operand Any))
    (tls : ThreadLocalState Any) :
  Forall tracer_ok xs ->
  substack (trace_state tls) <> [] ->
  exists t : Trace Any,
    find_top_trace xs tls = Ok t /\
    Trace_level t = level (main t) /\
    level (dynamic (trace_stack (trace_state tls))) <= Trace_level t /\
    Forall (level_le (Trace_level t)) xs /\
    (main t = dynamic (trace_stack (trace_state tls)) \/
     exists t', Tracer t' ∈ xs /\ main t = main t') /\
    cur_sublevel tls = Ok (sublevel t).
Proof.
  intros Hok Hsub. unfold find_top_trace, with_cur_sublevel.
  assert (Hcur : exists s, cur_sublevel tls = Ok s).
  { unfold cur_sublevel. destruct (substack (trace_state tls)); [done|].
    by eexists. }
  destruct Hcur as [s Hs]. rewrite Hs. cbn [rbind].
  set (tracers := omap (fun x => match x with
                                 | Tracer t => Some t
                                 | NotTracer => None
                                 end) xs).
  assert (Hmem : forall t, t ∈ tracers <-> Tracer t ∈ xs).
  { intros t. subst tracers. rewrite list_elem_of_omap. split.
    - intros ([t'|] & Hin & Heq); [|done]. by injection Heq as ->.
    - intros Hin. by exists (Tracer t). }
  set (dyn := dynamic (trace_stack (trace_state tls))).
  pose proof (py_max_spec Trace_level tracers) as Hmax.
  destruct (py_max Trace_level tracers) as [top|].
  - destruct Hmax as [Hin Hall].
    assert (Htop : Trace_level top = level (main top)).
    { apply Hmem in Hin. rewrite Forall_forall in Hok.
      exact (Hok _ Hin). }
    destruct (Z.gtb_spec (level dyn) (level (main top))) as [Hgt|Hle].
    + exists (Trace_init dyn s). cbn [Trace_init main Trace_level sublevel].
      split; [done|]. split; [done|]. split; [lia|]. split; [|by split; [left|]].
      apply Forall_forall. intros [t|] Hx; [|done]. cbn [level_le].
      specialize (Hall t (proj2 (Hmem t) Hx)). lia.
    + exists (Trace_init (main top) s).
      cbn [Trace_init main Trace_level sublevel].
      split; [done|]. split; [done|]. split; [lia|]. split.
      * apply Forall_forall. intros [t|] Hx; [|done]. cbn [level_le].
        specialize (Hall t (proj2 (Hmem t) Hx)). lia.
      * split; [|done]. right. exists top. split; [by apply Hmem|done].
  - exists (Trace_init dyn s). cbn [Trace_init main Trace_level sublevel].
    split; [done|]. split; [done|]. split; [lia|]. split; [|by split; [left|]].
    apply Forall_forall. intros [t|] Hx; [|done].
    apply Hmem in Hx. rewrite Hmax in Hx. by apply elem_of_nil in Hx.
Qed.

Lemma find_top_trace_level_witness :
  let jvp := mkMainTrace (Any := unit) 2 (OtherTrace "JVPTrace") ∅ in
  exists t : Trace unit,
    find_top_trace [NotTracer; Tracer (Trace_init jvp 0)]
                   ThreadLocalState_init = Ok t /\
    main t = jvp.
Proof.
  intros jvp.
  destruct (find_top_trace_level (Any := unit)
              [NotTracer; Tracer (Trace_init jvp 0)] ThreadLocalState_init)
    as (t & Ht & _).
  - repeat constructor.
  - discriminate.
  - exists t. split; [exact Ht|].
    vm_compute in Ht. by injection Ht as <-.
Defined.

(** ** [trace_state_clean] and [reset_trace_state] *)

Lemma is_eval_main_spec {Any : Type} (m : MainTrace Any) :
  is_eval_main m = true <-> m = mkMainTrace 0 EvalTrace ∅.
Proof.
  unfold is_eval_main. destruct m as [l t p].
  cbn [level trace_type payload]. split.
  - intros H. apply andb_prop in H as [H Hp]. apply andb_prop in H as [Hl Ht].
    apply Z.eqb_eq in Hl. apply bool_decide_eq_true in Ht, Hp. by subst.
  - intros [= -> -> ->]. by rewrite !bool_decide_eq_true_2.
Qed.

Lemma trace_state_clean_spec {Any : Type} (tls : ThreadLocalState Any) :
  trace_state_clean tls = true <-> trace_state tls = TraceState_init.
Proof.
  destruct tls as [[[st dyn] sub env] jit]. unfold trace_state_clean.
  cbn [trace_state trace_stack substack axis_env stack dynamic]. split.
  - intros H. apply andb_prop in H as [H Hd]. apply andb_prop in H as [H Hs].
    apply andb_prop in H as [Hsub Henv]. apply bool_decide_eq_true in Hsub.
    destruct env; [|done]. destruct st as [|m [|]]; try done.
    apply is_eval_main_spec in Hs, Hd. by subst.
  - intros [= -> -> -> ->]. rewrite bool_decide_eq_true_2 by done.
    cbn [andb].
    by rewrite (proj2 (is_eval_main_spec (mkMainTrace (Any := Any) 0 EvalTrace ∅))
                      eq_refl).
Qed.

(** X12: [trace_state_clean()] holds exactly in the trace state that
    [TraceState()] builds: two main traces are equal when their levels, trace
    types and payloads are. [reset_trace_state()] returns whether the state
    was clean, leaves a clean state behind, and so returns [True] when it is
    called again. *)
Theorem reset_trace_state_clean {Any : Type} (tls : ThreadLocalState Any) :
  (trace_state_clean tls = true <-> trace_state tls = TraceState_init) /\
  (reset_trace_state tls).1 = trace_state_clean tls /\
  trace_state (reset_trace_state tls).2 = TraceState_init /\
  (reset_trace_state (reset_trace_state tls).2).1 = true.
Proof.
  split; [apply trace_state_clean_spec|].
  assert (Hinit : forall jit : MainTrace Any,
            trace_state_clean {| trace_state := TraceState_init;
                                 dynamic_trace_state := jit |} = true).
  { intros jit. by apply trace_state_clean_spec. }
  unfold reset_trace_state.
  destruct (trace_state_clean tls) eqn:E; cbn [negb fst snd trace_state].
  - split; [done|]. split; [by apply trace_state_clean_spec|].
    by rewrite E.
  - split; [done|]. split; [done|]. by rewrite Hinit.
Qed.

End TraceStateFacts.

(** * More facts about jax/core.py: variables and their names *)

Module VarFacts.
Import Core.

(** The number that a word of letters stands for in base 26, ['a'] being the
    digit 0 and the first letter the most significant one. *)
Fixpoint decode (acc : Z) (s : string) : Z :=
  match s with
  | EmptyString => acc
  | String c rest => decode (26 * acc + (Z.of_N (N_of_ascii c) - 97)) rest
  end.

(** All the characters of [s] are letters from ['a'] to ['z']. *)
Fixpoint lowercase (s : string) : bool :=
  match s with
  | EmptyString => true
  | String c rest =>
      Z.leb 97 (Z.of_N (N_of_ascii c)) && Z.leb (Z.of_N (N_of_ascii c)) 122
      && lowercase rest
  end.

Lemma decode_app (p q : string) :
  forall acc, decode acc (p ++ q)%string = decode (decode acc p) q.
Proof.
  induction p as [|c p IH]; intros acc; [done|].
  rewrite PlaintextFacts.str_app_cons. cbn [decode]. apply IH.
Qed.

Lemma lowercase_app (p q : string) :
  lowercase (p ++ q)%string = lowercase p && lowercase q.
Proof.
  induction p as [|c p IH]; [done|].
  rewrite PlaintextFacts.str_app_cons. cbn [lowercase]. rewrite IH.
  by rewrite andb_assoc.
Qed.

Lemma chr_code (i : Z) : 0 <= i < 256 -> Z.of_N (N_of_ascii (chr i)) = i.
Proof.
  intros H. unfold chr. rewrite N_ascii_embedding; lia.
Qed.

Lemma encode_loop_spec (fuel : nat) :
  forall (s : string) (n : Z),
  0 <= n ->
  (Z.to_nat n + (if s is EmptyString then 1 else 0) < fuel)%nat ->
  exists p,
    _encode_digits_alphabetic_loop fuel s n = Some (p ++ s)%string /\
    decode 0 p = n /\ lowercase p = true /\
    (s = EmptyString -> p <> EmptyString).
Proof.
  induction fuel as [|fuel IH]; intros s n Hn Hfuel; [lia|].
  cbn [_encode_digits_alphabetic_loop].
  destruct ((String.length s =? 0)%nat || negb (n =? 0)) eqn:Hcond.
  - assert (Hi : 0 <= n mod 26 < 26) by (apply Z.mod_pos_bound; lia).
    assert (Hdiv : 0 <= n / 26) by (apply Z.div_pos; lia).
    rewrite (Z.mod_small (n mod 26) 26) by lia.
    destruct (IH (String (chr (97 + n mod 26)) s) (n / 26) Hdiv)
      as (p & Hp & Hdec & Hlow & _).
    { destruct (decide (n = 0)) as [->|Hne].
      - assert (s = EmptyString) as ->.
        { destruct s; [done|]. by cbn in Hcond. }
        change (0 / 26) with 0. cbn in *. lia.
      - assert (n / 26 < n) by (apply Z.div_lt; lia).
        cbn [String.length]. destruct s; lia. }
    exists (p ++ String (chr (97 + n mod 26)) EmptyString)%string.
    rewrite PlaintextFacts.str_app_assoc, PlaintextFacts.str_app_cons,
      PlaintextFacts.str_app_nil_l.
    split; [exact Hp|]. split; [|split].
    + rewrite decode_app, Hdec. cbn [decode]. rewrite chr_code by lia.
      pose proof (Z.div_mod n 26). lia.
    + rewrite lowercase_app, Hlow. cbn [lowercase]. rewrite chr_code by lia.
      rewrite andb_true_r. cbn [andb].
      apply andb_true_intro. split; [apply Z.leb_le|apply Z.leb_le]; lia.
    + intros _. by destruct p.
  - apply orb_false_elim in Hcond as [Hlen Hz].
    apply negb_false_iff, Z.eqb_eq in Hz. subst n.
    exists EmptyString. split; [done|]. split; [done|]. split; [done|].
    intros ->. by cbn in Hlen.
Qed.

Lemma encode_loop_negative (fuel : nat) :
  forall (s : string) (n : Z),
  n < 0 -> _encode_digits_alphabetic_loop fuel s n = None.
Proof.
  induction fuel as [|fuel IH]; intros s n Hn; [done|].
  cbn [_encode_digits_alphabetic_loop].
  destruct (Z.eqb_spec n 0) as [->|_]; [lia|].
  rewrite orb_true_r. apply IH. apply Z.div_lt_upper_bound; lia.
Qed.

Lemma encode_loop_mono (f1 : nat) :
  forall (f2 : nat) (s : string) (n : Z) (r : string),
  (f1 <= f2)%nat ->
  _encode_digits_alphabetic_loop f1 s n = Some r ->
  _encode_digits_alphabetic_loop f2 s n = Some r.
Proof.
  induction f1 as [|f1 IH]; intros f2 s n r Hle H; [done|].
  destruct f2 as [|f2]; [lia|].
  cbn [_encode_digits_alphabetic_loop] in *.
  destruct (_ || _); [|done]. apply (IH f2); [lia|done].
Qed.

Lemma encode_nonneg (n : Z) :
  0 <= n ->
  exists s,
    (forall fuel, (Z.to_nat n + 1 < fuel)%nat ->
                  _encode_digits_alphabetic fuel n = Some s) /\
    decode 0 s = n /\ lowercase s = true /\ (0 < String.length s)%nat.
Proof.
  intros Hn.
  destruct (encode_loop_spec (S (S (Z.to_nat n))) EmptyString n Hn) as
    (s & Hs & Hdec & Hlow & Hne); [cbn; lia|].
  rewrite PlaintextFacts.str_app_nil_r in Hs.
  exists s. split; [|split; [done|split; [done|]]].
  - intros fuel Hfuel. unfold _encode_digits_alphabetic.
    apply (encode_loop_mono (S (S (Z.to_nat n)))); [lia|done].
  - destruct s; [by destruct Hne|]. cbn. lia.
Qed.

Lemma encode_decode (fuel : nat) (n : Z) (s : string) :
  0 <= n -> _encode_digits_alphabetic fuel n = Some s -> decode 0 s = n.
Proof.
  intros Hn Hs. destruct (encode_nonneg n Hn) as (s' & Hall & Hdec & _).
  unfold _encode_digits_alphabetic in *.
  pose proof (Hall (fuel + S (S (Z.to_nat n)))%nat ltac:(lia)) as Hbig.
  pose proof (encode_loop_mono fuel (fuel + S (S (Z.to_nat n))) _ _ _
                ltac:(lia) Hs) as H.
  congruence.
Qed.

(** X13: [_encode_digits_alphabetic(n)]. For [n >= 0] the loop ends, with a
    word of one or more letters from ['a'] to ['z'] that is [n] written in
    base 26, ['a'] being 0: decoding the word gives [n] back, so that two
    numbers never get one word. For [n < 0] the loop does not end: [n // 26]
    stays negative. *)
Theorem _encode_digits_alphabetic_spec (n : Z) :
  (0 <= n ->
   exists s,
     (forall fuel, (Z.to_nat n + 1 < fuel)%nat ->
                   _encode_digits_alphabetic fuel n = Some s) /\
     decode 0 s = n /\ lowercase s = true /\ (0 < String.length s)%nat) /\
  (n < 0 -> forall fuel, _encode_digits_alphabetic fuel n = None).
Proof.
  split; [apply encode_nonneg|].
  intros Hn fuel. by apply encode_loop_negative.
Qed.

Lemma str_app_inv_r (a b c : string) :
  (a ++ c)%string = (b ++ c)%string -> a = b.
Proof.
  revert b. induction a as [|x a IH]; intros [|y b] H.
  - done.
  - exfalso. apply (f_equal String.length) in H.
    rewrite PlaintextFacts.str_app_nil_l, PlaintextFacts.str_length_app in H.
    cbn in H. lia.
  - exfalso. apply (f_equal String.length) in H.
    rewrite PlaintextFacts.str_app_nil_l, PlaintextFacts.str_length_app in H.
    cbn in H. lia.
  - rewrite !PlaintextFacts.str_app_cons in H. injection H as -> H.
    f_equal. by apply IH.
Qed.

(** X14: the names of variables. Two variables of one suffix and of counts
    that are not negative are printed alike only when their counts are equal;
    the fuel is enough for both names. *)
Theorem Var_repr_injective (fuel : nat) (v1 v2 : Var) (name : string) :
  0 <= count v1 -> 0 <= count v2 ->
  suffix v1 = suffix v2 ->
  Var_repr fuel v1 = Some name ->
  Var_repr fuel v2 = Some name ->
  count v1 = count v2.
Proof.
  intros H1 H2 Hsuf Hr1 Hr2. unfold Var_repr in *.
  destruct (_encode_digits_alphabetic fuel (count v1)) as [s1|] eqn:E1;
    [|done].
  destruct (_encode_digits_alphabetic fuel (count v2)) as [s2|] eqn:E2;
    [|done].
  injection Hr1 as <-. injection Hr2 as Hr2. rewrite Hsuf in Hr2.
  apply str_app_inv_r in Hr2. subst s2.
  rewrite <- (encode_decode _ _ _ H1 E1), <- (encode_decode _ _ _ H2 E2).
  done.
Qed.

Lemma Var_repr_injective_witness :
  count (mkVar 27 "_1"%string AbstractUnit)
  = count (mkVar 27 "_1"%string AbstractToken).
Proof.
  apply (Var_repr_injective 30 (mkVar 27 "_1"%string AbstractUnit)
           (mkVar 27 "_1"%string AbstractToken) "bb_1"%string);
    try reflexivity; cbn; lia.
Defined.

(** Two variables of different suffixes can be printed alike. *)
Example Var_repr_collision :
  Var_repr 30 (mkVar 27 EmptyString AbstractUnit) = Some "bb"%string /\
  Var_repr 30 (mkVar 1 "b"%string AbstractUnit) = Some "bb"%string.
Proof. split; reflexivity. Qed.

(** ** [gensym] *)

(** A configuration in which every dtype is canonical. *)
Definition canonicalize_dtype_id (dt : dtype) : dtype := dt.

Lemma raise_to_shaped_total canonicalize_dtype aval weak_type :
  exists r, raise_to_shaped canonicalize_dtype aval weak_type = Ok r.
Proof.
  destruct (AvalFacts.shaped_fields aval) as [[[[s d] w] n]|] eqn:E.
  - eexists. by apply AvalFacts.raise_to_shaped_shaped.
  - eexists. by apply AvalFacts.raise_to_shaped_other.
Qed.

Lemma fold_max_ge (xs : list Z) :
  forall x, x <= fold_left Z.max xs x /\
            Forall (fun y => y <= fold_left Z.max xs x) xs.
Proof.
  induction xs as [|y xs IH]; intros x; cbn [fold_left].
  - split; [lia|constructor].
  - destruct (IH (Z.max x y)) as [H1 H2]. split; [lia|].
    constructor; [lia|done].
Qed.

Lemma max_default_ge (default : Z) (xs : list Z) :
  Forall (fun y => y <= max_default default xs) xs.
Proof.
  destruct xs as [|x xs]; [constructor|]. cbn [max_default].
  destruct (fold_max_ge xs x) as [H1 H2]. by constructor.
Qed.

Lemma gensym_calls_lookup canonicalize_dtype (suffix : string)
    (avals : list AbstractValue) :
  forall (counter : Z) (k : nat) (a : AbstractValue),
  avals !! k = Some a ->
  gensym_calls canonicalize_dtype suffix counter avals !! k
  = Some (Var_init canonicalize_dtype (counter + Z.of_nat k) suffix a).
Proof.
  induction avals as [|a0 avals IH]; intros counter k a Hk; [done|].
  destruct k as [|k]; cbn in Hk |- *.
  - injection Hk as ->. by rewrite Z.add_0_r.
  - rewrite (IH _ _ _ Hk).
    by replace (counter + 1 + Z.of_nat k) with (counter + Z.of_nat (S k))
      by lia.
Qed.

(** X15: the variables of [gensym(jaxprs, suffix)]. The call number [k]
    (from 0) of the function that [gensym] returns does not raise on an
    abstract value of core.py; it returns the variable of the given suffix
    whose abstract value is the argument raised to the shaped level and
    whose count is [k] more than one plus the greatest count in [jaxprs]
    (one plus -1 when they hold no variable); this count is greater than the
    count of every input variable, constant variable and equation output of
    every jaxpr of [jaxprs]. *)
Theorem gensym_fresh {Val Params : Type} (canonicalize_dtype : dtype -> dtype)
    (jaxprs : list (Jaxpr Val Params)) (suffix : string)
    (avals : list AbstractValue) (k : nat) (a : AbstractValue) :
  avals !! k = Some a ->
  exists shaped : AbstractValue,
    raise_to_shaped canonicalize_dtype a None = Ok shaped /\
    let v := mkVar (gensym_start (Some jaxprs) + Z.of_nat k) suffix shaped in
    gensym_calls canonicalize_dtype suffix (gensym_start (Some jaxprs)) avals
      !! k = Some (Ok v) /\
    Forall (fun jaxpr => Forall (fun w => count w < count v)
                                (_jaxpr_vars jaxpr)) jaxprs.
Proof.
  intros Hk.
  destruct (raise_to_shaped_total canonicalize_dtype a None) as [shaped Hs].
  exists shaped. split; [done|]. cbn zeta. split.
  - rewrite (gensym_calls_lookup _ _ _ _ _ _ Hk). unfold Var_init.
    by rewrite Hs.
  - cbn [count gensym_start].
    pose proof (max_default_ge (-1)
                  (List.map count (flat_map _jaxpr_vars jaxprs))) as Hmax.
    rewrite Forall_forall in Hmax.
    apply Forall_forall. intros jaxpr Hj. apply Forall_forall. intros w Hw.
    assert (Hin : count w ∈ List.map count (flat_map _jaxpr_vars jaxprs)).
    { apply list_elem_of_fmap. exists w. split; [done|].
      apply list_elem_of_In, in_flat_map. exists jaxpr.
      split; by apply list_elem_of_In. }
    specialize (Hmax _ Hin). lia.
Qed.

Lemma gensym_fresh_witness :
  let x := mkVar 4 EmptyString (ShapedArray [2] float32 false ∅) in
  let jaxpr := mkJaxpr (Val := unit) (Params := unit) [] [x] [AtomVar x] [] in
  exists shaped : AbstractValue,
    gensym_calls canonicalize_dtype_id EmptyString
                 (gensym_start (Some [jaxpr])) [AbstractUnit; AbstractToken]
      !! 1%nat = Some (Ok (mkVar 6 EmptyString shaped)).
Proof.
  intros x jaxpr.
  destruct (gensym_fresh canonicalize_dtype_id [jaxpr] EmptyString
              [AbstractUnit; AbstractToken] 1 AbstractToken)
    as (shaped & _ & Hv & _).
  - reflexivity.
  - exists shaped. exact Hv.
Defined.

End VarFacts.

(** * More facts about jax/interpreters/partial_eval.py: lists and flags *)

Module PartialEvalListFacts.
Import Core PartialEval.

(** What the theorems take [safe_zip] to do: on two lists of one length it
    pairs them as [zip] does. *)
Definition zip_ok
    (zip : forall A B : Type, list A -> list B -> result (list (A * B)))
  : Prop :=
  forall (A B : Type) (a : list A) (b : list B),
    length a = length b -> zip A B a b = Ok (combine a b).

(** A [zip] that checks the lengths. *)
Definition checked_zip (A B : Type) (a : list A) (b : list B)
  : result (list (A * B)) :=
  if (length a =? length b)%nat then Ok (combine a b)
  else Raise AssertionError.

Lemma checked_zip_ok : zip_ok checked_zip.
Proof.
  intros A B a b H. unfold checked_zip. by rewrite H, Nat.eqb_refl.
Qed.

Lemma select_cons {A : Type} (keep : bool) (x : A) (flag : bool)
    (pairs : list (A * bool)) :
  select keep ((x, flag) :: pairs)
  = if Bool.eqb flag keep then x :: select keep pairs
    else select keep pairs.
Proof. unfold select. cbn. by destruct (Bool.eqb flag keep). Qed.

Lemma select_length {A : Type} (pairs : list (A * bool)) :
  (length (select false pairs) + length (select true pairs))%nat
  = length pairs.
Proof.
  induction pairs as [|[x flag] pairs IH]; [done|].
  rewrite !select_cons. destruct flag; cbn; lia.
Qed.

Lemma zip_knowns_loop_select {A : Type} (pvals : list A) :
  forall unknowns : list bool,
  length pvals = length unknowns ->
  _zip_knowns_loop (select false (combine pvals unknowns))
                   (select true (combine pvals unknowns)) unknowns
  = Returns pvals.
Proof.
  induction pvals as [|x pvals IH]; intros [|flag unknowns] Hlen;
    try done.
  cbn [combine]. rewrite !select_cons. injection Hlen as Hlen.
  destruct flag; cbn; by rewrite IH.
Qed.

Lemma zip_knowns_loop_inv {A : Type} (which : list bool) :
  forall known unknown l : list A,
  _zip_knowns_loop known unknown which = Returns l ->
  (length known + length unknown)%nat = length which ->
  length l = length which /\
  known = select false (combine l which) /\
  unknown = select true (combine l which).
Proof.
  induction which as [|flag which IH]; intros known unknown l Hl Hlen.
  - cbn in Hl. injection Hl as <-.
    destruct known, unknown; done.
  - cbn [_zip_knowns_loop] in Hl. destruct flag.
    + destruct unknown as [|x unknown]; [done|].
      destruct (_zip_knowns_loop known unknown which) as [l'|] eqn:E; [|done].
      injection Hl as <-.
      destruct (IH _ _ _ E) as (H1 & H2 & H3); [cbn in Hlen; lia|].
      cbn [combine length]. rewrite !select_cons. cbn.
      split; [lia|]. split; [done|]. by f_equal.
    + destruct known as [|x known]; [done|].
      destruct (_zip_knowns_loop known unknown which) as [l'|] eqn:E; [|done].
      injection Hl as <-.
      destruct (IH _ _ _ E) as (H1 & H2 & H3); [cbn in Hlen; lia|].
      cbn [combine length]. rewrite !select_cons. cbn.
      split; [lia|]. split; [by f_equal|done].
Qed.

(** X16: [_partition_knowns] and [_zip_knowns] undo each other. On a list
    and as many flags, [_partition_knowns] returns the elements whose flag is
    unset and those whose flag is set, which are as many as the list has;
    [_zip_knowns] on these two lists and the flags gives the list back; and
    no other two lists are merged into it. *)
Theorem partition_zip_knowns {A : Type}
    (zip : forall A B : Type, list A -> list B -> result (list (A * B)))
    (pvals : list A) (unknowns : list bool) :
  zip_ok zip ->
  length pvals = length unknowns ->
  exists known unknown : list A,
    _partition_knowns zip pvals unknowns = Ok (known, unknown) /\
    (length known + length unknown)%nat = length pvals /\
    _zip_knowns known unknown unknowns = Returns pvals /\
    (forall known' unknown',
       _zip_knowns known' unknown' unknowns = Returns pvals ->
       known' = known /\ unknown' = unknown).
Proof.
  intros Hzip Hlen.
  exists (select false (combine pvals unknowns)),
         (select true (combine pvals unknowns)).
  split; [|split; [|split]].
  - unfold _partition_knowns. by rewrite (Hzip _ _ _ _ Hlen).
  - rewrite select_length, length_combine. lia.
  - unfold _zip_knowns. rewrite select_length, length_combine.
    replace (length pvals `min` length unknowns)%nat with (length unknowns)
      by lia.
    rewrite Nat.eqb_refl. by apply zip_knowns_loop_select.
  - intros known' unknown' H. unfold _zip_knowns in H.
    destruct (Nat.eqb_spec (length known' + length unknown')
                           (length unknowns)) as [E|E]; [|done].
    by destruct (zip_knowns_loop_inv _ _ _ _ H E) as (_ & ? & ?).
Qed.

Lemma partition_zip_knowns_witness :
  _partition_knowns checked_zip [1; 2; 3] [true; false; true]
  = Ok ([2], [1; 3]) /\
  _zip_knowns [2] [1; 3] [true; false; true] = Returns [1; 2; 3].
Proof.
  destruct (partition_zip_knowns checked_zip [1; 2; 3] [true; false; true]
              checked_zip_ok eq_refl)
    as (known & unknown & Hp & _ & Hz & _).
  vm_compute in Hp. injection Hp as <- <-. split; [reflexivity|exact Hz].
Defined.

(** ** [move_binders_to_front] *)

Lemma select_perm {A : Type} (pairs : list (A * bool)) :
  select true pairs ++ select false pairs ≡ₚ List.map fst pairs.
Proof.
  induction pairs as [|[x flag] pairs IH]; [done|].
  rewrite !select_cons. destruct flag; cbn.
  - by constructor.
  - rewrite <- IH. symmetry. apply Permutation_middle.
Qed.

Lemma map_fst_combine {A B : Type} (a : list A) :
  forall b : list B, length a = length b -> List.map fst (combine a b) = a.
Proof.
  induction a as [|x a IH]; intros [|y b] H; try done.
  cbn. f_equal. apply IH. by injection H.
Qed.

(** X17: [move_binders_to_front(closed_jaxpr, to_move)], on a closed jaxpr
    that holds as many constants as constant variables. When the jaxpr has
    no constant variable and [to_move] has a flag for each input variable,
    the result has the same constants, outputs and equations and no
    constant variable, and its input variables are those of the jaxpr in
    another order: the flagged ones, then the others, each group in the order
    it had. Otherwise the call raises [AssertionError]. *)
Theorem move_binders_to_front_spec {Val Params Const : Type}
    (zip : forall A B : Type, list A -> list B -> result (list (A * B)))
    (closed_jaxpr : ClosedJaxpr Val Params Const) (to_move : list bool) :
  zip_ok zip ->
  length (consts closed_jaxpr) = length (constvars (jaxpr closed_jaxpr)) ->
  let old := jaxpr closed_jaxpr in
  (constvars old = [] -> length (invars old) = length to_move ->
   exists new_invars,
     move_binders_to_front zip closed_jaxpr to_move
     = Ok (mkClosedJaxpr (mkJaxpr [] new_invars (outvars old) (eqns old))
                         (consts closed_jaxpr)) /\
     new_invars ≡ₚ invars old /\
     new_invars = (select true (combine (invars old) to_move)
                   ++ select false (combine (invars old) to_move))%list) /\
  (constvars old <> [] \/ length (invars old) <> length to_move ->
   move_binders_to_front zip closed_jaxpr to_move = Raise AssertionError).
Proof.
  intros Hzip Hconsts old. subst old. split.
  - intros Hcv Hlen. eexists. split; [|split; [|reflexivity]].
    + unfold move_binders_to_front, in_avals, _move_to_front.
      rewrite Hcv, length_map, Hlen, Nat.eqb_refl. cbn [py_assert rbind].
      rewrite (Hzip _ _ _ _ Hlen). cbn [rbind].
      unfold ClosedJaxpr_init. cbn [constvars length].
      rewrite Hconsts, Hcv. done.
    + rewrite select_perm. by rewrite map_fst_combine.
  - intros H. unfold move_binders_to_front, in_avals.
    destruct (constvars (jaxpr closed_jaxpr)) as [|v vs]; [|done].
    cbn [py_assert rbind]. rewrite length_map.
    destruct (Nat.eqb_spec (length (invars (jaxpr closed_jaxpr)))
                           (length to_move)) as [E|E]; [|done].
    by destruct H.
Qed.

Lemma move_binders_to_front_spec_witness :
  let x := mkVar 0 EmptyString AbstractUnit in
  let y := mkVar 1 EmptyString AbstractToken in
  let cj := mkClosedJaxpr (Val := unit) (Params := unit) (Const := unit)
              (mkJaxpr [] [x; y] [AtomVar y] []) [] in
  move_binders_to_front checked_zip cj [false; true]
  = Ok (mkClosedJaxpr (mkJaxpr [] [y; x] [AtomVar y] []) []).
Proof.
  intros x y cj.
  destruct (move_binders_to_front_spec checked_zip cj [false; true]
              checked_zip_ok eq_refl) as [H _].
  destruct (H eq_refl eq_refl) as (new_invars & Hm & _ & ->).
  exact Hm.
Defined.

End PartialEvalListFacts.

(** * More facts about jax/_src/lax/control_flow.py *)

Module ControlFlowMoreFacts.
Import ControlFlow.

Local Open Scope Z_scope.

(** ** [while_loop] without staging *)

Lemma run_while_exit {T : Type} (cond_fun : T -> bool) (body_fun : T -> T)
    (n : nat) :
  forall (fuel : nat) (val : T),
  cond_fun (Nat.iter n body_fun val) = false ->
  (forall k, (k < n)%nat -> cond_fun (Nat.iter k body_fun val) = true) ->
  (n < fuel)%nat ->
  run_while fuel cond_fun body_fun val = ret (Nat.iter n body_fun val).
Proof.
  induction n as [|n IH]; intros fuel val Hexit Hbefore Hfuel;
    (destruct fuel as [|fuel]; [lia|]); cbn [run_while].
  - cbn in Hexit. by rewrite Hexit.
  - pose proof (Hbefore O ltac:(lia)) as H0. cbn in H0. rewrite H0.
    rewrite Nat.iter_succ_r in Hexit |- *.
    apply IH; [done| |lia].
    intros k Hk. rewrite <- Nat.iter_succ_r. apply Hbefore. lia.
Qed.

Lemma run_while_diverges {T : Type} (cond_fun : T -> bool)
    (body_fun : T -> T) (fuel : nat) :
  forall val : T,
  (forall k, cond_fun (Nat.iter k body_fun val) = true) ->
  run_while fuel cond_fun body_fun val = None.
Proof.
  induction fuel as [|fuel IH]; intros val H; [done|]. cbn [run_while].
  pose proof (H O) as H0. cbn in H0. rewrite H0.
  apply IH. intros k. rewrite <- Nat.iter_succ_r. apply H.
Qed.

(** X18: [while_loop] under [jax_disable_jit]. When [cond_fun] fails on
    the value that [n] runs of [body_fun] make of [init_val], and holds on
    the values that fewer runs make, the loop returns that value, the first
    one on which [cond_fun] fails, given fuel for more than [n] steps; when
    [cond_fun] holds on all these values, the loop does not end, whatever the
    fuel. *)
Theorem while_loop_first_exit {T : Type} (cfg : Config) (fuel : nat)
    (cond_fun : T -> bool) (body_fun : T -> T) (init_val : T) (n : nat) :
  jax_disable_jit cfg = true ->
  (cond_fun (Nat.iter n body_fun init_val) = false ->
   (forall k, (k < n)%nat ->
              cond_fun (Nat.iter k body_fun init_val) = true) ->
   (n < fuel)%nat ->
   while_loop cfg fuel cond_fun body_fun init_val
   = ret (Nat.iter n body_fun init_val)) /\
  ((forall k, cond_fun (Nat.iter k body_fun init_val) = true) ->
   while_loop cfg fuel cond_fun body_fun init_val = None).
Proof.
  intros Hcfg. unfold while_loop. rewrite Hcfg. split.
  - apply run_while_exit.
  - apply run_while_diverges.
Qed.

Lemma while_loop_first_exit_witness :
  while_loop {| jax_enable_checks := false; jax_disable_jit := true |} 5
             (fun val => val <? 10) (fun val => val * 2) 3
  = ret 12.
Proof.
  refine (proj1 (while_loop_first_exit
                   {| jax_enable_checks := false; jax_disable_jit := true |}
                   5 (fun val => val <? 10) (fun val => val * 2) 3 2 _)
                _ _ _).
  - reflexivity.
  - reflexivity.
  - intros [|[|k]] Hk; [reflexivity|reflexivity|lia].
  - lia.
Defined.

(** ** [scan] without staging *)

(** The scan of the docstring, over [n] steps that read no input. *)
Fixpoint scan_reference {C Y : Type} (f : C -> unit -> C * Y) (carry : C)
    (n : nat) : C * list Y :=
  match n with
  | O => (carry, [])
  | S n =>
      let '(carry, y) := f carry tt in
      let '(carry, ys) := scan_reference f carry n in
      (carry, y :: ys)
  end.

Lemma scan_fold_reference {C Y : Type} (f : C -> unit -> C * Y)
    (l : list Z) :
  forall (carry : C) (ys : list Y),
  fold_left (fun (st : C * list Y) (_ : Z) =>
               let '(carry, y) := f st.1 tt in (carry, st.2 ++ [y]))
            l (carry, ys)
  = ((scan_reference f carry (length l)).1,
     ys ++ (scan_reference f carry (length l)).2).
Proof.
  induction l as [|a l IH]; intros carry ys.
  - cbn. by rewrite app_nil_r.
  - cbn [fold_left length scan_reference fst snd].
    destruct (f carry tt) as [carry' y]. rewrite IH.
    destruct (scan_reference f carry' (length l)) as [carry'' ys'].
    cbn [fst snd]. by rewrite <- app_assoc.
Qed.

Lemma scan_reference_length {C Y : Type} (f : C -> unit -> C * Y) (n : nat) :
  forall carry : C, length (scan_reference f carry n).2 = n.
Proof.
  induction n as [|n IH]; intros carry; [done|]. cbn [scan_reference].
  destruct (f carry tt) as [carry' y]. specialize (IH carry').
  destruct (scan_reference f carry' n). cbn in *. by rewrite IH.
Qed.

(** X19: [scan(f, init, None, length)] under [jax_disable_jit], whatever the
    fuel: a length of zero raises [ValueError]; a negative length runs no
    step and raises [TypeError], there being no output to stack; a positive
    length returns what the scan of the docstring returns, the last carry
    and the [length] outputs in their order. *)
Theorem scan_disable_jit {C Y : Type} (cfg : Config) (int_dtype : dtype)
    (empty_array : Y) (fuel : nat) (f : C -> unit -> C * Y) (init : C)
    (length : Z) :
  jax_disable_jit cfg = true ->
  (length = 0 ->
   scan cfg int_dtype empty_array fuel f init length = throw ValueError) /\
  (length < 0 ->
   scan cfg int_dtype empty_array fuel f init length = throw TypeError) /\
  (0 < length ->
   scan cfg int_dtype empty_array fuel f init length
   = ret (scan_reference f init (Z.to_nat length)) /\
   Z.of_nat (List.length (scan_reference f init (Z.to_nat length)).2)
   = length).
Proof.
  intros Hcfg. unfold scan. rewrite Hcfg. split; [|split].
  - intros ->. done.
  - intros Hneg. destruct (Z.eqb_spec length 0) as [->|_]; [lia|].
    by rewrite ControlFlowFacts.range_empty by lia.
  - intros Hpos. destruct (Z.eqb_spec length 0) as [->|_]; [lia|].
    rewrite scan_fold_reference, ControlFlowFacts.range_length.
    rewrite Z.sub_0_r. cbn [app].
    pose proof (scan_reference_length f (Z.to_nat length) init) as Hlen.
    destruct (scan_reference f init (Z.to_nat length)) as [carry ys].
    cbn [fst snd] in *. split; [|lia].
    destruct ys as [|y ys]; [cbn in Hlen; lia|done].
Qed.

Lemma scan_disable_jit_witness :
  scan {| jax_enable_checks := false; jax_disable_jit := true |} int32 0 0
       (fun carry _ => (carry + 1, carry * carry)) 1 3
  = ret (4, [1; 4; 9]).
Proof.
  refine (proj1 (proj2 (proj2 (scan_disable_jit
            {| jax_enable_checks := false; jax_disable_jit := true |}
            int32 0 0 (fun carry _ => (carry + 1, carry * carry)) 1 3 _)) _)).
  - reflexivity.
  - lia.
Defined.

(** ** [_ordered_unique] *)

Lemma ordered_unique_fold {A : Type} `{EqDecision A} (xs : list A) :
  forall d : list A,
  let r := fold_left (fun d x => if bool_decide (x ∈ d) then d else d ++ [x])
                     xs d in
  (NoDup d -> NoDup r) /\
  (forall x, x ∈ r <-> x ∈ d \/ x ∈ xs) /\
  (NoDup (d ++ xs) -> r = (d ++ xs)%list) /\
  exists added, r = (d ++ added)%list /\ sublist added xs.
Proof.
  induction xs as [|a xs IH]; intros d; cbn [fold_left].
  - split; [done|]. split; [|split].
    + intros x. rewrite elem_of_nil. tauto.
    + by rewrite app_nil_r.
    + exists []. by rewrite app_nil_r.
  - destruct (IH (if bool_decide (a ∈ d) then d else d ++ [a]))
      as (Hnd & Hin & Heq & added & Hadd & Hsub).
    case_bool_decide as Ha.
    + split; [done|]. split; [|split].
      * intros x. rewrite Hin, elem_of_cons. split; [tauto|].
        intros [?|[->|?]]; tauto.
      * intros Hdup. exfalso. apply NoDup_app in Hdup as (_ & Hdis & _).
        apply (Hdis a Ha). by left.
      * exists added. split; [done|]. by apply sublist_cons.
    + split; [|split; [|split]].
      * intros Hd. apply Hnd. apply NoDup_app. split; [done|].
        split; [|apply NoDup_singleton].
        intros x Hx Hx'. apply list_elem_of_singleton in Hx'. by subst.
      * intros x. rewrite Hin, elem_of_app, list_elem_of_singleton,
          elem_of_cons. tauto.
      * intros Hdup. rewrite <- app_assoc in Heq. by apply Heq.
      * exists (a :: added). split.
        -- by rewrite Hadd, <- app_assoc.
        -- by apply sublist_skip.
Qed.

(** X20: [_ordered_unique(xs)] has no element twice, has the elements of
    [xs] and no other, keeps elements in an order they have in [xs] (it is
    what is left of [xs] when some elements are struck out), and is [xs]
    itself when [xs] has no element twice. *)
Theorem _ordered_unique_spec {A : Type} `{EqDecision A} (xs : list A) :
  NoDup (_ordered_unique xs) /\
  (forall x, x ∈ _ordered_unique xs <-> x ∈ xs) /\
  sublist (_ordered_unique xs) xs /\
  (NoDup xs -> _ordered_unique xs = xs).
Proof.
  destruct (ordered_unique_fold xs []) as (Hnd & Hin & Heq & added & Ha & Hs).
  fold (_ordered_unique xs) in *. split; [|split; [|split]].
  - apply Hnd. constructor.
  - intros x. rewrite Hin, elem_of_nil. tauto.
  - by rewrite Ha.
  - exact Heq.
Qed.

(** ** [_promote_weak_typed_inputs] *)

Section Promote.

Import Core.

Variable canonicalize_dtype : dtype -> dtype.
Context {Val : Type}.
Variable result_type : Val -> AbstractValue -> result dtype.
Variable convert_element_type : Val -> dtype -> result Val.

(** The indices that the list comprehension finds are those of the pairs that
    mismatch, in increasing order, and the test raises on no pair. *)
Lemma weak_mismatches_from_spec
    (pairs : list (AbstractValue * AbstractValue)) :
  forall (start : nat) (found : list nat),
  weak_mismatches_from canonicalize_dtype start pairs = Ok found ->
  NoDup found /\
  (forall i, i ∈ found -> (start <= i < start + length pairs)%nat) /\
  (forall k a1 a2, pairs !! k = Some (a1, a2) ->
     exists mismatch,
       weak_mismatch canonicalize_dtype a1 a2 = Ok mismatch /\
       (mismatch = true <-> (start + k)%nat ∈ found)).
Proof.
  induction pairs as [|[b1 b2] rest IH]; intros start found H.
  - injection H as <-. split; [constructor|]. split.
    + intros i Hi. by apply elem_of_nil in Hi.
    + intros k a1 a2 Hk. done.
  - cbn [weak_mismatches_from] in H.
    destruct (weak_mismatch canonicalize_dtype b1 b2) as [m|] eqn:Em;
      [|done].
    cbn [rbind] in H.
    destruct (weak_mismatches_from canonicalize_dtype (S start) rest)
      as [found'|] eqn:Ef; [|done].
    cbn [rbind] in H. injection H as <-.
    destruct (IH _ _ Ef) as (Hnd & Hrange & Hpairs).
    assert (Hstart : start ∉ found').
    { intros Hin. apply Hrange in Hin. lia. }
    split; [|split].
    + destruct m; [by constructor|done].
    + intros i Hi. cbn [length].
      destruct m; [apply elem_of_cons in Hi as [->|Hi]|];
        try lia; apply Hrange in Hi; lia.
    + intros [|k] a1 a2 Hk; cbn in Hk.
      * injection Hk as <- <-. exists m. split; [done|].
        rewrite Nat.add_0_r. destruct m.
        -- split; [intros _; by left|done].
        -- split; [done|]. intros Hin. by destruct Hstart.
      * destruct (Hpairs k a1 a2 Hk) as (m' & Hm' & Hiff).
        exists m'. split; [done|]. rewrite Hiff.
        replace (S start + k)%nat with (start + S k)%nat by lia.
        destruct m; [|done]. split; [by right|].
        intros Hin. apply elem_of_cons in Hin as [Heq|Hin]; [lia|done].
Qed.

(** The loop converts the values at the indices it is given, once each, and
    leaves the others. *)
Lemma promote_fold (out_avals : list AbstractValue) (indices : list nat) :
  forall in_vals vals : list Val,
  NoDup indices ->
  fold_result (promote_at result_type convert_element_type out_avals)
              indices in_vals = Ok vals ->
  length vals = length in_vals /\
  (forall i, i ∉ indices -> vals !! i = in_vals !! i) /\
  (forall i, i ∈ indices ->
     exists v a new_dtype v',
       in_vals !! i = Some v /\ out_avals !! i = Some a /\
       result_type v a = Ok new_dtype /\
       convert_element_type v new_dtype = Ok v' /\
       vals !! i = Some v').
Proof.
  induction indices as [|j rest IH]; intros in_vals vals Hnd H.
  - injection H as <-. split; [done|]. split; [done|].
    intros i Hi. by apply elem_of_nil in Hi.
  - apply NoDup_cons in Hnd as [Hj Hnd]. cbn [fold_result] in H.
    destruct (promote_at result_type convert_element_type out_avals
                         in_vals j) as [vals1|] eqn:E1; [|done].
    cbn [rbind] in H. unfold promote_at in E1.
    destruct (in_vals !! j) as [v|] eqn:Ev; [|done].
    destruct (out_avals !! j) as [a|] eqn:Ea; [|done].
    destruct (result_type v a) as [dt|] eqn:Edt; [|done]. cbn [rbind] in E1.
    destruct (convert_element_type v dt) as [v'|] eqn:Ec; [|done].
    cbn [rbind] in E1. injection E1 as <-.
    destruct (IH _ _ Hnd H) as (Hlen & Hout & Hin).
    split; [|split].
    + by rewrite Hlen, length_insert.
    + intros i Hi. rewrite Hout.
      * apply list_lookup_insert_ne. intros ->. apply Hi. by left.
      * intros Hr. apply Hi. by right.
    + intros i Hi. apply elem_of_cons in Hi as [->|Hi].
      * exists v, a, dt, v'. repeat split; try done.
        rewrite (Hout j Hj). apply list_lookup_insert_eq.
        by apply lookup_lt_Some in Ev.
      * destruct (Hin i Hi) as (v0 & a0 & dt0 & v0' & H1 & H2 & H3 & H4 & H5).
        exists v0, a0, dt0, v0'. repeat split; try done.
        rewrite list_lookup_insert_ne in H1; [done|]. by intros ->.
Qed.

(** X29: [_promote_weak_typed_inputs(in_vals, in_avals, out_avals)], when it
    returns, returns as many values as it was given, and the same values
    when its flag is [False]. When the three lists have one length, a value
    is converted, to the result type of the value and its output aval, when
    its input aval is weakly typed and does not match the output aval; every
    other value is left as it is, those whose aval is not weakly typed among
    them; and the flag tells whether a value was converted. *)
Theorem promote_weak_typed_inputs_spec
    (zip : forall A B : Type, list A -> list B -> result (list (A * B)))
    (in_vals vals : list Val) (in_avals out_avals : list AbstractValue)
    (changed : bool) :
  PartialEvalListFacts.zip_ok zip ->
  _promote_weak_typed_inputs canonicalize_dtype zip result_type
    convert_element_type in_vals in_avals out_avals = Ok (vals, changed) ->
  length vals = length in_vals /\
  (changed = false -> vals = in_vals) /\
  (length in_vals = length in_avals -> length in_avals = length out_avals ->
   forall i v a1 a2,
     in_vals !! i = Some v -> in_avals !! i = Some a1 ->
     out_avals !! i = Some a2 ->
     exists mismatch,
       weak_mismatch canonicalize_dtype a1 a2 = Ok mismatch /\
       (mismatch = false -> vals !! i = Some v) /\
       (mismatch = true ->
        changed = true /\
        exists new_dtype v',
          result_type v a2 = Ok new_dtype /\
          convert_element_type v new_dtype = Ok v' /\
          vals !! i = Some v')).
Proof.
  intros Hzip H. unfold _promote_weak_typed_inputs in H.
  destruct (Nat.eqb_spec (length in_vals) (length in_avals)) as [E1|E1];
    [destruct (Nat.eqb_spec (length in_avals) (length out_avals)) as [E2|E2]|];
    cbn [negb orb] in H;
    try (injection H as <- <-; split; [done|]; split; [done|];
         intros; congruence).
  rewrite (Hzip _ _ _ _ E2) in H. cbn [rbind] in H.
  destruct (weak_mismatches_from canonicalize_dtype 0
              (combine in_avals out_avals)) as [found|] eqn:Ef; [|done].
  cbn [rbind] in H.
  destruct (weak_mismatches_from_spec _ _ _ Ef) as (Hnd & _ & Hpairs).
  assert (Hpair : forall i a1 a2,
            in_avals !! i = Some a1 -> out_avals !! i = Some a2 ->
            exists mismatch,
              weak_mismatch canonicalize_dtype a1 a2 = Ok mismatch /\
              (mismatch = true <-> i ∈ found)).
  { intros i a1 a2 H1 H2. apply (Hpairs i a1 a2).
    clear -H1 H2. revert i out_avals H1 H2.
    induction in_avals as [|x l IH]; intros [|i] [|y out] H1 H2;
      try done.
    - cbn in *. congruence.
    - cbn in *. by apply IH. }
  destruct found as [|j found].
  - injection H as <- <-. split; [done|]. split; [done|].
    intros _ _ i v a1 a2 Hv H1 H2.
    destruct (Hpair i a1 a2 H1 H2) as (m & Hm & Hiff).
    exists m. split; [done|]. split; [done|].
    intros ->. exfalso. destruct Hiff as [Hiff _].
    specialize (Hiff eq_refl). by apply elem_of_nil in Hiff.
  - destruct (fold_result _ (j :: found) in_vals) as [vals'|] eqn:Efold;
      [|done].
    cbn [rbind] in H. injection H as <- <-.
    destruct (promote_fold _ _ _ _ Hnd Efold) as (Hlen & Hout & Hin).
    split; [done|]. split; [done|].
    intros _ _ i v a1 a2 Hv H1 H2.
    destruct (Hpair i a1 a2 H1 H2) as (m & Hm & Hiff).
    exists m. split; [done|]. split.
    + intros ->. rewrite Hout; [done|]. intros Hi.
      apply Hiff in Hi. done.
    + intros ->. split; [done|].
      destruct (Hin i (proj1 Hiff eq_refl))
        as (v0 & a0 & dt & v' & Hv0 & Ha0 & Hdt & Hc & Hv').
      assert (v0 = v) as -> by congruence.
      assert (a0 = a2) as -> by congruence.
      by exists dt, v'.
Qed.

End Promote.

Lemma promote_weak_typed_inputs_spec_witness :
  let convert (v : Z) (dt : dtype) := Ok (v + 100) in
  let a1 := Core.ShapedArray [] int32 true ∅ in
  let a2 := Core.ShapedArray [] float32 false ∅ in
  _promote_weak_typed_inputs (fun dt => dt) PartialEvalListFacts.checked_zip
    (fun _ _ => Ok float32) convert [1; 2] [a1; a2] [a2; a2]
  = Ok ([101; 2], true) /\
  exists mismatch,
    weak_mismatch (fun dt => dt) a1 a2 = Ok mismatch /\
    (mismatch = true ->
     exists new_dtype v',
       Ok float32 = Ok new_dtype /\ convert 1 new_dtype = Ok v' /\
       [101; 2] !! 0%nat = Some v').
Proof.
  intros convert a1 a2. split; [reflexivity|].
  destruct (promote_weak_typed_inputs_spec (fun dt => dt)
              (fun _ _ => Ok float32) convert
              PartialEvalListFacts.checked_zip [1; 2] [101; 2]
              [a1; a2] [a2; a2] true PartialEvalListFacts.checked_zip_ok)
    as (_ & _ & Hall).
  - reflexivity.
  - destruct (Hall eq_refl eq_refl 0%nat 1 a1 a2 eq_refl eq_refl eq_refl)
      as (m & Hm & _ & Ht).
    exists m. split; [exact Hm|]. intros Htrue.
    destruct (Ht Htrue) as (_ & dt & v' & H1 & H2 & H3).
    by exists dt, v'.
Defined.

End ControlFlowMoreFacts.

(** * More facts about jax/interpreters/batching.py *)

Module BatchingMoreFacts.
Import Batching BatchingFacts.

Local Open Scope nat_scope.

(** ** [broadcast] *)

(** X21: [broadcast(x, sz, axis)] on an array of rank [n], for
    [0 <= axis <= n]. The shape it asks [broadcast_in_dim] for has rank
    [n + 1] and the size [sz] at [axis]; the broadcast dimensions are the [n]
    other axes in their order, and each axis of [x] is sent to an axis of its
    own size. *)
Theorem broadcast_dims_consistent (a : ndarray) (sz axis : nat) :
  axis <= length (nd_shape a) ->
  exists shape broadcast_dims : list nat,
    broadcast (Array a) sz (Z.of_nat axis)
    = Ok (Array (broadcast_in_dim a shape broadcast_dims)) /\
    length shape = S (length (nd_shape a)) /\
    nth axis shape 0 = sz /\
    length broadcast_dims = length (nd_shape a) /\
    forall k, k < length (nd_shape a) ->
      nth k broadcast_dims 0 = (if k <? axis then k else S k) /\
      nth (nth k broadcast_dims 0) shape 0 = nth k (nd_shape a) 0.
Proof.
  intros Haxis. set (n := length (nd_shape a)) in *.
  assert (Hshape : list_insert_at (Z.of_nat axis) sz (nd_shape a)
                   = (take axis (nd_shape a) ++ sz :: drop axis (nd_shape a))%list).
  { unfold list_insert_at. fold n.
    replace (Z.of_nat axis <? 0)%Z with false
      by (symmetry; apply Z.ltb_ge; lia).
    by replace (Z.to_nat (Z.min (Z.of_nat axis) (Z.of_nat n))) with axis
      by lia. }
  assert (Hlen : length (take axis (nd_shape a) ++ sz :: drop axis (nd_shape a))
                 = S n).
  { rewrite length_app. cbn [length]. rewrite length_take, length_drop.
    fold n. lia. }
  exists (take axis (nd_shape a) ++ sz :: drop axis (nd_shape a))%list,
         (others (S n) axis).
  split; [|split; [done|split; [|split]]].
  - unfold broadcast. cbn [aval_is_unit rbind]. rewrite Hshape, Hlen.
    replace ((- Z.of_nat (S n) <=? Z.of_nat axis)%Z
             && (Z.of_nat axis <? Z.of_nat (S n))%Z) with true
      by (symmetry; apply andb_true_intro;
          split; [apply Z.leb_le|apply Z.ltb_lt]; lia).
    replace (Z.of_nat axis <? 0)%Z with false
      by (symmetry; apply Z.ltb_ge; lia).
    by rewrite Nat2Z.id.
  - rewrite app_nth2 by (rewrite length_take; lia).
    rewrite length_take. fold n.
    by replace (axis - axis `min` n) with 0 by lia.
  - rewrite others_length by lia. lia.
  - intros k Hk. rewrite others_nth by lia. split; [done|].
    destruct (Nat.ltb_spec k axis) as [H|H].
    + rewrite app_nth1 by (rewrite length_take; lia).
      rewrite <- (firstn_skipn axis (nd_shape a)) at 2.
      rewrite app_nth1; [done|]. rewrite length_firstn. lia.
    + rewrite app_nth2 by (rewrite length_take; lia).
      rewrite length_take. fold n.
      replace (S k - axis `min` n) with (S (k - axis)) by lia.
      cbn [nth].
      rewrite <- (firstn_skipn axis (nd_shape a)) at 2.
      rewrite app_nth2 by (rewrite length_firstn; lia).
      rewrite length_firstn. fold n. f_equal. lia.
Qed.

Lemma broadcast_dims_consistent_witness :
  exists shape broadcast_dims : list nat,
    broadcast (Array {| nd_shape := [2; 3]; nd_item := fun _ => SInt 0 |})
              5 1
    = Ok (Array (broadcast_in_dim
                   {| nd_shape := [2; 3]; nd_item := fun _ => SInt 0 |}
                   shape broadcast_dims)) /\
    length shape = 3 /\ nth 1 shape 0 = 5 /\ length broadcast_dims = 2.
Proof.
  destruct (broadcast_dims_consistent
              {| nd_shape := [2; 3]; nd_item := fun _ => SInt 0 |} 5 1)
    as (shape & dims & Hb & Hlen & Hsz & Hdims & _).
  - cbn. lia.
  - by exists shape, dims.
Defined.

(** With a negative [axis] the list method [insert] and [np.delete] do not
    count alike: [insert(-1, sz)] puts [sz] before the last size, and
    [np.delete(..., -1)] strikes out the last axis, so that the last axis of
    [x] is sent to the new one. *)
Example broadcast_negative_axis :
  broadcast (Array {| nd_shape := [2; 3]; nd_item := fun _ => SInt 0 |})
            5 (-1)
  = Ok (Array (broadcast_in_dim
                 {| nd_shape := [2; 3]; nd_item := fun _ => SInt 0 |}
                 [2; 5; 3] [0; 1])).
Proof. reflexivity. Qed.

(** ** [reducer_batcher] *)

(** The axis [i] is among [axes]. *)
Definition reduced (axes : list Z) (i : nat) : bool :=
  existsb (fun a => (Z.of_nat i =? a)%Z) axes.

(** The reduction axes of the batched operand. *)
Definition shift_axes (bdim : Z) (axes : list Z) : list Z :=
  List.map (fun a => if (a <? bdim)%Z then a else (a + 1)%Z) axes.

Lemma reduced_shift_lt (bdim : nat) (axes : list Z) (i : nat) :
  i < bdim ->
  reduced (shift_axes (Z.of_nat bdim) axes) i = reduced axes i.
Proof.
  intros Hi. unfold reduced, shift_axes.
  induction axes as [|a axes IH]; [done|]. cbn [List.map existsb].
  rewrite IH. f_equal.
  destruct (Z.ltb_spec a (Z.of_nat bdim)); [done|].
  destruct (Z.eqb_spec (Z.of_nat i) (a + 1)), (Z.eqb_spec (Z.of_nat i) a);
    try done; lia.
Qed.

Lemma reduced_shift_bdim (bdim : nat) (axes : list Z) :
  reduced (shift_axes (Z.of_nat bdim) axes) bdim = false.
Proof.
  unfold reduced, shift_axes.
  induction axes as [|a axes IH]; [done|]. cbn [List.map existsb].
  rewrite IH, orb_false_r.
  destruct (Z.ltb_spec a (Z.of_nat bdim)); apply Z.eqb_neq; lia.
Qed.

Lemma list_index_filter (f : nat -> bool) (x : nat) :
  forall (m start : nat),
  start <= x < start + m -> f x = true ->
  list_index (Z.of_nat x) (List.filter f (seq start m))
  = Ok (Z.of_nat (length (List.filter f (seq start (x - start))))).
Proof.
  induction m as [|m IH]; intros start Hx Hf; [lia|].
  cbn [seq List.filter].
  destruct (decide (start = x)) as [->|Hne].
  - rewrite Hf. cbn [list_index]. rewrite Z.eqb_refl.
    by rewrite Nat.sub_diag.
  - replace (x - start) with (S (x - S start)) by lia.
    cbn [seq List.filter]. destruct (f start).
    + cbn [list_index length].
      destruct (Z.eqb_spec (Z.of_nat start) (Z.of_nat x)); [lia|].
      rewrite IH by (try done; lia). cbn [rbind]. f_equal. lia.
    + apply IH; [lia|done].
Qed.

Lemma filter_ext_in' {A : Type} (f g : A -> bool) (l : list A) :
  (forall x, In x l -> f x = g x) -> List.filter f l = List.filter g l.
Proof.
  induction l as [|x l IH]; intros H; [done|]. cbn [List.filter].
  rewrite (H x) by by left. rewrite IH; [done|].
  intros y Hy. apply H. by right.
Qed.

(** X22: [reducer_batcher], on an operand of rank [n] whose batch dimension
    is [bdim < n] and for reduction axes of the operand without that
    dimension, that is, in [0, n - 1). The axes passed on are the given ones,
    those at or after [bdim] moved up by one: they are axes of the operand,
    and the batch dimension is not among them. The batch dimension of the
    result is the number of axes before [bdim] that are not reduced. The
    parameters are passed on, with the shape of the operand as
    [input_shape] when they have that key. *)
Theorem reducer_batcher_bdim {Out Param : Type}
    (bind : ndarray -> list Z -> gmap string Param -> result Out)
    (shape_param : list nat -> Param)
    (operand : ndarray) (bdim : nat) (axes : list Z)
    (params : gmap string Param) :
  bdim < length (nd_shape operand) ->
  Forall (fun a => (0 <= a < Z.of_nat (length (nd_shape operand)) - 1)%Z)
         axes ->
  let axes' := shift_axes (Z.of_nat bdim) axes in
  let bdim_out :=
    length (List.filter (fun i => negb (reduced axes i)) (seq 0 bdim)) in
  Forall (fun a => (0 <= a < Z.of_nat (length (nd_shape operand)))%Z /\
                   a <> Z.of_nat bdim) axes' /\
  exists params' : gmap string Param,
    reducer_batcher bind shape_param operand (Z.of_nat bdim) axes params
    = (let* out := bind operand axes' params' in
       Ok (out, Z.of_nat bdim_out)) /\
    (forall key, is_Some (params' !! key) <-> is_Some (params !! key)) /\
    (forall key, key <> "input_shape"%string ->
                 params' !! key = params !! key) /\
    (is_Some (params !! "input_shape"%string) ->
     params' !! "input_shape"%string
     = Some (shape_param (nd_shape operand))).
Proof.
  intros Hb Haxes axes' bdim_out. set (n := length (nd_shape operand)) in *.
  assert (Hax' : Forall (fun a => (0 <= a < Z.of_nat n)%Z /\
                                  a <> Z.of_nat bdim) axes').
  { subst axes'. unfold shift_axes. apply Forall_forall. intros a' Ha'.
    apply list_elem_of_fmap in Ha' as (a & -> & Ha).
    rewrite Forall_forall in Haxes. specialize (Haxes a Ha).
    destruct (Z.ltb_spec a (Z.of_nat bdim)); lia. }
  split; [exact Hax'|].
  exists (match params !! "input_shape"%string with
          | Some _ =>
              <["input_shape"%string := shape_param (nd_shape operand)]> params
          | None => params
          end).
  split; [|split; [|split]].
  - unfold reducer_batcher. fold n. fold (shift_axes (Z.of_nat bdim) axes).
    fold axes'. unfold np_delete_arange.
    assert (Hall : forallb (fun a => ((- Z.of_nat n <=? a)
                                      && (a <? Z.of_nat n))%Z) axes' = true).
    { apply forallb_forall. intros a Ha. apply list_elem_of_In in Ha.
      rewrite Forall_forall in Hax'. destruct (Hax' a Ha) as [H _].
      apply andb_true_intro. split; [apply Z.leb_le|apply Z.ltb_lt]; lia. }
    rewrite Hall. cbn [rbind].
    assert (Hfilter :
              List.filter
                (fun i => negb (existsb
                   (fun a => (Z.of_nat i
                              =? (if a <? 0 then a + Z.of_nat n else a))%Z)
                   axes')) (seq 0 n)
              = List.filter (fun i => negb (reduced axes' i)) (seq 0 n)).
    { apply filter_ext_in'. intros i _. f_equal. unfold reduced.
      induction axes' as [|a l IH]; [done|]. cbn [existsb].
      apply Forall_cons in Hax' as [[Ha _] Hl].
      cbn [forallb] in Hall. apply andb_prop in Hall as [_ Hall].
      rewrite (IH Hl Hall).
      by replace (a <? 0)%Z with false by (symmetry; apply Z.ltb_ge; lia). }
    rewrite Hfilter.
    rewrite (list_index_filter _ bdim n 0) by
      (try lia; subst axes'; by rewrite reduced_shift_bdim).
    cbn [rbind]. rewrite Nat.sub_0_r.
    rewrite (filter_ext_in' (fun i => negb (reduced axes' i))
                            (fun i => negb (reduced axes i)) (seq 0 bdim)).
    + done.
    + intros i Hi. apply in_seq in Hi. subst axes'.
      rewrite reduced_shift_lt by lia. done.
  - intros key. destruct (params !! "input_shape"%string) eqn:E; [|done].
    destruct (decide (key = "input_shape"%string)) as [->|Hne].
    + rewrite lookup_insert_eq, E. split; by eexists.
    + by rewrite lookup_insert_ne.
  - intros key Hne. destruct (params !! "input_shape"%string); [|done].
    by rewrite lookup_insert_ne.
  - intros [p Hp]. rewrite Hp. by rewrite lookup_insert_eq.
Qed.

Lemma reducer_batcher_bdim_witness :
  exists params' : gmap string Z,
    reducer_batcher (fun _ axes _ => Ok axes) (fun _ => 0%Z)
      {| nd_shape := [2; 3; 4; 5]; nd_item := fun _ => SInt 0 |}
      2%Z [0; 2]%Z ∅
    = (let* out := Ok [0; 3]%Z in Ok (out, 1%Z)) /\
    (forall key, is_Some (params' !! key) <-> is_Some ((∅ : gmap string Z) !! key)).
Proof.
  destruct (reducer_batcher_bdim (fun _ axes _ => Ok axes) (fun _ => 0%Z)
              {| nd_shape := [2; 3; 4; 5]; nd_item := fun _ => SInt 0 |}
              2 [0; 2]%Z (∅ : gmap string Z))
    as (_ & params' & Hr & Hdom & _).
  - cbn. lia.
  - repeat constructor; cbn; lia.
  - exists params'. split; [exact Hr|exact Hdom].
Defined.

End BatchingMoreFacts.

(** * More facts about pyth/plugins/plaintext/writer.py: lists *)

Module PlaintextListFacts.
Import Pyth Plaintext PlaintextFacts.

Local Open Scope string_scope.

(** ** Documents made of paragraphs and nested lists *)

(** A paragraph, or a list of entries; an entry holds its properties and its
    children, paragraphs or lists again. *)
#[local] Set Warnings "-register-all".

Inductive Node : Type :=
| NPara (p : Para)
| NList (properties : list (string * pyval))
        (entries : list (list (string * pyval) * list Node)).

Fixpoint node_pyval (n : Node) : pyval :=
  match n with
  | NPara p => paragraph_node p
  | NList properties entries =>
      VElement List properties
        (List.map (fun entry : list (string * pyval) * list Node =>
                     let '(entry_properties, children) := entry in
                     VElement ListEntry entry_properties
                              (List.map node_pyval children))
                  entries)
  end.

(** The lines of a paragraph as they are written: each line after the
    indentation and the prefix, and followed by the newline string; a prefix
    that is not empty is two spaces from the second line on. *)
Fixpoint render_lines (newline : string) (indent : Z) (prefix : string)
    (lines : list string) : string :=
  match lines with
  | [] => ""
  | line :: rest =>
      str_repeat "  " indent ++ prefix ++ line ++ newline
      ++ render_lines newline indent
                      (if String.eqb prefix "" then prefix else "  ") rest
  end.

(** What a node is rendered as by a writer of indentation [indent]: a
    paragraph as its lines, with the prefix given; a list as its entries,
    one level deeper, the prefix being a bullet for the first child of an
    entry and two spaces for the others. *)
Fixpoint render_node (newline : string) (indent : Z) (prefix : string)
    (n : Node) : string :=
  match n with
  | NPara p => render_lines newline indent prefix (splitlines (paragraph_text p))
  | NList _ entries =>
      (fix render_entries
           (es : list (list (string * pyval) * list Node)) : string :=
         match es with
         | [] => ""
         | (_, children) :: es' =>
             (fix render_children (cs : list Node) (j : nat) : string :=
                match cs with
                | [] => ""
                | c :: cs' =>
                    render_node newline (indent + 1)
                                (if (j =? 0)%nat then "* " else "  ") c
                    ++ render_children cs' (S j)
                end) children O
             ++ render_entries es'
         end) entries
  end.

Lemma Node_nested_ind (Q : Node -> Prop) :
  (forall p, Q (NPara p)) ->
  (forall properties entries,
      Forall (fun entry => Forall Q entry.2) entries ->
      Q (NList properties entries)) ->
  forall n, Q n.
Proof.
  intros HPara HList. fix IH 1. intros [p|properties entries].
  - apply HPara.
  - apply HList. induction entries as [|[ep children] es IHes];
      constructor; [|exact IHes].
    cbn. induction children as [|c cs IHcs]; constructor;
      [apply IH|exact IHcs].
Qed.

Lemma write_target_wrote (pre written s : string) (w : Writer) :
  wrote pre written (target w) ->
  wrote pre (written ++ s) (target (write_target w s)).
Proof. intros H. by apply StringIO_write_wrote. Qed.

Lemma write_lines_wrote (newline pre : string) (lines : list string) :
  forall (prefix written : string) (w : Writer),
  wrote pre written (target w) ->
  indent (write_lines newline lines prefix w) = indent w /\
  wrote pre (written ++ render_lines newline (indent w) prefix lines)
        (target (write_lines newline lines prefix w)).
Proof.
  induction lines as [|line rest IH]; intros prefix written w Hw.
  - cbn [write_lines render_lines]. by rewrite str_app_nil_r.
  - cbn [write_lines render_lines].
    apply (write_target_wrote _ _ (str_repeat "  " (indent w))) in Hw.
    apply (write_target_wrote _ _ prefix) in Hw.
    apply (write_target_wrote _ _ line) in Hw.
    apply (write_target_wrote _ _ newline) in Hw.
    destruct (IH (if String.eqb prefix "" then prefix else "  ") _ _ Hw)
      as [Hi Hw'].
    split; [exact Hi|]. revert Hw'. cbn [indent write_target].
    by rewrite !str_app_assoc.
Qed.

Lemma handler_paragraph_prefix (newline prefix : string) (p : Para)
    (w : Writer) :
  handler newline (paragraph_node p) prefix w
  = Ok (write_lines newline (splitlines (paragraph_text p)) prefix w).
Proof.
  unfold paragraph_node. cbn [handler]. unfold paragraph.
  by rewrite texts_of_runs.
Qed.

(** The handler of a node writes what the node is rendered as, and leaves
    the indentation as it found it. *)
Lemma handler_node (newline pre : string) (n : Node) :
  forall (prefix written : string) (w : Writer),
  wrote pre written (target w) ->
  exists w',
    handler newline (node_pyval n) prefix w = Ok w' /\
    indent w' = indent w /\
    wrote pre (written ++ render_node newline (indent w) prefix n)
          (target w').
Proof.
  induction n as [p|properties entries IH] using Node_nested_ind;
    intros prefix written w Hw.
  - cbn [node_pyval render_node]. rewrite handler_paragraph_prefix.
    eexists. split; [done|]. by apply write_lines_wrote.
  - cbn [node_pyval handler render_node].
    set (w1 := {| target := target w; indent := indent w + 1 |}).
    assert (Hw1 : wrote pre written (target w1)) by done.
    assert (Hi1 : indent w1 = (indent w + 1)%Z) by done.
    clearbody w1. clear Hw. revert written w1 Hw1 Hi1.
    induction IH as [|[ep children] es Hch _ IHes]; intros written w1 Hw1 Hi1.
    + cbn [List.map rbind]. eexists. split; [done|]. cbn [indent target].
      split; [lia|]. by rewrite str_app_nil_r.
    + cbn [List.map]. cbn [snd] in Hch.
      assert (Hchildren : forall (j : nat) (written : string) (w2 : Writer),
                wrote pre written (target w2) ->
                indent w2 = (indent w + 1)%Z ->
                exists w3,
                  (fix pars_loop (ps : list pyval) (j : nat) (w : Writer)
                     : result Writer :=
                     match ps with
                     | [] => Ok w
                     | p :: ps' =>
                         let* w' :=
                           handler newline p
                                   (if (j =? 0)%nat then "* " else "  ") w in
                         pars_loop ps' (S j) w'
                     end) (List.map node_pyval children) j w2 = Ok w3 /\
                  indent w3 = (indent w + 1)%Z /\
                  wrote pre
                    (written
                     ++ (fix render_children (cs : list Node) (j : nat)
                           : string :=
                           match cs with
                           | [] => ""
                           | c :: cs' =>
                               render_node newline (indent w + 1)
                                 (if (j =? 0)%nat then "* " else "  ") c
                               ++ render_children cs' (S j)
                           end) children j)
                    (target w3)).
      { clear IHes Hw1 Hi1 written w1.
        induction Hch as [|c cs Hc _ IHcs]; intros j written w2 Hw2 Hi2.
        - eexists. split; [done|]. split; [done|].
          by rewrite str_app_nil_r.
        - cbn [List.map].
          destruct (Hc (if (j =? 0)%nat then "* " else "  ") written w2 Hw2)
            as (w' & Hh & Hi' & Hw').
          rewrite Hh. cbn [rbind].
          destruct (IHcs (S j) _ w' Hw' ltac:(lia)) as (w3 & Hl & Hi3 & Hw3).
          exists w3. split; [exact Hl|]. split; [exact Hi3|].
          revert Hw3. rewrite Hi2. by rewrite !str_app_assoc. }
      destruct (Hchildren O written w1 Hw1 Hi1) as (w3 & Hl & Hi3 & Hw3).
      rewrite Hl. cbn [rbind].
      destruct (IHes _ w3 Hw3 Hi3) as (w' & Hr & Hi' & Hw').
      exists w'. split; [exact Hr|]. split; [exact Hi'|].
      revert Hw'. by rewrite !str_app_assoc.
Qed.

(** What a document is rendered as: its nodes, rendered at the indentation
    of a new writer and without prefix, with one newline string between two
    of them. *)
Definition render_nodes (newline : string) (nodes : list Node) : string :=
  String.concat newline (List.map (render_node newline (-1) "") nodes).

Lemma go_loop_nodes (newline pre : string) (np : nat) (nodes : list Node) :
  forall (i : nat) (written : string) (w : Writer),
  (i + length nodes = np)%nat ->
  indent w = (-1)%Z ->
  wrote pre written (target w) ->
  exists w',
    go_loop newline np i (List.map node_pyval nodes) w = Ok w' /\
    indent w' = (-1)%Z /\
    wrote pre (written ++ render_nodes newline nodes) (target w').
Proof.
  induction nodes as [|n rest IH]; intros i written w Hnp Hi Hw.
  - exists w. split; [done|]. split; [done|]. unfold render_nodes.
    cbn [List.map String.concat]. by rewrite str_app_nil_r.
  - cbn [List.map go_loop].
    destruct (handler_node newline pre n "" written w Hw)
      as (w1 & Hh & Hi1 & Hw1).
    rewrite Hh. cbn [rbind]. rewrite Hi in Hw1, Hi1.
    cbn [length] in Hnp. destruct rest as [|m rest].
    + replace (Z.of_nat i <? Z.of_nat np - 1)%Z with false
        by (symmetry; apply Z.ltb_ge; cbn [length] in Hnp; lia).
      exists w1. split; [done|]. split; [done|]. exact Hw1.
    + replace (Z.of_nat i <? Z.of_nat np - 1)%Z with true
        by (symmetry; apply Z.ltb_lt; cbn [length] in Hnp; lia).
      apply (write_target_wrote _ _ newline) in Hw1.
      destruct (IH (S i) _ (write_target w1 newline)
                   ltac:(cbn [length] in *; lia) Hi1 Hw1)
        as (w' & Hgo & Hi' & Hw').
      exists w'. split; [exact Hgo|]. split; [exact Hi'|]. revert Hw'.
      unfold render_nodes. cbn [List.map String.concat].
      by rewrite !str_app_assoc.
Qed.

Lemma go_rendered (newline : string) (properties : list (string * pyval))
    (nodes : list Node) (t : StringIO) :
  (position t <= String.length (buffer t))%nat ->
  go newline (VElement Document properties (List.map node_pyval nodes))
     {| target := t; indent := -1 |}
  = Ok {| buffer := str_take (position t) (buffer t)
                    ++ render_nodes newline nodes;
          position := 0 |}.
Proof.
  intros Ht. unfold go. cbn [get_content rbind].
  destruct (go_loop_nodes newline (str_take (position t) (buffer t))
              (length (List.map node_pyval nodes))
              nodes 0 "" {| target := t; indent := -1 |})
    as (w' & Hgo & _ & Hw').
  - by rewrite length_map.
  - done.
  - by apply wrote_initial.
  - rewrite Hgo. cbn [rbind]. f_equal.
    rewrite str_app_nil_l in Hw'. by apply StringIO_finish.
Qed.

(** X23: [PlaintextWriter.write] on a document of paragraphs and lists, lists
    within lists included. The text written holds the nodes of the document
    with one newline string between two of them. A paragraph outside a list
    is written as its lines. A list is written as the children of its
    entries: each line of a child paragraph comes after two spaces for each
    list around the list of the paragraph, and after a bullet when it is the
    first line of the first child of its entry, after two spaces otherwise;
    each line is followed by the newline string. With no target given, the
    stream returned holds just this text; with a target, the text is written
    from the position of the target, which is cut after it and returned at
    offset 0. *)
Theorem write_nodes (newline : string) (properties : list (string * pyval))
    (nodes : list Node) :
  write newline (VElement Document properties (List.map node_pyval nodes)) None
  = Ok {| buffer := render_nodes newline nodes; position := 0 |} /\
  (forall t : StringIO,
      (position t <= String.length (buffer t))%nat ->
      write newline (VElement Document properties (List.map node_pyval nodes))
            (Some t)
      = Ok {| buffer := str_take (position t) (buffer t)
                        ++ render_nodes newline nodes;
              position := 0 |}).
Proof.
  split.
  - unfold write. cbn [default].
    rewrite go_rendered by (cbn; lia). reflexivity.
  - intros t Ht. unfold write. cbn [default]. by apply go_rendered.
Qed.

Definition one_line (s : string) : Node :=
  NPara {| par_properties := [];
           par_runs := [ {| run_properties := []; run_strings := [s] |} ] |}.

Example write_nested_list :
  write LF
    (VElement Document []
       (List.map node_pyval
          [ one_line "t";
            NList [] [ ([], [ one_line ("a" ++ LF ++ "b");
                              NList [] [ ([], [one_line "c"]) ];
                              one_line "d" ]);
                       ([], [ one_line "e" ]) ] ]))
    None
  = Ok {| buffer := "t" ++ LF ++ LF
                    ++ "* a" ++ LF ++ "  b" ++ LF
                    ++ "  * c" ++ LF
                    ++ "  d" ++ LF
                    ++ "* e" ++ LF;
          position := 0 |}.
Proof. reflexivity. Qed.

End PlaintextListFacts.

(** * More facts about pyth/plugins/python/reader.py *)

Module PythonMarkupMoreFacts.
Import Pyth PythonMarkup PlaintextFacts PlaintextListFacts.

(** ** The properties of a new markup object *)

(** [d.get(key)] on properties kept in insertion order. *)
Fixpoint dict_get (key : string) (d : list (string * pyval))
  : option pyval :=
  match d with
  | [] => None
  | (k, v) :: rest => if String.eqb k key then Some v else dict_get key rest
  end.

Lemma dict_get_set (key k : string) (value : pyval)
    (d : list (string * pyval)) :
  dict_get k (dict_set key value d)
  = if String.eqb key k then Some value else dict_get k d.
Proof.
  induction d as [|[k0 v0] d IH]; cbn [dict_set dict_get].
  - done.
  - destruct (String.eqb_spec k0 key) as [->|Hne]; cbn [dict_get].
    + by destruct (String.eqb_spec key k).
    + rewrite IH. destruct (String.eqb_spec k0 k) as [->|Hne'].
      * by destruct (String.eqb_spec key k) as [->|].
      * done.
Qed.

Lemma dict_set_keys (key : string) (value : pyval)
    (d : list (string * pyval)) :
  List.map fst (dict_set key value d)
  = if bool_decide (key ∈ List.map fst d) then List.map fst d
    else (List.map fst d ++ [key])%list.
Proof.
  induction d as [|[k0 v0] d IH]; cbn [dict_set List.map fst]; [done|].
  destruct (String.eqb_spec k0 key) as [->|Hne].
  - rewrite bool_decide_eq_true_2 by by left. done.
  - cbn [List.map fst]. rewrite IH.
    destruct (decide (key ∈ List.map fst d)) as [Hin|Hin].
    + rewrite !bool_decide_eq_true_2; [done|by right|done].
    + rewrite !bool_decide_eq_false_2; [done| |done].
      intros H. apply elem_of_cons in H as [->|H]; done.
Qed.

Lemma init_fold (shortcuts : list string) :
  forall properties : list (string * pyval),
  let d := fold_left (fun d key => dict_set key (VBool true) d)
                     shortcuts properties in
  (forall k, dict_get k d
             = if bool_decide (k ∈ shortcuts) then Some (VBool true)
               else dict_get k properties) /\
  (NoDup (List.map fst properties) -> NoDup (List.map fst d)).
Proof.
  induction shortcuts as [|key rest IH]; intros properties; cbn [fold_left].
  - split; [|done]. intros k. by rewrite bool_decide_eq_false_2 by apply not_elem_of_nil.
  - destruct (IH (dict_set key (VBool true) properties)) as [Hget Hnd].
    split.
    + intros k. rewrite Hget, dict_get_set.
      destruct (decide (k ∈ rest)) as [Hin|Hin].
      * rewrite !bool_decide_eq_true_2; [done|by right|done].
      * rewrite (bool_decide_eq_false_2 (k ∈ rest)) by done.
        destruct (String.eqb_spec key k) as [->|Hne].
        -- by rewrite bool_decide_eq_true_2 by by left.
        -- rewrite bool_decide_eq_false_2; [done|].
           intros H. apply elem_of_cons in H as [->|H]; done.
    + intros Hp. apply Hnd. rewrite dict_set_keys.
      case_bool_decide as Hin; [done|].
      apply NoDup_app. split; [done|]. split; [|apply NoDup_singleton].
      intros x Hx Hx'. apply list_elem_of_singleton in Hx'. by subst.
Qed.

(** X24: a new markup object, built by [_PythonBase.__init__] from shortcuts
    and keyword properties, has no content; each key of a shortcut is [True]
    in its properties, also when a keyword property gave it another value;
    every other key has the value its keyword property gave it, or none;
    and no key comes twice when none does among the keyword properties. *)
Theorem init_properties (cls : MarkupClass) (shortcuts : list string)
    (properties : list (string * pyval)) :
  exists properties',
    _PythonBase_init cls shortcuts properties = VMarkup cls properties' [] /\
    (forall k, dict_get k properties'
               = if bool_decide (k ∈ shortcuts) then Some (VBool true)
                 else dict_get k properties) /\
    (NoDup (List.map fst properties) -> NoDup (List.map fst properties')).
Proof.
  eexists. split; [reflexivity|]. apply init_fold.
Qed.

(** ** Reading, then writing *)

(** The markup objects that stand for a node: [P] and [T] objects for a
    paragraph and its text runs, [L] and [LE] objects for a list and its
    entries. *)
Definition text_markup (t : TextRun) : pyval :=
  VMarkup T (run_properties t) (List.map VStr (run_strings t)).

Fixpoint node_markup (n : Node) : pyval :=
  match n with
  | NPara p => VMarkup P (par_properties p) (List.map text_markup (par_runs p))
  | NList properties entries =>
      VMarkup L properties
        (List.map (fun entry : list (string * pyval) * list Node =>
                     let '(entry_properties, children) := entry in
                     VMarkup LE entry_properties
                             (List.map node_markup children))
                  entries)
  end.

Lemma convert_node_markup (n : Node) :
  _convert (node_markup n) = node_pyval n.
Proof.
  induction n as [p|properties entries IH] using Node_nested_ind.
  - cbn [node_markup node_pyval _convert toPyth pythType].
    unfold paragraph_node. f_equal. rewrite List.map_map.
    apply map_ext. intros t. reflexivity.
  - cbn [node_markup node_pyval _convert toPyth pythType]. f_equal.
    rewrite List.map_map.
    induction IH as [|[ep children] es Hch _ IHes]; [done|].
    cbn [List.map]. f_equal; [|exact IHes].
    cbn [toPyth pythType]. f_equal. rewrite List.map_map. cbn [snd] in Hch.
    induction Hch as [|c cs Hc _ IHcs]; [done|].
    cbn [List.map]. f_equal; [|exact IHcs].
    destruct c; exact Hc.
Qed.

(** X25: reading, then writing. [PythonReader.read] on the markup objects
    of paragraphs and lists builds the document of these nodes, which
    [PlaintextWriter.write] renders: the text written for [P], [L], [LE] and
    [T] objects is the rendering of the nodes they stand for. *)
Theorem read_then_write (newline : string) (nodes : list Node) :
  read (List.map node_markup nodes)
  = VElement Document [] (List.map node_pyval nodes) /\
  Plaintext.write newline (read (List.map node_markup nodes)) None
  = Ok {| Plaintext.buffer := render_nodes newline nodes;
          Plaintext.position := 0 |}.
Proof.
  assert (E : read (List.map node_markup nodes)
              = VElement Document [] (List.map node_pyval nodes)).
  { unfold read. f_equal. rewrite List.map_map. apply map_ext.
    intros n. apply convert_node_markup. }
  split; [exact E|]. rewrite E. unfold Plaintext.write. cbn [default].
  rewrite go_rendered by (cbn; lia). reflexivity.
Qed.

(** The expression [P[T["a"], T["b"]]], read and written. *)
Example read_write_expression :
  (let* t1 := class_getitem T (VStr "a") in
   let* t2 := class_getitem T (VStr "b") in
   let* p := class_getitem P (VTuple [t1.2; t2.2]) in
   Plaintext.write LF (read [p.2]) None)
  = Ok {| Plaintext.buffer := ("ab" ++ LF)%string; Plaintext.position := 0 |}.
Proof. reflexivity. Qed.

End PythonMarkupMoreFacts.

(** * More facts about jax/core.py: shapes, named shapes and joins *)

Module CoreMoreFacts.
Import Core CoreFacts.

(** ** [symbolic_equal_shape] *)

Lemma symbolic_equal_dim_refl (d : AxisSize) :
  symbolic_equal_dim d d = Ok true.
Proof. unfold symbolic_equal_dim. by rewrite decide_True. Qed.

Lemma symbolic_equal_dim_sym (d1 d2 : AxisSize) :
  symbolic_equal_dim d1 d2 = symbolic_equal_dim d2 d1.
Proof.
  unfold symbolic_equal_dim.
  destruct (decide (d1 = d2)) as [->|Hne].
  - by rewrite decide_True.
  - rewrite decide_False by congruence.
    destruct d1, d2; try done. by rewrite Z.eqb_sym.
Qed.

Lemma all_symbolic_equal_dim_refl (s : list AxisSize) :
  all_symbolic_equal_dim s s = Ok true.
Proof.
  induction s as [|d s IH]; [done|]. cbn [all_symbolic_equal_dim].
  by rewrite symbolic_equal_dim_refl.
Qed.

Lemma all_symbolic_equal_dim_sym (s1 : list AxisSize) :
  forall s2, length s1 = length s2 ->
  all_symbolic_equal_dim s1 s2 = all_symbolic_equal_dim s2 s1.
Proof.
  induction s1 as [|d1 s1 IH]; intros [|d2 s2] Hlen; try done.
  cbn [all_symbolic_equal_dim]. rewrite (symbolic_equal_dim_sym d2 d1).
  destruct (symbolic_equal_dim d1 d2) as [[|]|]; cbn [rbind]; try done.
  apply IH. by injection Hlen.
Qed.

(** X26: [symbolic_equal_shape]. A shape equals itself, symbolic sizes
    included; two shapes of different ranks are unequal, whatever they hold;
    two shapes of ints are equal when they are the same tuple, and the
    comparison does not raise; and the outcome, a [TypeError] too, does not
    depend on the order of the two shapes. *)
Theorem symbolic_equal_shape_spec (s1 s2 : list AxisSize) (z1 z2 : list Z) :
  symbolic_equal_shape s1 s1 = Ok true /\
  (length s1 <> length s2 -> symbolic_equal_shape s1 s2 = Ok false) /\
  symbolic_equal_shape (List.map DimInt z1) (List.map DimInt z2)
  = Ok (bool_decide (z1 = z2)) /\
  symbolic_equal_shape s1 s2 = symbolic_equal_shape s2 s1.
Proof.
  split; [|split; [|split]].
  - unfold symbolic_equal_shape. rewrite Nat.eqb_refl.
    apply all_symbolic_equal_dim_refl.
  - intros Hne. unfold symbolic_equal_shape.
    by destruct (Nat.eqb_spec (length s1) (length s2)).
  - apply symbolic_equal_shape_int.
  - unfold symbolic_equal_shape.
    rewrite (Nat.eqb_sym (length s2)).
    destruct (Nat.eqb_spec (length s1) (length s2)); [|done].
    by apply all_symbolic_equal_dim_sym.
Qed.

(** ** [join_named_shapes] of any number of named shapes *)

(** The fold of [join_named_shapes], from the dictionary [acc]. *)
Definition join_from (acc : gmap string Z)
    (named_shapes : list (gmap string Z)) : result (gmap string Z) :=
  fold_result
    (fun res named_shape =>
       fold_result setdefault_check (map_to_list named_shape) res)
    named_shapes acc.

(** [acc] and each of the named shapes, and the named shapes among
    themselves, give no axis name two sizes. *)
Fixpoint consistent (acc : gmap string Z)
    (named_shapes : list (gmap string Z)) : Prop :=
  match named_shapes with
  | [] => True
  | s :: rest => agree acc s /\ consistent (acc ∪ s) rest
  end.

Lemma join_from_spec (named_shapes : list (gmap string Z)) :
  forall acc : gmap string Z,
  (join_from acc named_shapes = Ok (acc ∪ ⋃ named_shapes) /\
   consistent acc named_shapes) \/
  (join_from acc named_shapes = Raise TypeError /\
   ~ consistent acc named_shapes).
Proof.
  induction named_shapes as [|s rest IH]; intros acc.
  - left. split; [|done]. cbn. f_equal. symmetry.
    apply (right_id_L ∅ (∪)).
  - cbn [join_from fold_result consistent union_list].
    destruct (fold_setdefault_spec (map_to_list s) acc
                (NoDup_fst_map_to_list s))
      as [[Hf Hall]|[Hf (k & v & x & Hin & Hl & Hx)]].
    + rewrite Hf, list_to_map_to_list. cbn [rbind].
      assert (Hag : agree acc s).
      { intros k x y Ha Hs. apply (Hall k y x); [|done].
        by apply elem_of_map_to_list. }
      destruct (IH (acc ∪ s)) as [[Hj Hc]|[Hj Hc]].
      * left. split; [|done]. unfold join_from in Hj. rewrite Hj.
        f_equal. cbn [foldr]. fold (union_list rest).
        by rewrite (assoc_L (∪)).
      * right. split; [exact Hj|]. by intros [_ ?].
    + rewrite Hf. right. split; [done|]. intros [Hag _]. apply Hx.
      apply (Hag k x v Hl). by apply elem_of_map_to_list.
Qed.

Lemma agree_union_split (acc s t : gmap string Z) :
  agree acc s -> (agree (acc ∪ s) t <-> agree acc t /\ agree s t).
Proof.
  intros Has. split.
  - intros H. split.
    + intros k x y Ha Ht. apply (H k x y); [|done].
      by apply lookup_union_Some_l.
    + intros k x y Hs Ht. apply (H k x y); [|done].
      destruct (acc !! k) as [x'|] eqn:Ea.
      * rewrite (Has k x' x Ea Hs) in Ea. by apply lookup_union_Some_l.
      * rewrite lookup_union_r by done. done.
  - intros [Hat Hst] k x y Hu Ht.
    apply lookup_union_Some_raw in Hu as [Ha|[_ Hs]]; eauto.
Qed.

Lemma consistent_pairwise (named_shapes : list (gmap string Z)) :
  forall acc : gmap string Z,
  consistent acc named_shapes <->
  (forall s, s ∈ named_shapes -> agree acc s) /\
  (forall a b, a ∈ named_shapes -> b ∈ named_shapes -> agree a b).
Proof.
  induction named_shapes as [|s rest IH]; intros acc; cbn [consistent].
  - split; [|done]. intros _. split.
    + intros s Hs. by apply elem_of_nil in Hs.
    + intros a b Ha. by apply elem_of_nil in Ha.
  - rewrite IH. split.
    + intros (Has & Hall & Hpairs).
      assert (Hrest : forall t, t ∈ rest -> agree acc t /\ agree s t).
      { intros t Ht. apply (agree_union_split acc s t Has). by apply Hall. }
      split.
      * intros t Ht. apply elem_of_cons in Ht as [->|Ht]; [done|].
        by apply Hrest.
      * intros a b Ha Hb.
        apply elem_of_cons in Ha as [->|Ha];
          apply elem_of_cons in Hb as [->|Hb].
        -- apply agree_refl.
        -- by apply Hrest.
        -- apply agree_sym. by apply Hrest.
        -- by apply Hpairs.
    + intros [Hall Hpairs].
      assert (Has : agree acc s) by (apply Hall; by left).
      split; [exact Has|]. split.
      * intros t Ht. apply (agree_union_split acc s t Has). split.
        -- apply Hall. by right.
        -- apply Hpairs; [by left|by right].
      * intros a b Ha Hb. apply Hpairs; by right.
Qed.

(** X27: [join_named_shapes] of any number of named shapes. When no two of
    them give one axis name two sizes, the call returns their union;
    when two of them do, it raises [TypeError]. *)
Theorem join_named_shapes_all (named_shapes : list (gmap string Z)) :
  ((forall a b, a ∈ named_shapes -> b ∈ named_shapes -> agree a b) ->
   join_named_shapes named_shapes = Ok (⋃ named_shapes)) /\
  ((exists a b, a ∈ named_shapes /\ b ∈ named_shapes /\ ~ agree a b) ->
   join_named_shapes named_shapes = Raise TypeError).
Proof.
  change (join_named_shapes named_shapes) with (join_from ∅ named_shapes).
  destruct (join_from_spec named_shapes ∅) as [[Hj Hc]|[Hj Hc]].
  - split.
    + intros _. rewrite Hj. f_equal. apply (left_id_L ∅ (∪)).
    + intros (a & b & Ha & Hb & Hab). destruct Hab.
      apply consistent_pairwise in Hc as [_ Hpairs]. by apply Hpairs.
  - split; [|done]. intros Hpairs. destruct Hc.
    apply consistent_pairwise. split; [|done].
    intros s _ k x y Hk. by rewrite lookup_empty in Hk.
Qed.

(** ** The level of a join *)

(** The abstraction level of an array value. *)
Definition level_of (x : AbstractValue) : option Z :=
  array_abstraction_level (type_of x).

Lemma UnshapedArray_join_level (self other r : AbstractValue) (ls lo : Z) :
  UnshapedArray_join self other = Ok r ->
  level_of self = Some ls -> level_of other = Some lo -> lo <= ls ->
  exists lr, level_of r = Some lr /\ ls <= lr /\ lo <= lr /\
             get_dtype r = get_dtype self /\ get_dtype r = get_dtype other.
Proof.
  unfold UnshapedArray_join. intros H Hs Ho Hle.
  destruct (get_dtype self) as [sd|] eqn:Es; [|done].
  destruct (get_dtype other) as [od|] eqn:Eo; [|done]. cbn [rbind] in H.
  case_bool_decide as Hd; [|done]. subst od.
  destruct (get_weak_type self) as [sw|]; [|done].
  destruct (get_weak_type other) as [ow|]; [|done]. cbn [rbind] in H.
  destruct (Bool.eqb sw ow); injection H as <-.
  - exists ls. rewrite Es. repeat split; try done; lia.
  - exists 3. cbn. repeat split; try done.
    + destruct self; cbn in Hs; simplify_eq; lia.
    + destruct self; cbn in Hs; simplify_eq; destruct other; cbn in Ho;
        simplify_eq; lia.
Qed.

Lemma join_level (cfg : Config) (self other r : AbstractValue) (ls lo : Z) :
  join cfg self other = Ok r ->
  isinstance other (type_of self) = true ->
  level_of self = Some ls -> level_of other = Some lo ->
  exists lr, level_of r = Some lr /\ ls <= lr /\ lo <= lr /\
             get_dtype r = get_dtype self /\ get_dtype r = get_dtype other.
Proof.
  intros H Hinst Hs Ho.
  destruct self as [| | |sd sw|ss sd sw|ss sd sw sn|sd sv sw];
    try discriminate Hs; cbn [join] in H.
  - apply (UnshapedArray_join_level _ _ _ _ _ H Hs Ho).
    destruct other; cbn in Ho, Hs; simplify_eq; lia.
  - apply (UnshapedArray_join_level _ _ _ _ _ H Hs Ho).
    destruct other; cbn in Ho, Hs, Hinst; simplify_eq; try lia; done.
  - unfold ShapedArray_join in H.
    destruct (get_shape other) as [os|]; [|done]. cbn [rbind] in H.
    destruct (symbolic_equal_shape _ os) as [same|]; [|done].
    cbn [rbind] in H.
    destruct (get_dtype other) as [od|] eqn:Eo; [|done]. cbn [rbind] in H.
    cbn in Hs. injection Hs as <-.
    assert (Hlo : lo <= 1).
    { destruct other; cbn in Ho, Hinst; simplify_eq; try lia; done. }
    destruct (same && bool_decide (sd = od)) eqn:Ec.
    + apply andb_prop in Ec as [_ Hd]. apply bool_decide_eq_true in Hd.
      subst od.
      destruct (get_weak_type other) as [ow|]; [|done]. cbn [rbind] in H.
      destruct (get_named_shape other) as [ons|]; [|done]. cbn [rbind] in H.
      destruct (join_named_shapes _) as [ns|]; [|done]. cbn [rbind] in H.
      injection H as <-. exists 1. cbn. repeat split; try done; lia.
    + case_bool_decide as Hd; [|done]. subst od. injection H as <-.
      exists 3. cbn. repeat split; try done; lia.
  - unfold ConcreteArray_join in H.
    cbn in Hs. injection Hs as <-.
    assert (Hot : type_of other = ClsConcreteArray).
    { destruct other; cbn in Hinst; done. }
    assert (lo = 0) as ->.
    { destruct other; cbn in Hot, Ho; simplify_eq. done. }
    destruct (py_eq (ConcreteArray sd sv sw) other) eqn:Eq.
    + injection H as <-. exists 0. cbn.
      destruct other; cbn in Hot; try done. cbn in Eq.
      destruct (bool_decide (sd = dt)) eqn:Ed; [|done].
      apply bool_decide_eq_true in Ed. subst dt.
      repeat split; try done; lia.
    + destruct (get_shape other) as [os|]; [|done]. cbn [rbind] in H.
      destruct (get_dtype other) as [od|] eqn:Eo; [|done]. cbn [rbind] in H.
      destruct (bool_decide (List.map DimInt (np_shape sv) = os)
                && bool_decide (sd = od)) eqn:Ec.
      * apply andb_prop in Ec as [_ Hd]. apply bool_decide_eq_true in Hd.
        subst od.
        destruct (get_weak_type other) as [ow|]; [|done]. cbn [rbind] in H.
        destruct (get_named_shape other) as [ons|]; [|done].
        cbn [rbind] in H.
        destruct (join_named_shapes _) as [ns|]; [|done]. cbn [rbind] in H.
        injection H as <-. exists 1. cbn. repeat split; try done; lia.
      * case_bool_decide as Hd; [|done]. subst od.
        destruct (get_weak_type other) as [ow|]; [|done]. cbn [rbind] in H.
        injection H as <-. exists 3. cbn. repeat split; try done; lia.
Qed.

(** X28: the join of two array values is not more concrete than either of
    them, and has their dtype. When [lattice_join(x, y)] returns, on values
    of the array classes, the abstraction level of the result is at least
    the level of [x] and the level of [y] (0 for [ConcreteArray], 1 for
    [ShapedArray], 2 for [DShapedArray], 3 for [UnshapedArray]), and the
    three dtypes are one. *)
Theorem lattice_join_level (cfg : Config) (x y r : AbstractValue)
    (lx ly : Z) :
  lattice_join cfg (Some x) (Some y) = Ok (Some r) ->
  level_of x = Some lx -> level_of y = Some ly ->
  exists lr, level_of r = Some lr /\ lx <= lr /\ ly <= lr /\
             get_dtype r = get_dtype x /\ get_dtype r = get_dtype y.
Proof.
  intros H Hx Hy. cbn [lattice_join] in H.
  destruct (isinstance x (type_of y)) eqn:Exy.
  - destruct (join cfg y x) as [j|] eqn:Ej; [|done]. injection H as ->.
    destruct (join_level cfg y x r ly lx Ej Exy Hy Hx)
      as (lr & ? & ? & ? & ? & ?).
    exists lr. repeat split; done.
  - destruct (isinstance y (type_of x)) eqn:Eyx; [|done].
    destruct (join cfg x y) as [j|] eqn:Ej; [|done]. injection H as ->.
    destruct (join_level cfg x y r lx ly Ej Eyx Hx Hy)
      as (lr & ? & ? & ? & ? & ?).
    exists lr. repeat split; done.
Qed.

Lemma lattice_join_level_witness :
  let cfg := {| jax_enable_checks := true; jax_disable_jit := false |} in
  let x := ConcreteArray float32
             {| nd_shape := [2%nat]; nd_item := fun _ => SFloat S754_nan |}
             false in
  let y := ShapedArray [3] float32 true ∅ in
  exists lr, level_of (UnshapedArray float32 false) = Some lr /\
             0 <= lr /\ 1 <= lr.
Proof.
  intros cfg x y.
  destruct (lattice_join_level cfg x y (UnshapedArray float32 false) 0 1)
    as (lr & Hl & H0 & H1 & _); try reflexivity.
  by exists lr.
Defined.

End CoreMoreFacts.
